(** * Taiga MCP server: pagination engine, version-guarded updates and the
      attachment pipeline

    A shallow embedding of [src/pagination.js] and of the update, comment and
    attachment methods of [src/taigaService.js], with the properties the
    specification states about them.

    JavaScript values are a JSON-like inductive type, objects are finite maps
    from property names to values, [async] functions are computations in a
    state-and-exception monad whose state is the world the function runs in
    (the remote service, the requests sent so far, the console). *)

From stdpp Require Import gmap strings list fin_maps pretty.
From Stdlib Require Import ZArith Lia Ascii.

#[local] Set Warnings "-register-all".
#[local] Open Scope Z_scope.

(** ** JavaScript values *)

Module Js.

(** The values the program handles: JSON data, plus [undefined].  Numbers are
    the integers (identifiers, versions, page numbers, HTTP statuses). *)
Inductive JsVal : Type :=
| JUndefined
| JNull
| JBool (b : bool)
| JNum (n : Z)
| JStr (s : string)
| JArr (elems : list JsVal)
| JObj (props : gmap string JsVal).

(** The result of evaluating an expression or awaiting a promise: a value, or
    a thrown value (a rejected promise). *)
Inductive outcome (A : Type) : Type :=
| Ok (a : A)
| Throw (e : JsVal).
Arguments Ok {A} a.
Arguments Throw {A} e.

(** [!!v] *)
Definition truthy (v : JsVal) : bool :=
  match v with
  | JUndefined | JNull => false
  | JBool b => b
  | JNum n => negb (n =? 0)
  | JStr s => match s with EmptyString => false | String _ _ => true end
  | JArr _ | JObj _ => true
  end.

(** [Array.isArray(v)] *)
Definition isArray (v : JsVal) : bool :=
  match v with JArr _ => true | _ => false end.

(** [typeof v === 'number'] and [typeof v === 'string'] *)
Definition typeof_number (v : JsVal) : bool :=
  match v with JNum _ => true | _ => false end.

Definition typeof_string (v : JsVal) : bool :=
  match v with JStr _ => true | _ => false end.

(** [v === n] for a number literal [n] *)
Definition strict_eq_num (v : JsVal) (n : Z) : bool :=
  match v with JNum m => m =? n | _ => false end.

(** [a || b] on values *)
Definition or_else (a b : JsVal) : JsVal := if truthy a then a else b.

(** [new Error(msg)]: the program only ever reads [message] and [response]
    of an error. *)
Definition mkError (msg : string) : JsVal := JObj {[ "message" := JStr msg ]}.

(** The [TypeError] raised by a property read on [null] or [undefined]. *)
Definition TypeError (key : string) : JsVal :=
  mkError ("Cannot read properties of null or undefined (reading '" +:+ key +:+ "')").

(** [v.key] for the data properties the program reads ([data], [results],
    [next], [version], [message], [response], [status], [project],
    [length]): a missing property is [undefined], a read on [null] or
    [undefined] throws. *)
Definition get (v : JsVal) (key : string) : outcome JsVal :=
  match v with
  | JUndefined | JNull => Throw (TypeError key)
  | JObj props => Ok (default JUndefined (props !! key))
  | JArr elems =>
      Ok (if String.eqb key "length" then JNum (Z.of_nat (length elems)) else JUndefined)
  | JStr s =>
      Ok (if String.eqb key "length" then JNum (Z.of_nat (String.length s)) else JUndefined)
  | JBool _ | JNum _ => Ok JUndefined
  end.

(** [v?.key] *)
Definition get_opt (v : JsVal) (key : string) : JsVal :=
  match get v key with Ok x => x | Throw _ => JUndefined end.

(** [a.concat(v)]: an array argument is spliced in, anything else is
    appended as one element. *)
Definition concat (a : list JsVal) (v : JsVal) : list JsVal :=
  match v with
  | JArr elems => a ++ elems
  | _ => a ++ [v]
  end.

Section ToString.
(** [Number.prototype.toString] is the platform's. *)
Variable NumberToString : Z -> string.

(** String conversion as a template literal performs it. *)
Fixpoint ToString (v : JsVal) : string :=
  match v with
  | JUndefined => "undefined"
  | JNull => "null"
  | JBool true => "true"
  | JBool false => "false"
  | JNum n => NumberToString n
  | JStr s => s
  | JArr elems =>
      let elt (x : JsVal) : string :=
        match x with JUndefined | JNull => "" | _ => ToString x end in
      (fix join (l : list JsVal) : string :=
         match l with
         | [] => ""
         | [x] => elt x
         | x :: rest => elt x +:+ "," +:+ join rest
         end) elems
  | JObj _ => "[object Object]"
  end.
End ToString.

Definition is_nullish (v : JsVal) : bool :=
  match v with JUndefined | JNull => true | _ => false end.

End Js.
Import Js.

(** ** Asynchronous computations *)

(** An [async] function over a world of type [Σ]: it ends in a value or in a
    thrown value, and leaves a new world either way. *)
Definition M (Σ A : Type) : Type := Σ -> outcome A * Σ.

Definition ret {Σ A} (a : A) : M Σ A := fun w => (Ok a, w).

Definition throw {Σ A} (e : JsVal) : M Σ A := fun w => (Throw e, w).

Definition bind {Σ A B} (c : M Σ A) (k : A -> M Σ B) : M Σ B :=
  fun w =>
    match c w with
    | (Ok a, w') => k a w'
    | (Throw e, w') => (Throw e, w')
    end.

(** [try { c } catch (error) { h error }] *)
Definition try_catch {Σ A} (c : M Σ A) (h : JsVal -> M Σ A) : M Σ A :=
  fun w =>
    match c w with
    | (Ok a, w') => (Ok a, w')
    | (Throw e, w') => h e w'
    end.

(** An expression that may throw, evaluated inside an [async] function. *)
Definition lift {Σ A} (o : outcome A) : M Σ A := fun w => (o, w).

(** Sequencing of expressions that may throw. *)
Definition obind {A B} (o : outcome A) (k : A -> outcome B) : outcome B :=
  match o with
  | Ok a => k a
  | Throw e => Throw e
  end.

Declare Scope js_scope.
Delimit Scope js_scope with js.
Notation "'let!' x ':=' c 'in' k" := (bind c (fun x => k))
  (at level 10, x pattern, c at level 100, k at level 200) : js_scope.
Notation "'let?' x ':=' o 'in' k" := (obind o (fun x => k))
  (at level 10, x pattern, o at level 100, k at level 200) : js_scope.
Notation "c ';;;' k" := (bind c (fun _ => k))
  (at level 100, k at level 200, right associativity) : js_scope.
#[local] Open Scope js_scope.

(** ** The pagination engine ([src/pagination.js]) *)

Module Pagination.

(** The world of a traversal: the state the page-fetching function closes
    over, the parameter objects it has been called with, and the console. *)
Record world (St : Type) : Type := World {
  remote : St;
  calls : list JsVal;
  console : list string
}.
Arguments World {St} _ _ _.
Arguments remote {St} _.
Arguments calls {St} _.
Arguments console {St} _.

(** What one turn of the [while] loop leaves behind. *)
Inductive step : Type :=
| Break (allItems : list JsVal) (currentPage : Z)
| Continue (allItems : list JsVal) (currentPage : Z) (hasMore : bool).

(** The classification of a response (the [if (response.data)] cascade):
    the items of the page and whether more pages are announced. *)
Definition read_page (response : JsVal) : outcome (JsVal * bool) :=
  let? data := get response "data" in
  if truthy data then
    if isArray data then
      Ok (data, false)
    else
      let? results := get data "results" in
      if truthy results && isArray results then
        let? nextUrl := get data "next" in
        Ok (results, truthy nextUrl)
      else
        Ok (or_else results (JArr []), false)
  else
    Ok (if isArray response then response else JArr [], false).

Section Engine.
Context {St : Type}.
Variable NumberToString : Z -> string.
Variable fetchFunction : JsVal -> St -> outcome JsVal * St.
Variable initialParams : gmap string JsVal.
Variable maxPages : Z.

(** [await fetchFunction(params)] *)
Definition call_fetch (params : JsVal) : M (world St) JsVal :=
  fun w =>
    let (r, s') := fetchFunction params (remote w) in
    (r, World s' (calls w ++ [params]) (console w)).

Definition console_warn (msg : string) : M (world St) unit :=
  fun w => (Ok tt, World (remote w) (calls w) (console w ++ [msg])).

(** [{ ...initialParams, page: currentPage }] *)
Definition page_params (currentPage : Z) : JsVal :=
  JObj (<["page" := JNum currentPage]> initialParams).

(** The [catch] block, entered with the accumulator as it stands. *)
Definition on_error (allItems : list JsVal) (currentPage : Z) (error : JsVal)
  : M (world St) step :=
  let! message := lift (get error "message") in
  console_warn ("Pagination stopped at page " +:+ NumberToString currentPage
                +:+ ": " +:+ ToString NumberToString message);;;
  ret (Break allItems currentPage).

(** The body of the [while] loop. *)
Definition iteration (allItems : list JsVal) (currentPage : Z) : M (world St) step :=
  fun w =>
    match call_fetch (page_params currentPage) w with
    | (Throw error, w') => on_error allItems currentPage error w'
    | (Ok response, w') =>
        match read_page response with
        | Throw error => on_error allItems currentPage error w'
        | Ok (items, hasMore) =>
            let allItems := concat allItems items in
            if negb hasMore then (Ok (Break allItems currentPage), w')
            else
              match get items "length" with
              | Throw error => on_error allItems currentPage error w'
              | Ok len =>
                  if strict_eq_num len 0 then (Ok (Break allItems currentPage), w')
                  else (Ok (Continue allItems (currentPage + 1) hasMore), w')
              end
        end
    end.

(** [while (hasMore && currentPage <= maxPages)]; the loop runs at most
    [maxPages] times, which is the fuel [fetchAllPaginated] gives it. *)
Fixpoint while_loop (fuel : nat) (allItems : list JsVal) (currentPage : Z)
    (hasMore : bool) : M (world St) (list JsVal * Z) :=
  if hasMore && (currentPage <=? maxPages) then
    match fuel with
    | O => ret (allItems, currentPage)
    | S fuel' =>
        let! st := iteration allItems currentPage in
        match st with
        | Break allItems' currentPage' => ret (allItems', currentPage')
        | Continue allItems' currentPage' hasMore' =>
            while_loop fuel' allItems' currentPage' hasMore'
        end
    end
  else ret (allItems, currentPage).

Definition fetchAllPaginated : M (world St) (list JsVal) :=
  let! (allItems, currentPage) := while_loop (Z.to_nat maxPages) [] 1 true in
  (if currentPage >? maxPages
   then console_warn ("Reached maximum page limit (" +:+ NumberToString maxPages
                      +:+ "). Results may be incomplete.")
   else ret tt);;;
  ret allItems.

End Engine.

(** An envelope: [{ data: { results: [...], next: ..., ... }, ... }]. *)
Definition is_envelope (response : JsVal) (results : list JsVal) (next : JsVal) : Prop :=
  exists fields body,
    response = JObj fields /\
    fields !! "data" = Some (JObj body) /\
    body !! "results" = Some (JArr results) /\
    default JUndefined (body !! "next") = next.

Definition envelope (results : list JsVal) (next : JsVal) : JsVal :=
  JObj {[ "data" := JObj (<["results" := JArr results]> {[ "next" := next ]}) ]}.

(** *** Scripts: what a page-fetching function answers, call after call *)

Section Scripts.
Context {St : Type}.
Variable fetchFunction : JsVal -> St -> outcome JsVal * St.
Variable initialParams : gmap string JsVal.

(** [serves p s rs s']: called in turn for pages [p], [p+1], ... starting
    in state [s], the function gives the outcomes [rs] and is left in state
    [s']. *)
Inductive serves : Z -> St -> list (outcome JsVal) -> St -> Prop :=
| serves_nil p s : serves p s [] s
| serves_cons p s r s1 rs s' :
    fetchFunction (page_params initialParams p) s = (r, s1) ->
    serves (p + 1) s1 rs s' ->
    serves p s (r :: rs) s'.

(** Every rejection of the function carries an error value (not [null]
    or [undefined]). *)
Definition rejects_with_errors : Prop :=
  forall params s e s', fetchFunction params s = (Throw e, s') -> is_nullish e = false.

(** A runaway endpoint: every call answers an envelope with a non-empty
    [results] array, whose [next] satisfies [more]. *)
Definition runaway (more : JsVal -> Prop) : Prop :=
  forall params s, exists response results next s',
    fetchFunction params s = (Ok response, s') /\
    is_envelope response results next /\ results <> [] /\ more next.
End Scripts.

(** The pages of a listing, as (results, next) pairs. *)
Abbreviation page := (list JsVal * JsVal)%type.

Definition envelopes (responses : list JsVal) (pages : list page) : Prop :=
  Forall2 (fun response pg => is_envelope response pg.1 pg.2) responses pages.

(** A page after which the traversal goes on. *)
Definition continuing (pg : page) : Prop := pg.1 <> [] /\ truthy pg.2 = true.

Definition all_items (pages : list page) : list JsVal := mjoin (map fst pages).

(** The page results of the specification's data model: a bare sequence, an
    envelope, or anything else.  A response that carries no [data] but is
    itself an array counts as a bare sequence, as in the source. *)
Inductive shape : Type :=
| BareArray (items : list JsVal)
| Envelope (items : list JsVal) (next : JsVal)
| Unrecognized.

Definition spec_classify (response : JsVal) : shape :=
  match get response "data" with
  | Throw _ => Unrecognized
  | Ok data =>
      if truthy data then
        match data with
        | JArr items => BareArray items
        | _ =>
            match get data "results" with
            | Ok (JArr items) => Envelope items (get_opt data "next")
            | _ => Unrecognized
            end
        end
      else
        match response with
        | JArr items => BareArray items
        | _ => Unrecognized
        end
  end.

(** What a response of unrecognized shape still adds to the result: a
    truthy [data.results] that is not an array is taken as a single item. *)
Definition stray (response : JsVal) : list JsVal :=
  let results := get_opt (get_opt response "data") "results" in
  if truthy results then [results] else [].

End Pagination.

(** ** Strings *)

Module Str.

(** [s.includes(needle)] *)
Fixpoint includes (needle s : string) : bool :=
  String.prefix needle s ||
  match s with
  | EmptyString => false
  | String _ rest => includes needle rest
  end.

(** [s.split(sep)] for a one-character separator *)
Fixpoint split (sep : ascii) (s : string) : list string :=
  match s with
  | EmptyString => [EmptyString]
  | String c rest =>
      if Ascii.eqb c sep then EmptyString :: split sep rest
      else
        match split sep rest with
        | head :: tail => String c head :: tail
        | [] => [String c EmptyString]
        end
  end.

(** No occurrence of the character. *)
Fixpoint free_of (sep : ascii) (s : string) : bool :=
  match s with
  | EmptyString => true
  | String c rest => negb (Ascii.eqb c sep) && free_of sep rest
  end.

(** [s.toLowerCase()] on the ASCII letters *)
Definition lower (c : ascii) : ascii :=
  let n := nat_of_ascii c in
  if (65 <=? n)%nat && (n <=? 90)%nat then ascii_of_nat (n + 32) else c.

Fixpoint toLowerCase (s : string) : string :=
  match s with
  | EmptyString => EmptyString
  | String c rest => String (lower c) (toLowerCase rest)
  end.

End Str.

(** ** The service ([src/taigaService.js]) *)

Module Service.

(** [API_ENDPOINTS] and [ERROR_MESSAGES] of [constants.js]: the entries the
    modelled methods use. *)
Record Endpoints : Type := {
  ISSUES : string;
  USER_STORIES : string;
  TASKS : string;
  EPICS : string;
  WIKI : string;
  ISSUE_ATTACHMENTS : string;
  USERSTORY_ATTACHMENTS : string;
  TASK_ATTACHMENTS : string
}.

Record ErrorMessages : Type := {
  FAILED_TO_GET_ISSUE : string;
  FAILED_TO_UPDATE_WIKI : string
}.

(** A part of a multipart body ([form-data]). *)
Inductive part : Type :=
| Field (value : JsVal)
| FileField (content : list Byte.byte) (filename : JsVal).

(** A request handed to the authenticated client. *)
Inductive request : Type :=
| GET (url : string)
| PATCH (url : string) (body : JsVal)
| POST (url : string) (formData : list (string * part)).

(** What the methods are given by their environment: the authentication
    module ([taigaAuth.js]), the HTTP client it creates, and the platform
    (numbers to strings, [Buffer], [fs], [path], [os], [process]).  [R] is
    the state of the remote side. *)
Record Host (R : Type) : Type := {
  NumberToString : Z -> string;
  auth_client : R -> outcome unit * R;
  auth_token : R -> outcome JsVal * R;
  transport : request -> R -> outcome JsVal * R;
  Buffer_from_base64 : string -> outcome (list Byte.byte);
  Buffer_to_base64 : list Byte.byte -> string;
  existsSync : string -> bool;
  readFileSync : string -> outcome (list Byte.byte);
  path_isAbsolute : string -> bool;
  path_resolve : list string -> string;
  path_basename : string -> string;
  process_cwd : string;
  env_HOME : option string;
  env_USERPROFILE : option string;
  os_homedir : string
}.
Arguments NumberToString {R} _ _.
Arguments auth_client {R} _ _.
Arguments auth_token {R} _ _.
Arguments transport {R} _ _ _.
Arguments Buffer_from_base64 {R} _ _.
Arguments Buffer_to_base64 {R} _ _.
Arguments existsSync {R} _ _.
Arguments readFileSync {R} _ _.
Arguments path_isAbsolute {R} _ _.
Arguments path_resolve {R} _ _.
Arguments path_basename {R} _ _.
Arguments process_cwd {R} _.
Arguments env_HOME {R} _.
Arguments env_USERPROFILE {R} _.
Arguments os_homedir {R} _.

(** The world of a method call: the remote side, the requests sent through
    the client with their outcomes, oldest first, and the console (the
    arguments of each [console.error]). *)
Record world (R : Type) : Type := World {
  remote : R;
  wire : list (request * outcome JsVal);
  console : list (list JsVal)
}.
Arguments World {R} _ _ _.
Arguments remote {R} _.
Arguments wire {R} _.
Arguments console {R} _.

Section Methods.
Context {R : Type}.
Variable API_ENDPOINTS : Endpoints.
Variable ERROR_MESSAGES : ErrorMessages.
Variable host : Host R.

#[local] Abbreviation ToStr := (ToString (NumberToString host)).

(** [await createAuthenticatedClient()] and [await getAuthToken()] *)
Definition createAuthenticatedClient : M (world R) unit :=
  fun w =>
    let (o, r) := auth_client host (remote w) in
    (o, World r (wire w) (console w)).

Definition getAuthToken : M (world R) JsVal :=
  fun w =>
    let (o, r) := auth_token host (remote w) in
    (o, World r (wire w) (console w)).

(** [await client.get(url)], [await client.patch(url, body)],
    [await client.post(url, formData, ...)] *)
Definition send (q : request) : M (world R) JsVal :=
  fun w =>
    let (o, r) := transport host q (remote w) in
    (o, World r (wire w ++ [(q, o)]) (console w)).

Definition console_error (args : list JsVal) : M (world R) unit :=
  fun w => (Ok tt, World (remote w) (wire w) (console w ++ [args])).

(** [`${endpoint}/${id}`] *)
Definition item_url (endpoint id : JsVal) : string :=
  ToStr endpoint +:+ "/" +:+ ToStr id.

(** [v.toString()] *)
Definition toString_of (v : JsVal) : outcome string :=
  if is_nullish v then Throw (TypeError "toString") else Ok (ToStr v).

(** The [catch] blocks that log the message and throw a fixed error. *)
Definition log_and_throw {A} (label : string) (msg : string) (error : JsVal)
  : M (world R) A :=
  let! message := lift (get error "message") in
  console_error [JStr label; message];;;
  throw (mkError msg).

(** *** Issues, epics, wiki pages *)

Definition getIssue (issueId : JsVal) : M (world R) JsVal :=
  try_catch
    (createAuthenticatedClient;;;
     let url := item_url (JStr (ISSUES API_ENDPOINTS)) issueId in
     let! response := send (GET url) in
     lift (get response "data"))
    (log_and_throw ("Failed to get issue " +:+ ToStr issueId +:+ ":")
       (FAILED_TO_GET_ISSUE ERROR_MESSAGES)).

Definition updateIssue (issueId : JsVal) (updateData : gmap string JsVal)
  : M (world R) JsVal :=
  try_catch
    (createAuthenticatedClient;;;
     let! currentIssue := getIssue issueId in
     let! version := lift (get currentIssue "version") in
     let dataWithVersion := JObj (<["version" := version]> updateData) in
     let! response :=
       send (PATCH (item_url (JStr (ISSUES API_ENDPOINTS)) issueId) dataWithVersion) in
     lift (get response "data"))
    (log_and_throw "Failed to update issue:" "Failed to update issue in Taiga").

Definition getEpic (epicId : JsVal) : M (world R) JsVal :=
  try_catch
    (createAuthenticatedClient;;;
     let! response := send (GET (item_url (JStr (EPICS API_ENDPOINTS)) epicId)) in
     lift (get response "data"))
    (log_and_throw "Failed to get epic:" "Failed to get epic details from Taiga").

Definition updateEpic (epicId : JsVal) (updateData : gmap string JsVal)
  : M (world R) JsVal :=
  try_catch
    (createAuthenticatedClient;;;
     let! currentEpic := getEpic epicId in
     let! version := lift (get currentEpic "version") in
     let dataWithVersion := JObj (<["version" := version]> updateData) in
     let! response :=
       send (PATCH (item_url (JStr (EPICS API_ENDPOINTS)) epicId) dataWithVersion) in
     lift (get response "data"))
    (log_and_throw "Failed to update epic:" "Failed to update epic in Taiga").

Definition linkStoryToEpic (userStoryId epicId : JsVal) : M (world R) JsVal :=
  try_catch
    (createAuthenticatedClient;;;
     let url := item_url (JStr (USER_STORIES API_ENDPOINTS)) userStoryId in
     let! currentStory := send (GET url) in
     let! data := lift (get currentStory "data") in
     let! version := lift (get data "version") in
     let updateData := JObj (<["version" := version]> {[ "epic" := epicId ]}) in
     let! response := send (PATCH url updateData) in
     lift (get response "data"))
    (log_and_throw "Failed to link story to epic:" "Failed to link user story to epic").

Definition unlinkStoryFromEpic (userStoryId : JsVal) : M (world R) JsVal :=
  try_catch
    (createAuthenticatedClient;;;
     let url := item_url (JStr (USER_STORIES API_ENDPOINTS)) userStoryId in
     let! currentStory := send (GET url) in
     let! data := lift (get currentStory "data") in
     let! version := lift (get data "version") in
     let updateData := JObj (<["version" := version]> {[ "epic" := JNull ]}) in
     let! response := send (PATCH url updateData) in
     lift (get response "data"))
    (log_and_throw "Failed to unlink story from epic:"
       "Failed to unlink user story from epic").

Definition updateWikiPage (wikiPageId : JsVal) (updateData : gmap string JsVal)
  : M (world R) JsVal :=
  try_catch
    (createAuthenticatedClient;;;
     let url := item_url (JStr (WIKI API_ENDPOINTS)) wikiPageId in
     let! currentWiki := send (GET url) in
     let! data := lift (get currentWiki "data") in
     let! version := lift (get data "version") in
     let dataWithVersion := JObj (<["version" := version]> updateData) in
     let! response := send (PATCH url dataWithVersion) in
     lift (get response "data"))
    (log_and_throw "Failed to update wiki page:" (FAILED_TO_UPDATE_WIKI ERROR_MESSAGES)).

(** *** Items and comments *)

(** [endpoints[itemType] || API_ENDPOINTS.ISSUES], for item types that are
    not names of [Object.prototype]. *)
Definition getItemEndpoint (itemType : JsVal) : JsVal :=
  let endpoints : gmap string JsVal :=
    <["issue" := JStr (ISSUES API_ENDPOINTS)]>
      (<["user_story" := JStr (USER_STORIES API_ENDPOINTS)]>
         {[ "task" := JStr (TASKS API_ENDPOINTS) ]}) in
  or_else (default JUndefined (endpoints !! ToStr itemType))
    (JStr (ISSUES API_ENDPOINTS)).

Definition getAttachmentEndpoint (itemType : JsVal) : JsVal :=
  let endpoints : gmap string JsVal :=
    <["issue" := JStr (ISSUE_ATTACHMENTS API_ENDPOINTS)]>
      (<["user_story" := JStr (USERSTORY_ATTACHMENTS API_ENDPOINTS)]>
         {[ "task" := JStr (TASK_ATTACHMENTS API_ENDPOINTS) ]}) in
  or_else (default JUndefined (endpoints !! ToStr itemType))
    (JStr (ISSUE_ATTACHMENTS API_ENDPOINTS)).

(** [error.response?.status] *)
Definition response_status (error : JsVal) : outcome JsVal :=
  let? response := get error "response" in
  Ok (get_opt response "status").

Definition getItemVersion (itemType itemId : JsVal) : M (world R) JsVal :=
  try_catch
    (createAuthenticatedClient;;;
     let endpoint := getItemEndpoint itemType in
     let! response := send (GET (item_url endpoint itemId)) in
     let! data := lift (get response "data") in
     let! version := lift (get data "version") in
     if negb (typeof_number version) then ret (JNum 1)
     else ret version)
    (fun error =>
       let! status := lift (response_status error) in
       if strict_eq_num status 404 then
         throw (mkError (ToStr itemType +:+ " #" +:+ ToStr itemId +:+ " not found"))
       else if strict_eq_num status 403 then
         throw (mkError ("Permission denied accessing " +:+ ToStr itemType
                         +:+ " #" +:+ ToStr itemId))
       else
         let! message := lift (get error "message") in
         throw (mkError ("Failed to get " +:+ ToStr itemType +:+ " version: "
                         +:+ ToStr message))).

Definition addComment (itemType itemId commentData : JsVal) : M (world R) JsVal :=
  try_catch
    (createAuthenticatedClient;;;
     let! currentVersion := getItemVersion itemType itemId in
     let endpoint := getItemEndpoint itemType in
     let! comment := lift (get commentData "comment") in
     let updateData :=
       JObj (<["comment" := comment]> {[ "version" := currentVersion ]}) in
     let! response := send (PATCH (item_url endpoint itemId) updateData) in
     lift (get response "data"))
    (fun error =>
       let! status := lift (response_status error) in
       if strict_eq_num status 400 then
         let errorMsg :=
           if truthy (get_opt (get_opt (get_opt error "response") "data") "version")
           then "Version parameter is invalid. The item may have been modified by another user."
           else "Bad request. Please check the comment data format." in
         throw (mkError ("Failed to add comment to Taiga: " +:+ errorMsg))
       else if strict_eq_num status 403 then
         throw (mkError
           "Failed to add comment to Taiga: Permission denied. Check your access rights.")
       else if strict_eq_num status 404 then
         throw (mkError ("Failed to add comment to Taiga: " +:+ ToStr itemType
                         +:+ " #" +:+ ToStr itemId +:+ " not found."))
       else
         let! message := lift (get error "message") in
         throw (mkError ("Failed to add comment to Taiga: " +:+ ToStr message))).

Definition getItemData (itemType itemId : JsVal) : M (world R) JsVal :=
  createAuthenticatedClient;;;
  let endpoint := getItemEndpoint itemType in
  let! response := send (GET (item_url endpoint itemId)) in
  lift (get response "data").

(** *** Attachments *)

(** [message.includes(needle)] on the value of [error.message] *)
Definition includes_of (message : JsVal) (needle : string) : outcome bool :=
  match message with
  | JStr text => Ok (Str.includes needle text)
  | JArr elems =>
      Ok (existsb (fun x => match x with JStr t => String.eqb t needle | _ => false end)
            elems)
  | JUndefined | JNull => Throw (TypeError "includes")
  | JBool _ | JNum _ | JObj _ => Throw (mkError "error.message.includes is not a function")
  end.

(** [fileData.includes(',') ? fileData.split(',')[1] : fileData] *)
Definition base64Data_of (fileData : string) : JsVal :=
  if Str.includes "," fileData
  then default JUndefined (JStr <$> (Str.split "," fileData !! 1%nat))
  else JStr fileData.

(** [Buffer.from(base64Data, 'base64')] *)
Definition Buffer_from (base64Data : JsVal) : outcome (list Byte.byte) :=
  match base64Data with
  | JStr text => Buffer_from_base64 host text
  | _ => Throw (mkError "The first argument must be of type string")
  end.

(** The inner [try] block: from the file data to the file buffer. *)
Definition decode_fileData (fileData : string) : M (world R) (list Byte.byte) :=
  try_catch
    (lift (Buffer_from (base64Data_of fileData)))
    (fun error =>
       let! message := lift (get error "message") in
       throw (mkError ("Invalid base64 data: " +:+ ToStr message))).

(** The best-effort lookup of the owning project. *)
Definition project_field (itemType itemId : JsVal) : M (world R) (list (string * part)) :=
  try_catch
    (let! itemData := getItemData itemType itemId in
     if truthy itemData then
       let! project := lift (get itemData "project") in
       if truthy project then
         let! text := lift (toString_of project) in
         ret [("project", Field (JStr text))]
       else ret []
     else ret [])
    (fun _ => ret []).

(** The outer [catch] block of the upload. *)
Definition upload_failed (error : JsVal) : M (world R) JsVal :=
  let! message := lift (get error "message") in
  let! invalid := lift (includes_of message "Invalid base64") in
  if invalid then
    throw (mkError ("Invalid file data format: " +:+ ToStr message))
  else
    let! callback := lift (includes_of message "cb is not a function") in
    if callback then
      console_error
        [JStr "Callback error detected - this might be a form-data compatibility issue"];;;
      throw (mkError "Upload failed due to form-data callback issue")
    else
      let! status := lift (response_status error) in
      if strict_eq_num status 413 then
        throw (mkError "File too large for upload")
      else if strict_eq_num status 401 then
        throw (mkError "Authentication failed - please check credentials")
      else if strict_eq_num status 404 then
        throw (mkError "Upload endpoint not found - check item ID and type")
      else
        throw (mkError ("Failed to upload attachment to Taiga: " +:+ ToStr message)).

Definition uploadAttachment
    (itemType itemId fileData fileName mimeType description : JsVal)
  : M (world R) JsVal :=
  try_catch
    (createAuthenticatedClient;;;
     let! token := getAuthToken in
     let endpoint := getAttachmentEndpoint itemType in
     if negb (truthy fileData) || negb (typeof_string fileData) then
       throw (mkError "Invalid file data: fileData must be a base64 encoded string")
     else if negb (truthy fileName) || negb (typeof_string fileName) then
       throw (mkError "Invalid file name: fileName is required")
     else
       let! fileBuffer := decode_fileData (ToStr fileData) in
       let! object_id := lift (toString_of itemId) in
       let formData :=
         [("object_id", Field (JStr object_id));
          ("attached_file", FileField fileBuffer fileName)]
         ++ (if truthy description then [("description", Field description)] else []) in
       let! project := project_field itemType itemId in
       let! response := send (POST (ToStr endpoint) (formData ++ project)) in
       lift (get response "data"))
    upload_failed.

(** [fileName.toLowerCase().split('.').pop()], then the table, for
    extensions that are not names of [Object.prototype]. *)
Definition detectMimeType (fileName : string) : string :=
  let ext := default EmptyString (last (Str.split "." (Str.toLowerCase fileName))) in
  let mimeTypes : gmap string string :=
    list_to_map
      [("jpg", "image/jpeg"); ("jpeg", "image/jpeg"); ("png", "image/png");
       ("gif", "image/gif"); ("pdf", "application/pdf"); ("txt", "text/plain");
       ("doc", "application/msword");
       ("docx", "application/vnd.openxmlformats-officedocument.wordprocessingml.document");
       ("xls", "application/vnd.ms-excel");
       ("xlsx", "application/vnd.openxmlformats-officedocument.spreadsheetml.sheet");
       ("zip", "application/zip"); ("mp4", "video/mp4"); ("mp3", "audio/mpeg")] in
  default "application/octet-stream" (mimeTypes !! ext).

(** [process.env.HOME || process.env.USERPROFILE || os.homedir()] *)
Definition homeDir : string :=
  let env (v : option string) : JsVal := default JUndefined (JStr <$> v) in
  ToStr (or_else (env (env_HOME host))
           (or_else (env (env_USERPROFILE host)) (JStr (os_homedir host)))).

(** The four places a relative path is looked for, in order. *)
Definition possiblePaths (filePath : string) : list string :=
  [path_resolve host [process_cwd host; filePath];
   path_resolve host [homeDir; filePath];
   path_resolve host [homeDir; "Desktop"; filePath];
   path_resolve host [homeDir; "Downloads"; filePath]].

(** The [for] loop over the candidates: the paths handed to
    [fs.existsSync], and the first one that exists. *)
Fixpoint probe (paths : list string) : list string * option string :=
  match paths with
  | [] => ([], None)
  | tryPath :: rest =>
      if existsSync host tryPath then ([tryPath], Some tryPath)
      else let (tried, found) := probe rest in (tryPath :: tried, found)
  end.

(** The resolution of [filePath]: the paths probed and [absolutePath] when
    [fileExists]. *)
Definition resolve_filePath (filePath : string) : list string * option string :=
  if path_isAbsolute host filePath then
    ([filePath], if existsSync host filePath then Some filePath else None)
  else probe (possiblePaths filePath).

Definition searchedPaths (filePath : string) : list string :=
  if path_isAbsolute host filePath then [filePath] else possiblePaths filePath.

Fixpoint join (sep : string) (parts : list string) : string :=
  match parts with
  | [] => EmptyString
  | [x] => x
  | x :: rest => x +:+ sep +:+ join sep rest
  end.

(** From the resolved path on: read, encode, name, delegate. *)
Definition upload_resolved (itemType itemId : JsVal) (absolutePath : string)
    (description : JsVal) : M (world R) JsVal :=
  let! fileBuffer := lift (readFileSync host absolutePath) in
  let fileData := Buffer_to_base64 host fileBuffer in
  let fileName := path_basename host absolutePath in
  let mimeType := detectMimeType fileName in
  uploadAttachment itemType itemId (JStr fileData) (JStr fileName) (JStr mimeType)
    description.

(** The [catch] block of the path-based upload. *)
Definition from_path_failed (error : JsVal) : M (world R) JsVal :=
  let! message := lift (get error "message") in
  throw (mkError ("Failed to upload attachment from path: " +:+ ToStr message)).

Definition uploadAttachmentFromPath (itemType itemId filePath description : JsVal)
  : M (world R) JsVal :=
  try_catch
    (if negb (truthy filePath) || negb (typeof_string filePath) then
       throw (mkError ("Invalid file path: " +:+ ToStr filePath))
     else
       match (resolve_filePath (ToStr filePath)).2 with
       | None =>
           throw (mkError ("File not found. Searched paths:" +:+ String "010" EmptyString
                           +:+ join (String "010" EmptyString)
                                 (searchedPaths (ToStr filePath))))
       | Some absolutePath => upload_resolved itemType itemId absolutePath description
       end)
    from_path_failed.

End Methods.

(** A value the validations of the upload let through. *)
Definition non_empty_string (v : JsVal) : bool :=
  match v with
  | JStr (String _ _) => true
  | _ => false
  end.

(** A data-URI header followed by the payload. *)
Definition data_uri (mime payload : string) : string :=
  "data:" +:+ mime +:+ ";base64," +:+ payload.

(** *** The shape of a version-guarded update on the wire *)

Section Protocol.
Context {R : Type}.

(** The version as the update methods take it from the response of the
    fresh read: [response.data.version]. *)
Definition raw_version (response : JsVal) : outcome JsVal :=
  let? data := get response "data" in
  get data "version".

(** The version as [getItemVersion] takes it: a value that is not a number
    is replaced by 1. *)
Definition item_version (response : JsVal) : outcome JsVal :=
  let? version := raw_version response in
  Ok (if negb (typeof_number version) then JNum 1 else version).

(** What a guarded update puts on the wire: nothing; or the read alone
    (it failed, or no version could be taken from it, or the fields could
    not be assembled); or the read followed at once by the write to the
    same URL, whose body is built from the version just observed. *)
Inductive guarded_exchange (url : string) (observed : JsVal -> outcome JsVal)
    (build : JsVal -> gmap string JsVal) : list (request * outcome JsVal) -> Prop :=
| no_request : guarded_exchange url observed build []
| read_only o : guarded_exchange url observed build [(GET url, o)]
| read_then_write response version fields o :
    observed response = Ok version ->
    fields = build version ->
    guarded_exchange url observed build
      [(GET url, Ok response); (PATCH url (JObj fields), o)].

Definition version_guarded (op : M (world R) JsVal) (url : string)
    (observed : JsVal -> outcome JsVal) (build : JsVal -> gmap string JsVal) : Prop :=
  forall w, exists sent,
    wire (op w).2 = wire w ++ sent /\ guarded_exchange url observed build sent.

(** The clients a method asks for before it reads: one, or two in a row
    (the method's own and the one of the method it calls for the read).
    [once host w r]: asked for in the world [w], the client is obtained and
    the remote side is left in [r]. *)
Definition once (host : Host R) (w : world R) (r : R) : Prop :=
  auth_client host (remote w) = (Ok tt, r).

Definition twice (host : Host R) (w : world R) (r : R) : Prop :=
  exists r1, auth_client host (remote w) = (Ok tt, r1) /\ auth_client host r1 = (Ok tt, r).

(** The run of [op] from [w] goes through to the write, where [r] is the
    remote side as the read finds it: when the read answers [response], from
    which [version] is observed, the run sends exactly the read and then the
    write built from [version], whatever the write is answered; it leaves
    the remote side as the write left it, and returns the body of an answer
    to the write. *)
Definition goes_through (host : Host R) (op : M (world R) JsVal) (url : string)
    (observed : JsVal -> outcome JsVal) (build : JsVal -> gmap string JsVal)
    (w : world R) (r : R) : Prop :=
  forall response r1 version,
    transport host (GET url) r = (Ok response, r1) ->
    observed response = Ok version ->
    let write := PATCH url (JObj (build version)) in
    let (o, r2) := transport host write r1 in
    wire (op w).2 = wire w ++ [(GET url, Ok response); (write, o)] /\
    remote (op w).2 = r2 /\
    forall answer, o = Ok answer -> is_nullish answer = false ->
      (op w).1 = Ok (get_opt answer "data").

(** The update carries the version it reads: whatever happens, what it
    sends is a guarded exchange; once it has its clients ([clients]) it goes
    through to the write; and the body of the write, built from the
    observed version, has that version as its [version]. *)
Definition carries_read_version (host : Host R) (op : M (world R) JsVal)
    (clients : world R -> R -> Prop) (url : string)
    (observed : JsVal -> outcome JsVal) : Prop :=
  exists build,
    version_guarded op url observed build /\
    (forall w r, clients w r -> goes_through host op url observed build w r) /\
    forall version, build version !! "version" = Some version.
End Protocol.

End Service.

(** ** Worked examples *)

Module Examples.
Import Pagination.

Definition id_item (n : Z) : JsVal := JObj {[ "id" := JNum n ]}.

Definition page_of (params : JsVal) : JsVal := get_opt params "page".

(** The mock of the pagination test: 7 items served as 3 + 3 + 1. *)
Definition three_pages (params : JsVal) (callCount : Z) : outcome JsVal * Z :=
  let page := or_else (page_of params) (JNum 1) in
  (Ok (if strict_eq_num page 1 then
         envelope [id_item 1; id_item 2; id_item 3] (JStr "page2")
       else if strict_eq_num page 2 then
         envelope [id_item 4; id_item 5; id_item 6] (JStr "page3")
       else if strict_eq_num page 3 then
         envelope [id_item 7] JNull
       else JUndefined),
   callCount + 1).

(** The runaway mock of the test: one item per page, always a [next]. *)
Definition always_next (params : JsVal) (callCount : Z) : outcome JsVal * Z :=
  (Ok (envelope [id_item (callCount + 1)] (JStr "always_has_next")), callCount + 1).

(** An endpoint whose [next] is present, not [null], but the empty string. *)
Definition blank_next (params : JsVal) (callCount : Z) : outcome JsVal * Z :=
  (Ok (envelope [id_item (callCount + 1)] (JStr "")), callCount + 1).

(** Two pages, the first with an empty-string [next], the second with
    [next: null]. *)
Definition two_pages_blank_next (params : JsVal) (callCount : Z) : outcome JsVal * Z :=
  (Ok (if strict_eq_num (page_of params) 1 then
         envelope [id_item 1; id_item 2; id_item 3] (JStr "")
       else envelope [id_item 4] JNull),
   callCount + 1).

(** Two good pages, then a failure. *)
Definition fails_on_third (params : JsVal) (callCount : Z) : outcome JsVal * Z :=
  (if strict_eq_num (page_of params) 1 then
     Ok (envelope [id_item 1; id_item 2] (JStr "page2"))
   else if strict_eq_num (page_of params) 2 then
     Ok (envelope [id_item 3; id_item 4] (JStr "page3"))
   else Throw (mkError "Network Error"),
   callCount + 1).

(** A function that fails at once. *)
Definition always_fails (params : JsVal) (callCount : Z) : outcome JsVal * Z :=
  (Throw (mkError "Network Error"), callCount + 1).

(** A function that rejects with no reason at all ([Promise.reject()]). *)
Definition rejects_with_undefined (params : JsVal) (callCount : Z) : outcome JsVal * Z :=
  (Throw JUndefined, callCount + 1).

(** A body that is neither an array nor an envelope, with a stray
    [results] string. *)
Definition stray_results (params : JsVal) (callCount : Z) : outcome JsVal * Z :=
  (Ok (JObj {[ "data" := JObj {[ "results" := JStr "abc" ]} ]}), callCount + 1).

Definition w0 : Pagination.world Z := Pagination.World 0 [] [].

(** The pages these functions serve. *)
Definition three_pages_front : list page :=
  [([id_item 1; id_item 2; id_item 3], JStr "page2");
   ([id_item 4; id_item 5; id_item 6], JStr "page3")].

Definition three_pages_last : page := ([id_item 7], JNull).

Definition blank_pages : list page :=
  [([id_item 1; id_item 2; id_item 3], JStr ""); ([id_item 4], JNull)].

Definition two_good_pages : list page :=
  [([id_item 1; id_item 2], JStr "page2"); ([id_item 3; id_item 4], JStr "page3")].

Definition responses_of (pages : list page) : list JsVal :=
  (fun pg : page => envelope pg.1 pg.2) <$> pages.

(** *** A small remote service *)

Import Service.

Definition endpoints : Endpoints := {|
  ISSUES := "/issues";
  USER_STORIES := "/userstories";
  TASKS := "/tasks";
  EPICS := "/epics";
  WIKI := "/wiki";
  ISSUE_ATTACHMENTS := "/issues/attachments";
  USERSTORY_ATTACHMENTS := "/userstories/attachments";
  TASK_ATTACHMENTS := "/tasks/attachments"
|}.

Definition error_messages : ErrorMessages := {|
  FAILED_TO_GET_ISSUE := "Failed to get issue details from Taiga";
  FAILED_TO_UPDATE_WIKI := "Failed to update wiki page in Taiga"
|}.

(** The remote side holds one resource; its state is the version of that
    resource.  A write is accepted when it carries the current version. *)
Definition conflict : JsVal :=
  JObj (<["message" := JStr "Request failed with status code 400"]>
          {[ "response" := JObj {[ "status" := JNum 400 ]} ]}).

Definition server_answers (resource : Z -> JsVal) (q : request) (version : Z)
  : outcome JsVal * Z :=
  match q with
  | GET _ => (Ok (JObj {[ "data" := resource version ]}), version)
  | PATCH _ body =>
      if strict_eq_num (get_opt body "version") version
      then (Ok (JObj {[ "data" := body ]}), version + 1)
      else (Throw conflict, version)
  | POST _ _ => (Ok (JObj {[ "data" := JObj {[ "id" := JNum 1 ]} ]}), version)
  end.

(** A resource that reports its version, and one that does not. *)
Definition versioned (version : Z) : JsVal :=
  JObj (<["id" := JNum 7]> {[ "version" := JNum version ]}).

Definition versionless (version : Z) : JsVal := JObj {[ "id" := JNum 7 ]}.

(** A resource that reports its version as text. *)
Definition text_versioned (version : Z) : JsVal :=
  JObj (<["id" := JNum 7]> {[ "version" := JStr (pretty version) ]}).

(** A stand-in for the base64 decoder: like the platform's it never fails;
    it skips what is outside the base64 alphabet and hands the rest back as
    bytes. *)
Definition is_base64_char (c : ascii) : bool :=
  let n := nat_of_ascii c in
  ((65 <=? n) && (n <=? 90) || (97 <=? n) && (n <=? 122) || (48 <=? n) && (n <=? 57)
   || (n =? 43) || (n =? 47) || (n =? 61))%nat.

Definition mock_decode (text : string) : outcome (list Byte.byte) :=
  Ok (String.list_byte_of_string
        (String.string_of_list_ascii
           (List.filter is_base64_char (String.list_ascii_of_string text)))).

(** A stand-in for the file system: a single file on the Desktop. *)
Definition desktop_file : string := "/home/ada/Desktop/report.pdf".

Definition mock_host (resource : Z -> JsVal) (logged_in : bool) : Host Z := {|
  NumberToString := pretty;
  auth_client := fun r =>
    (if logged_in then Ok tt else Throw (mkError "Authentication failed"), r);
  auth_token := fun r => (Ok (JStr "token"), r);
  transport := server_answers resource;
  Buffer_from_base64 := mock_decode;
  Buffer_to_base64 := String.string_of_list_byte;
  existsSync := fun p => String.eqb p desktop_file;
  readFileSync := fun p =>
    if String.eqb p desktop_file then Ok (String.list_byte_of_string "JVBERi0x")
    else Throw (mkError "ENOENT: no such file or directory");
  path_isAbsolute := String.prefix "/";
  path_resolve := fun segments =>
    (fix go (l : list string) : string :=
       match l with
       | [] => EmptyString
       | [x] => x
       | x :: rest => x +:+ "/" +:+ go rest
       end) segments;
  path_basename := fun p => default EmptyString (last (Str.split "/" p));
  process_cwd := "/srv/app";
  env_HOME := Some "/home/ada";
  env_USERPROFILE := None;
  os_homedir := "/home/ada"
|}.

Definition s0 (version : Z) : Service.world Z := Service.World version [] [].

End Examples.

(** ** What a traversal is made of *)

Module Traversal.
Import Pagination.

(** What one call of the page-fetching function adds to the result: the
    items [read_page] takes from its response, spliced in as
    [allItems.concat(items)] does; nothing when the call is rejected or the
    response cannot be read. *)
Definition contribution (o : outcome JsVal) : list JsVal :=
  match o with
  | Ok response =>
      match read_page response with
      | Ok (items, _) => concat [] items
      | Throw _ => []
      end
  | Throw _ => []
  end.

End Traversal.

(** ** What callers of the service see of a failure *)

Module Failure.

(** An error thrown with a fixed message, or the [TypeError] of reading
    [message] from a rejection without a reason. *)
Definition opaque_failure (msg : string) (e : JsVal) : Prop :=
  e = mkError msg \/ e = TypeError "message".

(** A rejection of the HTTP client: an error with a message, and a response
    when the server answered. *)
Definition http_error (message : string) (status : Z) (data : JsVal) : JsVal :=
  JObj (<["message" := JStr message]>
          {[ "response" := JObj (<["status" := JNum status]> {[ "data" := data ]}) ]}).

End Failure.


(** ** Where a request goes *)

Module Requests.
Import Service.

Definition url_of (q : request) : string :=
  match q with
  | GET url | PATCH url _ | POST url _ => url
  end.

(** The names an object literal answers to through [Object.prototype]: a
    lookup [table[name]] by one of them finds the inherited member, not an
    entry of the table. *)
Definition inherited_names : list string :=
  ["constructor"; "hasOwnProperty"; "isPrototypeOf"; "propertyIsEnumerable";
   "toLocaleString"; "toString"; "valueOf"; "__defineGetter__"; "__defineSetter__";
   "__lookupGetter__"; "__lookupSetter__"; "__proto__"].

End Requests.

(** ** The listing methods ([src/taigaService.js]) *)

Module Listing.
Import Service.

(** The entries of [API_ENDPOINTS] and [ERROR_MESSAGES] ([constants.js])
    that only the listing methods use. *)
Record Constants : Type := {
  PROJECTS : string;
  MILESTONES : string;
  USERS_ME : string;
  FAILED_TO_LIST_PROJECTS : string;
  FAILED_TO_LIST_USER_STORIES : string;
  FAILED_TO_LIST_ISSUES : string;
  FAILED_TO_LIST_MILESTONES : string;
  FAILED_TO_LIST_WIKI : string
}.

(** [client.get(url)] and [client.get(url, { params })] *)
Inductive query : Type :=
| Get (url : string) (params : option (gmap string JsVal)).

(** The world of a listing: the remote side, the queries sent with their
    outcomes, oldest first, and the two streams of the console
    ([console.warn] of the engine, [console.error] of the methods). *)
Record world (R : Type) : Type := World {
  remote : R;
  sent : list (query * outcome JsVal);
  warnings : list string;
  errors : list (list JsVal)
}.
Arguments World {R} _ _ _ _.
Arguments remote {R} _.
Arguments sent {R} _.
Arguments warnings {R} _.
Arguments errors {R} _.

Section Methods.
Context {R : Type}.
Variable API_ENDPOINTS : Endpoints.
Variable CONSTANTS : Constants.
Variable host : Host R.
(** The [get] method of the client [createAuthenticatedClient] resolves to. *)
Variable client_get : query -> R -> outcome JsVal * R.

#[local] Abbreviation ToStr := (ToString (NumberToString host)).

Definition createAuthenticatedClient : M (world R) unit :=
  fun w =>
    let (o, r) := auth_client host (remote w) in
    (o, World r (sent w) (warnings w) (errors w)).

Definition send (q : query) : M (world R) JsVal :=
  fun w =>
    let (o, r) := client_get q (remote w) in
    (o, World r (sent w ++ [(q, o)]) (warnings w) (errors w)).

Definition console_error (args : list JsVal) : M (world R) unit :=
  fun w => (Ok tt, World (remote w) (sent w) (warnings w) (errors w ++ [args])).

(** [{ ...fixed, ...params }]: the entries of [params] win. *)
Definition spread (fixed : gmap string JsVal) (params : JsVal) : gmap string JsVal :=
  match params with
  | JObj props => props ∪ fixed
  | _ => fixed
  end.

(** The [fetchPage] closures: the state they close over is the remote side
    and the queries sent so far. *)
Definition fetchPage (url : string) (fixed : gmap string JsVal) (params : JsVal)
    (s : R * list (query * outcome JsVal)) : outcome JsVal * (R * list (query * outcome JsVal)) :=
  let q := Get url (Some (spread fixed params)) in
  let (o, r) := client_get q s.1 in
  (o, (r, s.2 ++ [(q, o)])).

(** [await fetchAllPaginated(fetchPage)], with the defaults of the engine:
    no initial parameters, at most 100 pages. *)
Definition paginate (url : string) (fixed : gmap string JsVal) : M (world R) (list JsVal) :=
  fun w =>
    let (o, pw) :=
      Pagination.fetchAllPaginated (NumberToString host) (fetchPage url fixed) ∅ 100
        (Pagination.World (remote w, sent w) [] (warnings w)) in
    (o, World (Pagination.remote pw).1 (Pagination.remote pw).2 (Pagination.console pw)
          (errors w)).

(** The [catch] blocks: [console.error(label, error.message)], then a fixed
    error. *)
Definition log_and_throw {A} (label msg : string) (error : JsVal) : M (world R) A :=
  let! message := lift (get error "message") in
  console_error [JStr label; message];;;
  throw (mkError msg).

(** The body the project listings share. *)
Definition listing (url : string) (fixed : gmap string JsVal) (label msg : string)
  : M (world R) JsVal :=
  try_catch
    (createAuthenticatedClient;;;
     let! all := paginate url fixed in
     ret (JArr all))
    (log_and_throw label msg).

Definition listUserStories (projectId : JsVal) : M (world R) JsVal :=
  listing (USER_STORIES API_ENDPOINTS) {[ "project" := projectId ]}
    ("Failed to list user stories for project " +:+ ToStr projectId +:+ ":")
    (FAILED_TO_LIST_USER_STORIES CONSTANTS).

Definition listIssues (projectId : JsVal) : M (world R) JsVal :=
  listing (ISSUES API_ENDPOINTS) {[ "project" := projectId ]}
    ("Failed to list issues for project " +:+ ToStr projectId +:+ ":")
    (FAILED_TO_LIST_ISSUES CONSTANTS).

Definition listMilestones (projectId : JsVal) : M (world R) JsVal :=
  listing (MILESTONES CONSTANTS) {[ "project" := projectId ]}
    ("Failed to list milestones for project " +:+ ToStr projectId +:+ ":")
    (FAILED_TO_LIST_MILESTONES CONSTANTS).

Definition getIssuesByMilestone (projectId milestoneId : JsVal) : M (world R) JsVal :=
  listing (ISSUES API_ENDPOINTS)
    (<["project" := projectId]> {[ "milestone" := milestoneId ]})
    ("Failed to get issues for milestone " +:+ ToStr milestoneId +:+ ":")
    "Failed to get issues by milestone from Taiga".

Definition listEpics (projectId : JsVal) : M (world R) JsVal :=
  listing (EPICS API_ENDPOINTS) {[ "project" := projectId ]}
    "Failed to list epics:" "Failed to list epics from Taiga".

Definition listWikiPages (projectId : JsVal) : M (world R) JsVal :=
  listing (WIKI API_ENDPOINTS) {[ "project" := projectId ]}
    "Failed to list wiki pages:" (FAILED_TO_LIST_WIKI CONSTANTS).

Definition getCurrentUser : M (world R) JsVal :=
  try_catch
    (createAuthenticatedClient;;;
     let! response := send (Get (USERS_ME CONSTANTS) None) in
     lift (get response "data"))
    (log_and_throw "Failed to get current user:" "Failed to get user information from Taiga").

Definition listProjects : M (world R) JsVal :=
  try_catch
    (createAuthenticatedClient;;;
     let! currentUser := getCurrentUser in
     let! userId := lift (get currentUser "id") in
     let! all := paginate (PROJECTS CONSTANTS) {[ "member" := userId ]} in
     ret (JArr all))
    (log_and_throw "Failed to list projects:" (FAILED_TO_LIST_PROJECTS CONSTANTS)).

End Methods.

(** The query of page [p]: the fixed parameters and the page number. *)
Definition page_query (url : string) (fixed : gmap string JsVal) (p : Z) : query :=
  Get url (Some (<["page" := JNum p]> fixed)).

(** [op] asks for pages 1, 2, ..., n of [url] under the parameters [fixed],
    for some n up to 100, and sends nothing else. *)
Definition asks_for_pages {R} (op : M (world R) JsVal) (url : string)
    (fixed : gmap string JsVal) : Prop :=
  forall w, exists n : nat,
    (n <= 100)%nat /\
    (sent (op w).2).*1 = (sent w).*1 ++ (page_query url fixed <$> seqZ 1 (Z.of_nat n)).

(** [op] fails only for want of a client: with a client it returns an
    array and writes no error; without one it throws [msg], having written
    [label] and the reason to the console and sent nothing. *)
Definition fails_only_without_client {R} (host : Host R) (op : M (world R) JsVal)
    (label msg : string) : Prop :=
  forall w,
    (forall r, auth_client host (remote w) = (Ok tt, r) ->
       exists items, (op w).1 = Ok (JArr items) /\ errors (op w).2 = errors w) /\
    (forall e r, auth_client host (remote w) = (Throw e, r) -> is_nullish e = false ->
       op w = (Throw (mkError msg),
               World r (sent w) (warnings w)
                 (errors w ++ [[JStr label; get_opt e "message"]]))).

End Listing.

(** ** More worked examples *)

Module Cases.
Import Pagination Service Failure Examples.

(** A listing served in one piece, as a bare array. *)
Definition bare_array (params : JsVal) (callCount : Z) : outcome JsVal * Z :=
  (Ok (JObj {[ "data" := JArr [id_item 1; id_item 2] ]}), callCount + 1).

(** A page of items, then a page without items that still announces a next
    page. *)
Definition empty_second_page (params : JsVal) (callCount : Z) : outcome JsVal * Z :=
  (Ok (if strict_eq_num (page_of params) 1 then
         envelope [id_item 1; id_item 2] (JStr "page2")
       else envelope [] (JStr "page3")),
   callCount + 1).

Definition first_two_of_many : list page :=
  [([id_item 1], JStr "always_has_next"); ([id_item 2], JStr "always_has_next")].

Definition page_then_nothing : list page := [([id_item 1; id_item 2], JStr "page2")].

(** *** Variations of the small remote service *)

Definition with_transport (h : Host Z) (t : request -> Z -> outcome JsVal * Z) : Host Z := {|
  NumberToString := NumberToString h;
  auth_client := auth_client h;
  auth_token := auth_token h;
  transport := t;
  Buffer_from_base64 := Buffer_from_base64 h;
  Buffer_to_base64 := Buffer_to_base64 h;
  existsSync := existsSync h;
  readFileSync := readFileSync h;
  path_isAbsolute := path_isAbsolute h;
  path_resolve := path_resolve h;
  path_basename := path_basename h;
  process_cwd := process_cwd h;
  env_HOME := env_HOME h;
  env_USERPROFILE := env_USERPROFILE h;
  os_homedir := os_homedir h
|}.

Definition with_files (h : Host Z) (read : string -> outcome (list Byte.byte)) : Host Z := {|
  NumberToString := NumberToString h;
  auth_client := auth_client h;
  auth_token := auth_token h;
  transport := transport h;
  Buffer_from_base64 := Buffer_from_base64 h;
  Buffer_to_base64 := Buffer_to_base64 h;
  existsSync := existsSync h;
  readFileSync := read;
  path_isAbsolute := path_isAbsolute h;
  path_resolve := path_resolve h;
  path_basename := path_basename h;
  process_cwd := process_cwd h;
  env_HOME := env_HOME h;
  env_USERPROFILE := env_USERPROFILE h;
  os_homedir := os_homedir h
|}.

Definition refusal (status : Z) : JsVal :=
  http_error ("Request failed with status code " +:+ pretty status) status JNull.

(** A server that knows no item. *)
Definition unknown_item : Host Z :=
  with_transport (mock_host versioned true) (fun _ r => (Throw (refusal 404), r)).

(** A server that answers reads and refuses every write. *)
Definition read_only : Host Z :=
  with_transport (mock_host versioned true)
    (fun q r =>
       match q with
       | GET _ => server_answers versioned q r
       | _ => (Throw (refusal 403), r)
       end).

(** A server that finds every upload too large. *)
Definition small_quota : Host Z :=
  with_transport (mock_host versioned true)
    (fun q r =>
       match q with
       | POST _ _ => (Throw (refusal 413), r)
       | _ => server_answers versioned q r
       end).

(** An item that belongs to project 3. *)
Definition in_project (version : Z) : JsVal :=
  JObj (<["id" := JNum 7]> (<["version" := JNum version]> {[ "project" := JNum 3 ]})).

(** The file on the Desktop is empty. *)
Definition empty_file : Host Z :=
  with_files (mock_host versioned true) (fun _ => Ok []).

(** *** A remote side for the listings *)

Import Listing.

Definition constants : Constants := {|
  PROJECTS := "/projects";
  MILESTONES := "/milestones";
  USERS_ME := "/users/me";
  FAILED_TO_LIST_PROJECTS := "Failed to list projects from Taiga";
  FAILED_TO_LIST_USER_STORIES := "Failed to list user stories from Taiga";
  FAILED_TO_LIST_ISSUES := "Failed to list issues from Taiga";
  FAILED_TO_LIST_MILESTONES := "Failed to list milestones from Taiga";
  FAILED_TO_LIST_WIKI := "Failed to list wiki pages from Taiga"
|}.

(** User 42; every collection has two pages of one item each. *)
Definition two_page_client (q : query) (r : Z) : outcome JsVal * Z :=
  match q with
  | Get _ None => (Ok (JObj {[ "data" := JObj {[ "id" := JNum 42 ]} ]}), r)
  | Get _ (Some params) =>
      let page := default JUndefined (params !! "page") in
      (if strict_eq_num page 1 then Ok (envelope [id_item 1] (JStr "page2"))
       else if strict_eq_num page 2 then Ok (envelope [id_item 2] JNull)
       else Throw (refusal 404),
       r + 1)
  end.

Definition offline (q : query) (r : Z) : outcome JsVal * Z :=
  (Throw (mkError "Network Error"), r).

Definition l0 : Listing.world Z := Listing.World 0 [] [] [].

End Cases.
(** ** Facts about values *)

Lemma get_non_nullish v key :
  is_nullish v = false -> exists x, get v key = Ok x.
Proof. destruct v; simpl; intros H; try discriminate; eauto. Qed.

Lemma truthy_non_nullish v : truthy v = true -> is_nullish v = false.
Proof. by destruct v. Qed.

Lemma get_of_non_nullish e key :
  is_nullish e = false -> get e key = Ok (get_opt e key).
Proof. unfold get_opt. by destruct e. Qed.

Lemma get_throws_error v key e : get v key = Throw e -> is_nullish e = false.
Proof. destruct v; simpl; intros H; inversion H; reflexivity. Qed.

Lemma get_message_error e :
  is_nullish e = false -> exists message, get e "message" = Ok message.
Proof. destruct e; simpl; intros H; try discriminate; eauto. Qed.

Lemma concat_array a elems : concat a (JArr elems) = a ++ elems.
Proof. reflexivity. Qed.

(** ** Facts about the pagination engine *)

Section PaginationFacts.
Import Pagination.
Context {St : Type}.
Variable NumberToString : Z -> string.
Variable fetchFunction : JsVal -> St -> outcome JsVal * St.
Variable initialParams : gmap string JsVal.
Variable maxPages : Z.

#[local] Abbreviation iteration := (iteration NumberToString fetchFunction initialParams).
#[local] Abbreviation while_loop :=
  (while_loop NumberToString fetchFunction initialParams maxPages).
#[local] Abbreviation fetchAllPaginated :=
  (fetchAllPaginated NumberToString fetchFunction initialParams maxPages).
#[local] Abbreviation serves := (serves fetchFunction initialParams).
#[local] Abbreviation page_params := (page_params initialParams).
#[local] Abbreviation on_error := (on_error (St:=St) NumberToString).

Lemma read_page_envelope response results next :
  is_envelope response results next ->
  read_page response = Ok (JArr results, truthy next).
Proof.
  intros (fields & body & -> & Hdata & Hres & Hnext).
  unfold read_page; simpl. rewrite Hdata; simpl. rewrite Hres; simpl.
  by rewrite Hnext.
Qed.

Lemma read_page_throws_error response e :
  read_page response = Throw e -> is_nullish e = false.
Proof.
  unfold read_page. destruct (get response "data") as [data|e0] eqn:Hd; simpl.
  - destruct (truthy data) eqn:Ht; [|discriminate].
    destruct (isArray data); [discriminate|].
    destruct (get_non_nullish data "results" (truthy_non_nullish _ Ht)) as [r ->].
    destruct (get_non_nullish data "next" (truthy_non_nullish _ Ht)) as [n ->].
    simpl. by destruct (truthy r && isArray r).
  - intros [= <-]. by eapply get_throws_error.
Qed.

(** The page is an envelope and announces a successor: one more turn. *)
Lemma iteration_continue allItems currentPage w response s' pg :
  fetchFunction (page_params currentPage) (remote w) = (Ok response, s') ->
  is_envelope response pg.1 pg.2 ->
  continuing pg ->
  iteration allItems currentPage w =
    (Ok (Continue (allItems ++ pg.1) (currentPage + 1) true),
     World s' (calls w ++ [page_params currentPage]) (console w)).
Proof.
  intros Hf Henv [Hne Hnext]. unfold iteration, call_fetch. rewrite Hf.
  rewrite (read_page_envelope _ _ _ Henv), Hnext; simpl.
  destruct pg.1 as [|x l]; [done|]. reflexivity.
Qed.

(** The page is an envelope and announces nothing: the last turn. *)
Lemma iteration_last allItems currentPage w response s' results next :
  fetchFunction (page_params currentPage) (remote w) = (Ok response, s') ->
  is_envelope response results next ->
  truthy next = false ->
  iteration allItems currentPage w =
    (Ok (Break (allItems ++ results) currentPage),
     World s' (calls w ++ [page_params currentPage]) (console w)).
Proof.
  intros Hf Henv Hnext. unfold iteration, call_fetch. rewrite Hf.
  by rewrite (read_page_envelope _ _ _ Henv), Hnext.
Qed.

(** The call rejects with an error value: the [catch] block warns and
    leaves the loop with the accumulator untouched. *)
Lemma iteration_rejected allItems currentPage w e s' :
  fetchFunction (page_params currentPage) (remote w) = (Throw e, s') ->
  is_nullish e = false ->
  exists warning,
    iteration allItems currentPage w =
      (Ok (Break allItems currentPage),
       World s' (calls w ++ [page_params currentPage]) (console w ++ [warning])).
Proof.
  intros Hf He. unfold iteration, call_fetch. rewrite Hf.
  destruct (get_message_error e He) as [message Hm].
  unfold on_error, bind, lift, console_warn, ret. rewrite Hm. simpl. eauto.
Qed.

(** A turn of the loop that goes on has moved to the next page. *)
Lemma iteration_advances allItems currentPage w allItems' currentPage' hasMore' w' :
  iteration allItems currentPage w = (Ok (Continue allItems' currentPage' hasMore'), w') ->
  currentPage' = currentPage + 1 /\ hasMore' = true.
Proof.
  unfold iteration, on_error, bind, lift, console_warn, ret.
  destruct (call_fetch _ _ _) as [[response|e] w1].
  - destruct (read_page response) as [[items hasMore]|e]; simpl.
    + destruct hasMore; simpl; [|discriminate].
      destruct (get items "length") as [len|e]; simpl.
      * destruct (strict_eq_num len 0); [discriminate|]. by intros [= _ <- <- _].
      * destruct (get e "message"); discriminate.
    + destruct (get e "message"); discriminate.
  - destruct (get e "message"); discriminate.
Qed.

(** The fuel [fetchAllPaginated] hands to the loop is never exhausted:
    any amount from the number of pages left on gives the same run. *)
Lemma while_loop_fuel fuel1 fuel2 allItems currentPage hasMore w :
  (Z.to_nat (maxPages + 1 - currentPage) <= fuel1)%nat ->
  (Z.to_nat (maxPages + 1 - currentPage) <= fuel2)%nat ->
  while_loop fuel1 allItems currentPage hasMore w =
  while_loop fuel2 allItems currentPage hasMore w.
Proof.
  revert fuel2 allItems currentPage hasMore w.
  induction fuel1 as [|fuel1 IH]; intros fuel2 allItems currentPage hasMore w H1 H2.
  - destruct fuel2; simpl; [done|].
    destruct (hasMore && (currentPage <=? maxPages)) eqn:Hc; [|done].
    apply andb_true_iff in Hc as [_ Hc]. apply Z.leb_le in Hc. lia.
  - simpl. destruct (hasMore && (currentPage <=? maxPages)) eqn:Hc.
    + apply andb_true_iff in Hc as [Hh Hc]. apply Z.leb_le in Hc.
      destruct fuel2 as [|fuel2]; [lia|]. simpl. rewrite Hh; simpl.
      assert (Hle : (currentPage <=? maxPages) = true) by by apply Z.leb_le.
      rewrite Hle. unfold bind.
      destruct (iteration allItems currentPage w) as [[[a p|a p h]|e] w1] eqn:Hit; try done.
      apply iteration_advances in Hit as [-> ->]. apply IH; lia.
    + destruct fuel2; simpl; by rewrite Hc.
Qed.

(** In particular the loop of [fetchAllPaginated] does not depend on its
    fuel: more fuel than [maxPages] changes nothing. *)
Lemma fetchAllPaginated_fuel_enough fuel w :
  (Z.to_nat maxPages <= fuel)%nat ->
  while_loop fuel [] 1 true w = while_loop (Z.to_nat maxPages) [] 1 true w.
Proof. intros Hfuel. apply while_loop_fuel; lia. Qed.

(** A run of continuing pages: the loop consumes them one call each. *)
Lemma while_loop_pages responses pages fuel allItems currentPage w s' :
  envelopes responses pages ->
  Forall continuing pages ->
  serves currentPage (remote w) (Ok <$> responses) s' ->
  currentPage + Z.of_nat (length pages) - 1 <= maxPages ->
  while_loop (length pages + fuel) allItems currentPage true w =
  while_loop fuel (allItems ++ all_items pages)
    (currentPage + Z.of_nat (length pages)) true
    (World s' (calls w ++ (page_params <$> seqZ currentPage (Z.of_nat (length pages))))
       (console w)).
Proof.
  intros Henv. revert fuel allItems currentPage w.
  induction Henv as [|response pg responses pages Hpg Henv IH];
    intros fuel allItems currentPage w Hcont Hserves Hmax.
  - inversion Hserves; subst. destruct w; simpl.
    rewrite Z.add_0_r. unfold all_items; simpl. by rewrite !app_nil_r.
  - inversion Hserves as [|? ? ? s1 ? ? Hf Hrest]; subst.
    apply Forall_cons in Hcont as [Hc Hcont].
    simpl length in *. cbn [Nat.add]. cbn [Pagination.while_loop].
    assert (Hle : (currentPage <=? maxPages) = true) by (apply Z.leb_le; lia).
    rewrite Hle; simpl. unfold bind at 1.
    rewrite (iteration_continue _ _ _ _ _ _ Hf Hpg Hc).
    rewrite IH; simpl.
 2: exact Hcont.
 2: exact Hrest.
 2: lia.

    replace (currentPage + 1 + Z.of_nat (length pages))
      with (currentPage + Z.of_nat (S (length pages))) by lia.
    replace (Z.of_nat (S (length pages))) with (Z.succ (Z.of_nat (length pages))) by lia.
    rewrite (seqZ_cons currentPage) by lia. rewrite Z.pred_succ, fmap_cons.
    unfold all_items; simpl. rewrite <- !app_assoc. simpl.
    replace (Z.succ currentPage) with (currentPage + 1) by lia. reflexivity.
Qed.

Lemma serves_app p s rs1 rs2 s' :
  serves p s (rs1 ++ rs2) s' <->
  exists s1, serves p s rs1 s1 /\ serves (p + Z.of_nat (length rs1)) s1 rs2 s'.
Proof.
  revert p s. induction rs1 as [|r rs1 IH]; intros p s; cbn [app].
  - simpl. rewrite Z.add_0_r. split.
    + intros H. exists s. split; [constructor|done].
    + intros (s1 & H1 & H2). by inversion H1; subst.
  - assert (Hlen : p + Z.of_nat (length (r :: rs1)) = p + 1 + Z.of_nat (length rs1))
      by (simpl length; lia).
    rewrite Hlen. split.
    + intros H. inversion H as [|? ? ? s1 ? ? Hf Hrest]; subst.
      apply IH in Hrest as (s2 & H1 & H2). exists s2. split; [|done].
      by econstructor.
    + intros (s2 & H1 & H2). inversion H1 as [|? ? ? s1 ? ? Hf Hrest]; subst.
      econstructor; [done|]. apply IH. by exists s2.
Qed.

(** The loop after a run of continuing pages, with the fuel of
    [fetchAllPaginated]. *)
Lemma while_loop_prefix responses pages w s1 :
  envelopes responses pages ->
  Forall continuing pages ->
  serves 1 (remote w) (Ok <$> responses) s1 ->
  Z.of_nat (length pages) <= maxPages ->
  while_loop (Z.to_nat maxPages) [] 1 true w =
  while_loop (Z.to_nat maxPages - length pages) (all_items pages)
    (1 + Z.of_nat (length pages)) true
    (World s1 (calls w ++ (page_params <$> seqZ 1 (Z.of_nat (length pages))))
       (console w)).
Proof.
  intros Henv Hcont Hserves Hmax.
  replace (Z.to_nat maxPages)
    with (length pages + (Z.to_nat maxPages - length pages))%nat at 1 by lia.
  rewrite (while_loop_pages _ _ _ _ _ _ _ Henv Hcont Hserves) by lia.
  reflexivity.
Qed.

(** One more turn is allowed: the loop unfolds. *)
Lemma while_loop_turn fuel allItems currentPage w :
  currentPage <= maxPages ->
  while_loop (S fuel) allItems currentPage true w =
  (let! st := iteration allItems currentPage in
   match st with
   | Break allItems' currentPage' => ret (allItems', currentPage')
   | Continue allItems' currentPage' hasMore' =>
       while_loop fuel allItems' currentPage' hasMore'
   end) w.
Proof.
  intros Hle. simpl.
  by replace (currentPage <=? maxPages) with true by (symmetry; by apply Z.leb_le).
Qed.

Lemma while_loop_stop fuel allItems currentPage w :
  maxPages < currentPage ->
  while_loop fuel allItems currentPage true w = (Ok (allItems, currentPage), w).
Proof.
  intros Hlt.
  assert (Hc : (currentPage <=? maxPages) = false) by by apply Z.leb_gt.
  destruct fuel; simpl; by rewrite Hc.
Qed.

(** Every turn of the loop completes when rejections carry errors. *)
Lemma iteration_total allItems currentPage w :
  rejects_with_errors fetchFunction ->
  exists st w', iteration allItems currentPage w = (Ok st, w').
Proof.
  intros Hrej.
  assert (Herr : forall a p e w0, is_nullish e = false ->
            exists st w', on_error a p e w0 = (Ok st, w')).
  { intros a p e w0 He. destruct (get_message_error e He) as [m Hm].
    unfold on_error, bind, lift, console_warn, ret. rewrite Hm. simpl. eauto. }
  unfold iteration, call_fetch.
  destruct (fetchFunction _ _) as [[response|e] s1] eqn:Hf.
  - destruct (read_page response) as [[items hasMore]|e] eqn:Hr.
    + destruct (negb hasMore); [eauto|].
      destruct (get items "length") as [len|e] eqn:Hl.
      * destruct (strict_eq_num len 0); eauto.
      * apply Herr. by eapply get_throws_error.
    + apply Herr. by eapply read_page_throws_error.
  - apply Herr. by eapply Hrej.
Qed.

Lemma while_loop_total fuel allItems currentPage hasMore w :
  rejects_with_errors fetchFunction ->
  exists r w', while_loop fuel allItems currentPage hasMore w = (Ok r, w').
Proof.
  intros Hrej. revert allItems currentPage hasMore w.
  induction fuel as [|fuel IH]; intros allItems currentPage hasMore w; simpl.
  - destruct (hasMore && _); unfold ret; eauto.
  - destruct (hasMore && _); [|unfold ret; eauto]. unfold bind.
    destruct (iteration_total allItems currentPage w Hrej) as (st & w' & ->).
    destruct st; [unfold ret; eauto|apply IH].
Qed.

Lemma fetchAllPaginated_unfold w allItems currentPage w' :
  while_loop (Z.to_nat maxPages) [] 1 true w = (Ok (allItems, currentPage), w') ->
  fetchAllPaginated w =
    (Ok allItems,
     if currentPage >? maxPages
     then World (remote w') (calls w')
            (console w' ++ ["Reached maximum page limit (" +:+ NumberToString maxPages
                            +:+ "). Results may be incomplete."])
     else w').
Proof.
  intros H. unfold Pagination.fetchAllPaginated, bind. rewrite H.
  destruct (currentPage >? maxPages); [reflexivity|].
  unfold ret. reflexivity.
Qed.

Lemma or_else_stray r :
  isArray r = false ->
  concat [] (or_else r (JArr [])) = if truthy r then [r] else [].
Proof.
  unfold or_else. destruct r as [| |b|n|s|l|o]; simpl; try done.
  - by destruct b.
  - by destruct (n =? 0).
  - by destruct s.
Qed.

(** An unrecognized response ends the traversal on the spot. *)
Lemma read_page_unrecognized response :
  spec_classify response = Unrecognized ->
  (exists e, read_page response = Throw e) \/
  (exists items, read_page response = Ok (items, false) /\
                 concat [] items = stray response).
Proof.
  unfold spec_classify, read_page, stray, get_opt.
  destruct (get response "data") as [data|e] eqn:Hd; simpl; [|eauto].
  destruct (truthy data) eqn:Ht.
  - destruct (get_non_nullish data "results" (truthy_non_nullish _ Ht)) as [r Hr].
    rewrite Hr. simpl. intros H. right.
    assert (Hd' : isArray data = false) by (by destruct data).
    assert (Hr' : isArray r = false) by (destruct data; try done; by destruct r).
    rewrite Hd', Hr', andb_false_r.
    eexists; split; [reflexivity|]. by apply or_else_stray.
  - intros H. right.
    assert (Hres : isArray response = false) by (by destruct response).
    rewrite Hres. exists (JArr []). split; [reflexivity|].
    assert (Hs : match get data "results" with Ok x => x | Throw _ => JUndefined end
                 = JUndefined).
    { destruct data as [| |b|n|s|l|o]; simpl in *; done. }
    by rewrite Hs.
Qed.

Lemma runaway_serves n p s :
  runaway fetchFunction (fun next => truthy next = true) ->
  exists responses pages s',
    serves p s (Ok <$> responses) s' /\ envelopes responses pages /\
    Forall continuing pages /\ length pages = n.
Proof.
  intros Hrun. revert p s. induction n as [|n IH]; intros p s.
  - exists [], [], s. repeat split; constructor.
  - destruct (Hrun (page_params p) s) as (response & results & next & s1 & Hf & He & Hne & Hn).
    destruct (IH (p + 1) s1) as (responses & pages & s' & Hs & Henv & Hc & Hlen).
    exists (response :: responses), ((results, next) :: pages), s'.
    repeat split.
    + by econstructor.
    + by constructor.
    + by constructor.
    + simpl. by rewrite Hlen.
Qed.

(** The traversal after a run of continuing pages is rejected. *)
Lemma rejected_after_prefix responses pages e w s' :
  envelopes responses pages ->
  Forall continuing pages ->
  is_nullish e = false ->
  serves 1 (remote w) ((Ok <$> responses) ++ [Throw e]) s' ->
  Z.of_nat (length pages) + 1 <= maxPages ->
  exists warning,
    fetchAllPaginated w =
      (Ok (all_items pages),
       World s' (calls w ++ (page_params <$> seqZ 1 (Z.of_nat (length pages) + 1)))
         (console w ++ [warning])).
Proof.
  intros Henv Hcont He Hserves Hmax.
  apply serves_app in Hserves as (s1 & Hpre & Hlast).
  rewrite length_fmap, (Forall2_length _ _ _ Henv) in Hlast.
  inversion Hlast as [|? ? ? s2 ? ? Hf Hnil]; subst. inversion Hnil; subst.
  pose proof (while_loop_prefix _ _ _ _ Henv Hcont Hpre ltac:(lia)) as Hloop.
  destruct (Z.to_nat maxPages - length pages)%nat as [|fuel] eqn:Hfuel; [lia|].
  rewrite while_loop_turn in Hloop by lia. unfold bind in Hloop.
  match type of Hloop with
  | context [Pagination.iteration _ _ _ _ _ ?w1] =>
      destruct (iteration_rejected (all_items pages) _ w1 e s' Hf He) as [warning Hit]
  end.
  rewrite Hit in Hloop. unfold ret in Hloop. simpl in Hloop.
  exists warning. rewrite (fetchAllPaginated_unfold _ _ _ _ Hloop).
  replace (1 + Z.of_nat (length pages) >? maxPages) with false by (symmetry; lia).
  rewrite seqZ_app, fmap_app by lia. simpl. by rewrite <- app_assoc.
Qed.

(** C2 (amended): when the function serves k >= 1 envelope pages, each
    with a non-empty [results] array, a truthy [next] on every page but the
    last and [next: null] on the last, and [maxPages >= k], the engine
    returns the items of all the pages in page order and in-page order and
    calls the function exactly k times, with page numbers 1 to k. *)
Theorem paginated_listing_complete responses pages last w s' :
  envelopes responses (pages ++ [last]) ->
  Forall continuing pages ->
  last.1 <> [] ->
  last.2 = JNull ->
  serves 1 (remote w) (Ok <$> responses) s' ->
  Z.of_nat (length (pages ++ [last])) <= maxPages ->
  fetchAllPaginated w =
    (Ok (all_items (pages ++ [last])),
     World s'
       (calls w ++ (page_params <$> seqZ 1 (Z.of_nat (length (pages ++ [last])))))
       (console w)).
Proof.
  intros Henv Hcont _ Hnull Hserves Hmax.
  apply Forall2_app_inv_r in Henv as (front & back & Hfront & Hback & ->).
  destruct back as [|rl back]; [by inversion Hback|].
  apply Forall2_cons_1 in Hback as [Hlast Hnil].
  apply Forall2_nil_inv_r in Hnil as ->.
  rewrite fmap_app in Hserves.
  apply serves_app in Hserves as (s1 & Hpre & Hend).
  rewrite length_fmap, (Forall2_length _ _ _ Hfront) in Hend.
  inversion Hend as [|? ? ? s2 ? ? Hf Hnil']; subst. inversion Hnil'; subst.
  rewrite length_app in Hmax. simpl in Hmax.
  pose proof (while_loop_prefix _ _ _ _ Hfront Hcont Hpre ltac:(lia)) as Hloop.
  destruct (Z.to_nat maxPages - length pages)%nat as [|fuel] eqn:Hfuel; [lia|].
  rewrite while_loop_turn in Hloop by lia. unfold bind in Hloop.
  match type of Hloop with
  | context [Pagination.iteration _ _ _ _ _ ?w1] =>
      rewrite (iteration_last (all_items pages) _ w1 _ _ _ _ Hf Hlast) in Hloop
        by (by rewrite Hnull)
  end.
  unfold ret in Hloop. simpl in Hloop.
  rewrite (fetchAllPaginated_unfold _ _ _ _ Hloop).
  replace (1 + Z.of_nat (length pages) >? maxPages) with false by (symmetry; lia).
  rewrite length_app, Nat2Z.inj_add, seqZ_app, fmap_app by lia.
  unfold all_items. rewrite map_app, join_app. simpl.
  by rewrite <- app_assoc, app_nil_r.
Qed.

(** C5: when the function serves j - 1 continuing pages and rejects call
    j with an error, the engine returns the items of calls 1 to j - 1 and
    does not reject. *)
Theorem failure_returns_partial responses pages e w s' :
  envelopes responses pages ->
  Forall continuing pages ->
  pages <> [] ->
  is_nullish e = false ->
  serves 1 (remote w) ((Ok <$> responses) ++ [Throw e]) s' ->
  Z.of_nat (length pages) + 1 <= maxPages ->
  (fetchAllPaginated w).1 = Ok (all_items pages) /\
  remote (fetchAllPaginated w).2 = s' /\
  calls (fetchAllPaginated w).2 =
    calls w ++ (page_params <$> seqZ 1 (Z.of_nat (length pages) + 1)).
Proof.
  intros Henv Hcont _ He Hserves Hmax.
  destruct (rejected_after_prefix _ _ _ _ _ Henv Hcont He Hserves Hmax) as [warning ->].
  done.
Qed.

(** C6 (amended): against an endpoint that answers every call with an
    envelope of non-empty [results] and a truthy [next], the engine with a
    maximum of M pages calls the function exactly M times, for pages 1 to
    M, and returns the items of those M pages. *)
Theorem runaway_capped w :
  0 <= maxPages ->
  runaway fetchFunction (fun next => truthy next = true) ->
  exists responses pages s',
    serves 1 (remote w) (Ok <$> responses) s' /\
    envelopes responses pages /\
    length pages = Z.to_nat maxPages /\
    (fetchAllPaginated w).1 = Ok (all_items pages) /\
    remote (fetchAllPaginated w).2 = s' /\
    calls (fetchAllPaginated w).2 = calls w ++ (page_params <$> seqZ 1 maxPages).
Proof.
  intros Hpos Hrun.
  destruct (runaway_serves (Z.to_nat maxPages) 1 (remote w) Hrun)
    as (responses & pages & s' & Hs & Henv & Hc & Hlen).
  exists responses, pages, s'. split; [done|]. split; [done|]. split; [done|].
  pose proof (while_loop_prefix _ _ _ _ Henv Hc Hs ltac:(lia)) as Hloop.
  rewrite (while_loop_stop _ (all_items pages)) in Hloop by lia.
  rewrite (fetchAllPaginated_unfold _ _ _ _ Hloop).
  replace (1 + Z.of_nat (length pages) >? maxPages) with true by (symmetry; lia).
  simpl. rewrite Hlen, Z2Nat.id by lia. done.
Qed.

(** C9 (amended): when every rejection of the function carries an error
    value, the engine always returns an array; a rejection of call 1 gives
    the empty array; a response of unrecognized shape ends the traversal
    with that call and adds no item, except a truthy [data.results] that is
    not an array, which is added as one item. *)
Theorem fetchAllPaginated_total w :
  rejects_with_errors fetchFunction ->
  (exists items w', fetchAllPaginated w = (Ok items, w')) /\
  (forall e s',
      1 <= maxPages ->
      fetchFunction (page_params 1) (remote w) = (Throw e, s') ->
      (fetchAllPaginated w).1 = Ok [] /\
      calls (fetchAllPaginated w).2 = calls w ++ [page_params 1]) /\
  (forall fuel allItems currentPage w1 response s',
      currentPage <= maxPages ->
      fetchFunction (page_params currentPage) (remote w1) = (Ok response, s') ->
      spec_classify response = Unrecognized ->
      exists w2,
        while_loop (S fuel) allItems currentPage true w1 =
          (Ok (allItems ++ stray response, currentPage), w2) /\
        remote w2 = s' /\ calls w2 = calls w1 ++ [page_params currentPage]).
Proof.
  intros Hrej. split; [|split].
  - destruct (while_loop_total (Z.to_nat maxPages) [] 1 true w Hrej)
      as ([allItems currentPage] & w' & Hloop).
    rewrite (fetchAllPaginated_unfold _ _ _ _ Hloop). eauto.
  - intros e s' Hmax Hf.
    assert (Hs : serves 1 (remote w) ((Ok <$> []) ++ [Throw e]) s')
      by (econstructor; [exact Hf|constructor]).
    destruct (rejected_after_prefix [] [] e w s' ltac:(constructor) ltac:(constructor)
                (Hrej _ _ _ _ Hf) Hs ltac:(simpl; lia)) as [warning ->].
    done.
  - intros fuel allItems currentPage w1 response s' Hle Hf Hshape.
    rewrite while_loop_turn by done. unfold bind, Pagination.iteration, call_fetch.
    rewrite Hf.
    destruct (read_page_unrecognized response Hshape) as [[e He]|(items & Hr & Hitems)].
    + rewrite He.
      destruct (get_message_error e (read_page_throws_error _ _ He)) as [m Hm].
      unfold Pagination.on_error, bind, lift, console_warn, ret. rewrite Hm. simpl.
      assert (Hst : stray response = []).
      { unfold stray, get_opt. unfold read_page in He.
        destruct (get response "data") as [data|e0]; [|done].
        simpl in He. destruct (truthy data) eqn:Ht; [|done].
        destruct (isArray data); [done|].
        destruct (get_non_nullish data "results" (truthy_non_nullish _ Ht)) as [r Hr].
        destruct (get_non_nullish data "next" (truthy_non_nullish _ Ht)) as [n Hn].
        rewrite Hr, Hn in He. simpl in He. by destruct (truthy r && isArray r). }
      rewrite Hst, app_nil_r. eauto.
    + rewrite Hr. simpl. unfold ret.
      assert (Hc : concat allItems items = allItems ++ stray response).
      { rewrite <- Hitems. by destruct items. }
      rewrite Hc. eauto.
Qed.
End PaginationFacts.

(** ** Facts about the version-guarded updates *)

Section GuardedUpdates.
Import Service.
Context {R : Type}.
Variable API_ENDPOINTS : Endpoints.
Variable ERROR_MESSAGES : ErrorMessages.
Variable host : Host R.

#[local] Abbreviation item_url := (item_url host).

Ltac run :=
  repeat (simpl;
          match goal with
          | |- context [auth_client host ?r] =>
              destruct (auth_client host r) as [[[]|?] ?] eqn:?
          | |- context [auth_token host ?r] =>
              destruct (auth_token host r) as [[?|?] ?] eqn:?
          | |- context [transport host ?q ?r] =>
              destruct (transport host q r) as [[?|?] ?] eqn:?
          | |- context [get ?v ?k] => destruct (get v k) eqn:?
          | |- context [if ?b then _ else _] => destruct b eqn:?
          end).

Ltac exchanged :=
  simpl; rewrite <- ?app_assoc; simpl;
  first
    [ exists []; split; [by rewrite app_nil_r|constructor]
    | eexists [_]; split; [reflexivity|constructor]
    | eexists [_; _]; split; [reflexivity|];
      econstructor; [|reflexivity];
      unfold item_version, raw_version; simpl;
      repeat match goal with H : get _ _ = _ |- _ => rewrite H; simpl end;
      repeat match goal with H : negb (typeof_number _) = _ |- _ => rewrite H; simpl end;
      reflexivity ].

Ltac unfold_methods :=
  unfold updateIssue, getIssue, updateEpic, getEpic, updateWikiPage, linkStoryToEpic,
    unlinkStoryFromEpic, addComment, getItemVersion, response_status, log_and_throw,
    try_catch, bind, obind, lift, ret, throw, send, createAuthenticatedClient,
    console_error.

Lemma updateIssue_exchange issueId updateData :
  version_guarded (updateIssue API_ENDPOINTS ERROR_MESSAGES host issueId updateData)
    (item_url (JStr (ISSUES API_ENDPOINTS)) issueId) raw_version
    (fun version => <["version" := version]> updateData).
Proof. intros w. unfold_methods. run; exchanged. Qed.

Lemma updateEpic_exchange epicId updateData :
  version_guarded (updateEpic API_ENDPOINTS host epicId updateData)
    (item_url (JStr (EPICS API_ENDPOINTS)) epicId) raw_version
    (fun version => <["version" := version]> updateData).
Proof. intros w. unfold_methods. run; exchanged. Qed.

Lemma updateWikiPage_exchange wikiPageId updateData :
  version_guarded (updateWikiPage API_ENDPOINTS ERROR_MESSAGES host wikiPageId updateData)
    (item_url (JStr (WIKI API_ENDPOINTS)) wikiPageId) raw_version
    (fun version => <["version" := version]> updateData).
Proof. intros w. unfold_methods. run; exchanged. Qed.

Lemma linkStoryToEpic_exchange userStoryId epicId :
  version_guarded (linkStoryToEpic API_ENDPOINTS host userStoryId epicId)
    (item_url (JStr (USER_STORIES API_ENDPOINTS)) userStoryId) raw_version
    (fun version => <["version" := version]> {[ "epic" := epicId ]}).
Proof. intros w. unfold_methods. run; exchanged. Qed.

Lemma unlinkStoryFromEpic_exchange userStoryId :
  version_guarded (unlinkStoryFromEpic API_ENDPOINTS host userStoryId)
    (item_url (JStr (USER_STORIES API_ENDPOINTS)) userStoryId) raw_version
    (fun version => <["version" := version]> {[ "epic" := JNull ]}).
Proof. intros w. unfold_methods. run; exchanged. Qed.

Lemma addComment_exchange itemType itemId commentData :
  version_guarded (addComment API_ENDPOINTS host itemType itemId commentData)
    (item_url (getItemEndpoint API_ENDPOINTS host itemType) itemId) item_version
    (fun version =>
       <["comment" := get_opt commentData "comment"]> {[ "version" := version ]}).
Proof.
  intros w. unfold_methods. unfold get_opt.
  generalize (getItemEndpoint API_ENDPOINTS host itemType). intros endpoint.
  run; exchanged.
Qed.

Lemma raw_version_inv response version :
  raw_version response = Ok version ->
  exists data, get response "data" = Ok data /\ get data "version" = Ok version.
Proof.
  unfold raw_version, obind. destruct (get response "data") as [data|]; [|done]. eauto.
Qed.

Lemma item_version_inv response version :
  item_version response = Ok version ->
  exists data raw,
    get response "data" = Ok data /\ get data "version" = Ok raw /\
    version = if negb (typeof_number raw) then JNum 1 else raw.
Proof.
  unfold item_version. destruct (raw_version response) as [raw|] eqn:Hraw; [|done].
  apply raw_version_inv in Hraw as (data & Hd & Hv). simpl. intros [= <-]. eauto.
Qed.

Ltac through :=
  repeat (simpl;
          match goal with
          | H : auth_client host ?r = _ |- context [auth_client host ?r] => rewrite H
          | H : transport host ?q ?r = _ |- context [transport host ?q ?r] => rewrite H
          | H : get ?v ?k = _ |- context [get ?v ?k] => rewrite H
          | |- context [transport host ?q ?r] =>
              destruct (transport host q r) as [[?|?] ?] eqn:?
          | |- context [get ?v ?k] => destruct (get v k) eqn:?
          | |- context [if ?b then _ else _] => destruct b eqn:?
          end).

Ltac answered :=
  simpl; rewrite <- ?app_assoc; simpl;
  split; [reflexivity|]; split; [reflexivity|];
  intros answer [= <-] Hanswer;
  match goal with
  | H : get ?a "data" = _ |- _ =>
      rewrite (get_of_non_nullish a "data" Hanswer) in H; congruence
  end.

Ltac refused :=
  simpl; rewrite <- ?app_assoc; simpl;
  split; [reflexivity|]; split; [reflexivity|];
  intros answer Habsurd; discriminate Habsurd.

Lemma updateIssue_goes_through issueId updateData w r :
  twice host w r ->
  goes_through host (updateIssue API_ENDPOINTS ERROR_MESSAGES host issueId updateData)
    (item_url (JStr (ISSUES API_ENDPOINTS)) issueId) raw_version
    (fun version => <["version" := version]> updateData) w r.
Proof.
  intros (r0 & Hfirst & Hsecond) response r1 version Hget Hobs.
  apply raw_version_inv in Hobs as (data & Hd & Hv).
  unfold_methods. through; first [answered|refused].
Qed.

Lemma updateEpic_goes_through epicId updateData w r :
  twice host w r ->
  goes_through host (updateEpic API_ENDPOINTS host epicId updateData)
    (item_url (JStr (EPICS API_ENDPOINTS)) epicId) raw_version
    (fun version => <["version" := version]> updateData) w r.
Proof.
  intros (r0 & Hfirst & Hsecond) response r1 version Hget Hobs.
  apply raw_version_inv in Hobs as (data & Hd & Hv).
  unfold_methods. through; first [answered|refused].
Qed.

Lemma updateWikiPage_goes_through wikiPageId updateData w r :
  once host w r ->
  goes_through host (updateWikiPage API_ENDPOINTS ERROR_MESSAGES host wikiPageId updateData)
    (item_url (JStr (WIKI API_ENDPOINTS)) wikiPageId) raw_version
    (fun version => <["version" := version]> updateData) w r.
Proof.
  intros Hclient response r1 version Hget Hobs. unfold once in Hclient.
  apply raw_version_inv in Hobs as (data & Hd & Hv).
  unfold_methods. through; first [answered|refused].
Qed.

Lemma linkStoryToEpic_goes_through userStoryId epicId w r :
  once host w r ->
  goes_through host (linkStoryToEpic API_ENDPOINTS host userStoryId epicId)
    (item_url (JStr (USER_STORIES API_ENDPOINTS)) userStoryId) raw_version
    (fun version => <["version" := version]> {[ "epic" := epicId ]}) w r.
Proof.
  intros Hclient response r1 version Hget Hobs. unfold once in Hclient.
  apply raw_version_inv in Hobs as (data & Hd & Hv).
  unfold_methods. through; first [answered|refused].
Qed.

Lemma unlinkStoryFromEpic_goes_through userStoryId w r :
  once host w r ->
  goes_through host (unlinkStoryFromEpic API_ENDPOINTS host userStoryId)
    (item_url (JStr (USER_STORIES API_ENDPOINTS)) userStoryId) raw_version
    (fun version => <["version" := version]> {[ "epic" := JNull ]}) w r.
Proof.
  intros Hclient response r1 version Hget Hobs. unfold once in Hclient.
  apply raw_version_inv in Hobs as (data & Hd & Hv).
  unfold_methods. through; first [answered|refused].
Qed.

Lemma addComment_goes_through itemType itemId commentData w r :
  is_nullish commentData = false ->
  twice host w r ->
  goes_through host (addComment API_ENDPOINTS host itemType itemId commentData)
    (item_url (getItemEndpoint API_ENDPOINTS host itemType) itemId) item_version
    (fun version =>
       <["comment" := get_opt commentData "comment"]> {[ "version" := version ]}) w r.
Proof.
  intros Hc (r0 & Hfirst & Hsecond) response r1 version Hget Hobs.
  apply item_version_inv in Hobs as (data & raw & Hd & Hv & ->).
  pose proof (get_of_non_nullish commentData "comment" Hc) as Hcomment.
  unfold_methods.
  set (endpoint := getItemEndpoint API_ENDPOINTS host itemType) in *.
  clearbody endpoint.
  through; first [answered|refused].
Qed.

Lemma version_guarded_ext (op : M (world R) JsVal) url observed build build' :
  (forall version, build version = build' version) ->
  version_guarded op url observed build ->
  version_guarded op url observed build'.
Proof.
  intros Hext Hop w. destruct (Hop w) as (sent & Hwire & Hsent).
  exists sent. split; [done|].
  destruct Hsent as [|o|response version fields o Hobs ->]; econstructor; eauto.
Qed.

Lemma item_version_spec response version :
  item_version response = Ok version <->
  exists raw, raw_version response = Ok raw /\
              version = if typeof_number raw then raw else JNum 1.
Proof.
  unfold item_version. split.
  - destruct (raw_version response) as [raw|e]; [|done]. simpl. intros [= <-].
    exists raw. split; [done|]. by destruct (typeof_number raw).
  - intros (raw & -> & ->). simpl. by destruct (typeof_number raw).
Qed.

(** C1 (amended): each of the six version-guarded updates sends its
    write, if it sends one, right after a read of the same URL within the
    same call; once it has its clients and the read is answered with a
    version, it does send the write; and the body of the write has a
    [version] field equal to the version observed from that read.  For
    [updateIssue], [updateEpic], [updateWikiPage], [linkStoryToEpic] and
    [unlinkStoryFromEpic] the observed version is [response.data.version]
    as it is; for [addComment] (given comment data) it is that value when it
    is a number and 1 otherwise. *)
Theorem guarded_updates_carry_read_version
    (issueId epicId wikiPageId userStoryId itemType itemId commentData : JsVal)
    (updateData : gmap string JsVal) :
  carries_read_version host
    (updateIssue API_ENDPOINTS ERROR_MESSAGES host issueId updateData) (twice host)
    (item_url (JStr (ISSUES API_ENDPOINTS)) issueId) raw_version /\
  carries_read_version host
    (updateEpic API_ENDPOINTS host epicId updateData) (twice host)
    (item_url (JStr (EPICS API_ENDPOINTS)) epicId) raw_version /\
  carries_read_version host
    (updateWikiPage API_ENDPOINTS ERROR_MESSAGES host wikiPageId updateData) (once host)
    (item_url (JStr (WIKI API_ENDPOINTS)) wikiPageId) raw_version /\
  carries_read_version host
    (linkStoryToEpic API_ENDPOINTS host userStoryId epicId) (once host)
    (item_url (JStr (USER_STORIES API_ENDPOINTS)) userStoryId) raw_version /\
  carries_read_version host
    (unlinkStoryFromEpic API_ENDPOINTS host userStoryId) (once host)
    (item_url (JStr (USER_STORIES API_ENDPOINTS)) userStoryId) raw_version /\
  (is_nullish commentData = false ->
   carries_read_version host
     (addComment API_ENDPOINTS host itemType itemId commentData) (twice host)
     (item_url (getItemEndpoint API_ENDPOINTS host itemType) itemId) item_version) /\
  version_guarded (addComment API_ENDPOINTS host itemType itemId commentData)
    (item_url (getItemEndpoint API_ENDPOINTS host itemType) itemId) item_version
    (fun version =>
       <["comment" := get_opt commentData "comment"]> {[ "version" := version ]}) /\
  (forall response version,
     item_version response = Ok version <->
     exists raw, raw_version response = Ok raw /\
                 version = if typeof_number raw then raw else JNum 1).
Proof.
  split; [|split; [|split; [|split; [|split; [|split; [|split]]]]]].
  - eexists. split; [apply updateIssue_exchange|].
    split; [intros w r; apply updateIssue_goes_through|].
    intros version. apply lookup_insert_eq.
  - eexists. split; [apply updateEpic_exchange|].
    split; [intros w r; apply updateEpic_goes_through|].
    intros version. apply lookup_insert_eq.
  - eexists. split; [apply updateWikiPage_exchange|].
    split; [intros w r; apply updateWikiPage_goes_through|].
    intros version. apply lookup_insert_eq.
  - eexists. split; [apply linkStoryToEpic_exchange|].
    split; [intros w r; apply linkStoryToEpic_goes_through|].
    intros version. apply lookup_insert_eq.
  - eexists. split; [apply unlinkStoryFromEpic_exchange|].
    split; [intros w r; apply unlinkStoryFromEpic_goes_through|].
    intros version. apply lookup_insert_eq.
  - intros Hc. eexists. split; [apply addComment_exchange|].
    split; [intros w r; by apply addComment_goes_through|].
    intros version. cbv beta.
    rewrite lookup_insert_ne by done. apply lookup_singleton_eq.
  - apply addComment_exchange.
  - apply item_version_spec.
Qed.

(** C10: in [updateIssue], [updateEpic] and [updateWikiPage] the body of
    the write is the caller's fields without their own [version], plus the
    version just read: a [version] key supplied by the caller never reaches
    the wire, and every other field is passed on unchanged. *)
Theorem caller_version_overridden (issueId epicId wikiPageId : JsVal)
    (updateData : gmap string JsVal) :
  let build := fun version => <["version" := version]> (delete "version" updateData) in
  version_guarded (updateIssue API_ENDPOINTS ERROR_MESSAGES host issueId updateData)
    (item_url (JStr (ISSUES API_ENDPOINTS)) issueId) raw_version build /\
  version_guarded (updateEpic API_ENDPOINTS host epicId updateData)
    (item_url (JStr (EPICS API_ENDPOINTS)) epicId) raw_version build /\
  version_guarded (updateWikiPage API_ENDPOINTS ERROR_MESSAGES host wikiPageId updateData)
    (item_url (JStr (WIKI API_ENDPOINTS)) wikiPageId) raw_version build /\
  (forall version, build version !! "version" = Some version) /\
  (forall version key, key <> "version" -> build version !! key = updateData !! key).
Proof.
  intros build.
  assert (Hext : forall version, <["version" := version]> updateData = build version)
    by (intros version; unfold build; by rewrite insert_delete_eq).
  repeat split.
  - eapply version_guarded_ext; [exact Hext|apply updateIssue_exchange].
  - eapply version_guarded_ext; [exact Hext|apply updateEpic_exchange].
  - eapply version_guarded_ext; [exact Hext|apply updateWikiPage_exchange].
  - intros version. apply lookup_insert_eq.
  - intros version key Hkey. unfold build.
    rewrite lookup_insert_ne by done. by rewrite lookup_delete_ne.
Qed.

(** C3 (amended): only [addComment], which reads the version through
    [getItemVersion], replaces a version that is absent or not a number by
    1, and then goes on to the write; [updateIssue], [updateEpic],
    [updateWikiPage], [linkStoryToEpic] and [unlinkStoryFromEpic] go on to
    the write as well, with the [version] exactly as read ([undefined] when
    the resource has none). *)
Theorem default_version_for_comments_only
    (issueId epicId wikiPageId userStoryId itemType itemId commentData : JsVal)
    (updateData : gmap string JsVal) :
  (forall response raw,
      raw_version response = Ok raw -> typeof_number raw = false ->
      item_version response = Ok (JNum 1)) /\
  (forall response data,
      get response "data" = Ok (JObj data) -> data !! "version" = None ->
      raw_version response = Ok JUndefined) /\
  (is_nullish commentData = false ->
   forall w r, twice host w r ->
   goes_through host (addComment API_ENDPOINTS host itemType itemId commentData)
     (item_url (getItemEndpoint API_ENDPOINTS host itemType) itemId) item_version
     (fun version =>
        <["comment" := get_opt commentData "comment"]> {[ "version" := version ]}) w r) /\
  (forall w r, twice host w r ->
   goes_through host (updateIssue API_ENDPOINTS ERROR_MESSAGES host issueId updateData)
     (item_url (JStr (ISSUES API_ENDPOINTS)) issueId) raw_version
     (fun version => <["version" := version]> updateData) w r) /\
  (forall w r, twice host w r ->
   goes_through host (updateEpic API_ENDPOINTS host epicId updateData)
     (item_url (JStr (EPICS API_ENDPOINTS)) epicId) raw_version
     (fun version => <["version" := version]> updateData) w r) /\
  (forall w r, once host w r ->
   goes_through host (updateWikiPage API_ENDPOINTS ERROR_MESSAGES host wikiPageId updateData)
     (item_url (JStr (WIKI API_ENDPOINTS)) wikiPageId) raw_version
     (fun version => <["version" := version]> updateData) w r) /\
  (forall w r, once host w r ->
   goes_through host (linkStoryToEpic API_ENDPOINTS host userStoryId epicId)
     (item_url (JStr (USER_STORIES API_ENDPOINTS)) userStoryId) raw_version
     (fun version => <["version" := version]> {[ "epic" := epicId ]}) w r) /\
  (forall w r, once host w r ->
   goes_through host (unlinkStoryFromEpic API_ENDPOINTS host userStoryId)
     (item_url (JStr (USER_STORIES API_ENDPOINTS)) userStoryId) raw_version
     (fun version => <["version" := version]> {[ "epic" := JNull ]}) w r).
Proof.
  split; [|split; [|split; [|split; [|split; [|split; [|split]]]]]].
  - intros response raw Hraw Hnum. unfold item_version. rewrite Hraw. simpl.
    by rewrite Hnum.
  - intros response data Hd Hv. unfold raw_version. rewrite Hd. simpl. by rewrite Hv.
  - intros Hc w r. by apply addComment_goes_through.
  - intros w r. apply updateIssue_goes_through.
  - intros w r. apply updateEpic_goes_through.
  - intros w r. apply updateWikiPage_goes_through.
  - intros w r. apply linkStoryToEpic_goes_through.
  - intros w r. apply unlinkStoryFromEpic_goes_through.
Qed.
End GuardedUpdates.

(** ** Facts about strings *)

Lemma string_app_cons x (a b : string) : String x a +:+ b = String x (a +:+ b).
Proof. reflexivity. Qed.

Lemma string_app_assoc (a b c : string) : (a +:+ b) +:+ c = a +:+ (b +:+ c).
Proof.
  induction a as [|x a IH]; [done|]. rewrite !string_app_cons. by rewrite IH.
Qed.

Lemma free_of_app sep (a b : string) :
  Str.free_of sep (a +:+ b) = Str.free_of sep a && Str.free_of sep b.
Proof.
  induction a as [|x a IH]; [done|]. rewrite string_app_cons. simpl.
  by rewrite IH, andb_assoc.
Qed.

Lemma includes_char sep (s : string) :
  Str.includes (String sep EmptyString) s = negb (Str.free_of sep s).
Proof.
  induction s as [|c s IH]; simpl; [done|].
  rewrite IH. destruct (Ascii.ascii_dec sep c) as [->|Hne].
  - rewrite Ascii.eqb_refl. by destruct s.
  - assert (Hc : Ascii.eqb c sep = false) by (apply Ascii.eqb_neq; congruence).
    by rewrite Hc.
Qed.

Lemma split_free sep (s : string) :
  Str.free_of sep s = true -> Str.split sep s = [s].
Proof.
  induction s as [|c s IH]; simpl; [done|].
  intros [Hc Hs]%andb_true_iff. apply negb_true_iff in Hc. rewrite Hc.
  by rewrite (IH Hs).
Qed.

Lemma split_at_sep sep (a b : string) :
  Str.free_of sep a = true ->
  Str.split sep (a +:+ String sep b) = a :: Str.split sep b.
Proof.
  induction a as [|c a IH].
  - intros _. change (EmptyString +:+ String sep b) with (String sep b). simpl.
    by rewrite Ascii.eqb_refl.
  - rewrite string_app_cons. simpl.
    intros [Hc Ha]%andb_true_iff. apply negb_true_iff in Hc. rewrite Hc.
    by rewrite (IH Ha).
Qed.

(** ** Facts about the attachment pipeline *)

Section Attachments.
Import Service.
Context {R : Type}.
Variable API_ENDPOINTS : Endpoints.
Variable host : Host R.

#[local] Abbreviation ToStr := (ToString (NumberToString host)).
#[local] Abbreviation uploadAttachment := (uploadAttachment API_ENDPOINTS host).

Lemma validation_test v :
  negb (truthy v) || negb (typeof_string v) = negb (non_empty_string v).
Proof. destruct v as [| |[]|n|[]|l|o]; simpl; try done. by destruct (n =? 0). Qed.

Lemma base64Data_plain payload :
  Str.free_of "," payload = true -> base64Data_of payload = JStr payload.
Proof. intros H. unfold base64Data_of. by rewrite includes_char, H. Qed.

Lemma base64Data_data_uri mime payload :
  Str.free_of "," mime = true ->
  Str.free_of "," payload = true ->
  base64Data_of (data_uri mime payload) = JStr payload.
Proof.
  intros Hmime Hpayload.
  assert (Hshape : data_uri mime payload
                   = ("data:" +:+ mime +:+ ";base64") +:+ String "," payload).
  { unfold data_uri. by rewrite !string_app_assoc. }
  assert (Hhead : Str.free_of "," ("data:" +:+ mime +:+ ";base64") = true).
  { rewrite !free_of_app, Hmime. reflexivity. }
  unfold base64Data_of. rewrite Hshape, includes_char.
  rewrite free_of_app, Hhead.
  replace (Str.free_of "," (String "," payload)) with false by reflexivity.
  cbn [andb negb].
  by rewrite (split_at_sep _ _ _ Hhead), (split_free _ _ Hpayload).
Qed.

Lemma mkError_message msg : get (mkError msg) "message" = Ok (JStr msg).
Proof. reflexivity. Qed.

Lemma mkError_status msg : response_status (mkError msg) = Ok JUndefined.
Proof. reflexivity. Qed.

(** The outer [catch] block on an error whose message names no base64 or
    callback problem and which carries no response. *)
Lemma upload_failed_plain msg w :
  Str.includes "Invalid base64" msg = false ->
  Str.includes "cb is not a function" msg = false ->
  upload_failed (R:=R) host (mkError msg) w =
    (Throw (mkError ("Failed to upload attachment to Taiga: " +:+ msg)), w).
Proof.
  intros H1 H2. unfold upload_failed, bind, lift, throw.
  rewrite mkError_message. cbn [includes_of]. rewrite H1, H2, mkError_status.
  reflexivity.
Qed.

(** C4 (amended): once the authenticated client and the token have been
    obtained (the method asks for them before it validates), file data that
    is not a non-empty string, or a file name that is not a non-empty
    string, make [uploadAttachment] fail with the corresponding validation
    error, at once: no request has been sent through the client and nothing
    is tried again. *)
Theorem upload_validation_errors
    itemType itemId fileData fileName mimeType description w r1 token r2 :
  auth_client host (remote w) = (Ok tt, r1) ->
  auth_token host r1 = (Ok token, r2) ->
  let rejected (reason : string) :=
    uploadAttachment itemType itemId fileData fileName mimeType description w =
      (Throw (mkError reason), World r2 (wire w) (console w)) in
  (non_empty_string fileData = false ->
   rejected ("Failed to upload attachment to Taiga: "
             +:+ "Invalid file data: fileData must be a base64 encoded string")) /\
  (non_empty_string fileData = true -> non_empty_string fileName = false ->
   rejected ("Failed to upload attachment to Taiga: "
             +:+ "Invalid file name: fileName is required")).
Proof.
  intros Hclient Htoken rejected. unfold rejected.
  unfold Service.uploadAttachment, try_catch, bind, createAuthenticatedClient,
    getAuthToken.
  rewrite Hclient. cbn [remote]. rewrite Htoken. rewrite !validation_test.
  split.
  - intros ->. cbn [negb throw]. by rewrite upload_failed_plain.
  - intros -> ->. cbn [negb throw]. by rewrite upload_failed_plain.
Qed.

Lemma probe_find paths : (probe host paths).2 = List.find (existsSync host) paths.
Proof.
  induction paths as [|p paths IH]; simpl; [done|].
  destruct (existsSync host p); [done|].
  destruct (probe host paths) as [tried found]. exact IH.
Qed.

Lemma probe_prefix paths : (probe host paths).1 `prefix_of` paths.
Proof.
  induction paths as [|p paths IH]; simpl; [done|].
  destruct (existsSync host p).
  - by exists paths.
  - destruct (probe host paths) as [tried found]. simpl in *. by apply prefix_cons.
Qed.

Lemma probe_last paths found :
  (probe host paths).2 = Some found -> last (probe host paths).1 = Some found.
Proof.
  induction paths as [|p paths IH]; simpl; [done|].
  destruct (existsSync host p); [by intros [= ->]|].
  destruct (probe host paths) as [tried result]. simpl in *.
  intros H. specialize (IH H). destruct tried; [done|]. exact IH.
Qed.

Lemma probe_all paths :
  (probe host paths).2 = None -> (probe host paths).1 = paths.
Proof.
  induction paths as [|p paths IH]; simpl; [done|].
  destruct (existsSync host p); [done|].
  destruct (probe host paths) as [tried result]. simpl in *.
  intros H. by rewrite (IH H).
Qed.

(** C8: a relative path is looked for under the working directory, the
    home directory, home/Desktop and home/Downloads, in this order, up to
    the first place where it exists, which is the one selected; a file
    that exists on the Desktop but neither under the working directory nor
    under the home directory is found there, and the upload goes on with
    the Desktop path. *)
Theorem relative_path_resolution filePath :
  path_isAbsolute host filePath = false ->
  let cwd := path_resolve host [process_cwd host; filePath] in
  let home := path_resolve host [homeDir host; filePath] in
  let desktop := path_resolve host [homeDir host; "Desktop"; filePath] in
  let downloads := path_resolve host [homeDir host; "Downloads"; filePath] in
  let candidates := [cwd; home; desktop; downloads] in
  let probed := (resolve_filePath host filePath).1 in
  let selected := (resolve_filePath host filePath).2 in
  selected = List.find (existsSync host) candidates /\
  probed `prefix_of` candidates /\
  (forall found, selected = Some found -> last probed = Some found) /\
  (selected = None -> probed = candidates) /\
  (existsSync host cwd = false ->
   existsSync host home = false ->
   existsSync host desktop = true ->
   resolve_filePath host filePath = ([cwd; home; desktop], Some desktop) /\
   (filePath <> EmptyString ->
    forall itemType itemId description w,
      uploadAttachmentFromPath API_ENDPOINTS host itemType itemId (JStr filePath)
        description w =
      try_catch (upload_resolved API_ENDPOINTS host itemType itemId desktop description)
        (from_path_failed host) w)).
Proof.
  intros Hrel cwd home desktop downloads candidates probed selected.
  assert (Hres : resolve_filePath host filePath = probe host candidates)
    by (unfold resolve_filePath; by rewrite Hrel).
  unfold probed, selected. rewrite Hres.
  split; [apply probe_find|]. split; [apply probe_prefix|].
  split; [apply probe_last|]. split; [apply probe_all|].
  intros Hcwd Hhome Hdesktop.
  assert (Hprobe : probe host candidates = ([cwd; home; desktop], Some desktop)).
  { unfold candidates. cbn [probe]. by rewrite Hcwd, Hhome, Hdesktop. }
  split; [done|].
  intros Hne itemType itemId description w.
  unfold uploadAttachmentFromPath. rewrite validation_test.
  destruct filePath as [|c rest]; [done|].
  cbn [non_empty_string negb ToString].
  fold cwd home desktop downloads candidates in Hres.
  by rewrite Hres, Hprobe.
Qed.
End Attachments.

(** ** The engine and the service on the worked examples *)

Section Scenarios.
Import Pagination Examples.

Lemma envelope_is_envelope results next : is_envelope (envelope results next) results next.
Proof.
  do 2 eexists. split; [reflexivity|]. split; [apply lookup_singleton_eq|].
  split; [apply lookup_insert_eq|].
  rewrite lookup_insert_ne by done. by rewrite lookup_singleton_eq.
Qed.

(** The listing of the test suite: 7 items paged 3 + 3 + 1 come back
    complete after 3 calls. *)
Example seven_items_three_calls :
  fetchAllPaginated pretty three_pages ∅ 100 w0 =
    (Ok (id_item <$> [1; 2; 3; 4; 5; 6; 7]),
     World 3 [page_params ∅ 1; page_params ∅ 2; page_params ∅ 3] []).
Proof. vm_compute. reflexivity. Qed.

(** A bare array comes back unchanged after one call. *)
Example bare_array_one_call :
  fetchAllPaginated pretty
    (fun _ (s : Z) => (Ok (JObj {[ "data" := JArr (id_item <$> [1; 2; 3]) ]}), s + 1))
    ∅ 100 w0 =
    (Ok (id_item <$> [1; 2; 3]), World 1 [page_params ∅ 1] []).
Proof. vm_compute. reflexivity. Qed.

(** A rejection without a reason escapes the [catch] block, which reads
    [error.message]: the traversal itself rejects. *)
Example rejection_without_reason_escapes :
  (fetchAllPaginated pretty rejects_with_undefined ∅ 100 w0).1 =
    Throw (TypeError "message").
Proof. vm_compute. reflexivity. Qed.

Lemma responses_of_envelopes pages : envelopes (responses_of pages) pages.
Proof.
  induction pages as [|pg pages IH]; constructor; [|exact IH].
  apply envelope_is_envelope.
Qed.

Lemma paginated_listing_complete_witness :
  fetchAllPaginated pretty three_pages ∅ 100 w0 =
    (Ok (all_items (three_pages_front ++ [three_pages_last])),
     World 3
       (calls w0 ++
        (page_params ∅ <$>
         seqZ 1 (Z.of_nat (length (three_pages_front ++ [three_pages_last])))))
       (console w0)).
Proof.
  apply (paginated_listing_complete pretty three_pages ∅ 100
           (responses_of (three_pages_front ++ [three_pages_last]))
           three_pages_front three_pages_last w0 3).
  - apply responses_of_envelopes.
  - repeat constructor; discriminate.
  - discriminate.
  - reflexivity.
  - repeat (eapply serves_cons; [vm_compute; reflexivity|]). apply serves_nil.
  - vm_compute. discriminate.
Defined.

(** Counterexample to C2 as stated: the first of two pages has a [next]
    that is not [null] (the empty string), the second has [next: null], both
    have items, and [maxPages] is 100; the engine stops after the first
    call, with 3 of the 4 items. *)
Lemma blank_next_ends_listing :
  serves two_pages_blank_next ∅ 1 0 (Ok <$> responses_of blank_pages) 2 /\
  envelopes (responses_of blank_pages) blank_pages /\
  Forall (fun pg : page => pg.1 <> []) blank_pages /\
  (forall pg, blank_pages !! 0%nat = Some pg -> pg.2 <> JNull) /\
  (forall pg, blank_pages !! 1%nat = Some pg -> pg.2 = JNull) /\
  Z.of_nat (length blank_pages) <= 100 /\
  fetchAllPaginated pretty two_pages_blank_next ∅ 100 w0 =
    (Ok [id_item 1; id_item 2; id_item 3], World 1 [page_params ∅ 1] []) /\
  (fetchAllPaginated pretty two_pages_blank_next ∅ 100 w0).1 <> Ok (all_items blank_pages).
Proof.
  split; [repeat (eapply serves_cons; [vm_compute; reflexivity|]); apply serves_nil|].
  split; [apply responses_of_envelopes|].
  split; [repeat constructor; discriminate|].
  split; [by intros pg [= <-]|].
  split; [by intros pg [= <-]|].
  split; [vm_compute; discriminate|].
  split; vm_compute; [reflexivity|discriminate].
Qed.

Lemma failure_returns_partial_witness :
  (fetchAllPaginated pretty fails_on_third ∅ 100 w0).1 = Ok (all_items two_good_pages) /\
  remote (fetchAllPaginated pretty fails_on_third ∅ 100 w0).2 = 3 /\
  calls (fetchAllPaginated pretty fails_on_third ∅ 100 w0).2 =
    calls w0 ++ (page_params ∅ <$> seqZ 1 (Z.of_nat (length two_good_pages) + 1)).
Proof.
  apply (failure_returns_partial pretty fails_on_third ∅ 100
           (responses_of two_good_pages) two_good_pages (mkError "Network Error") w0 3).
  - apply responses_of_envelopes.
  - repeat constructor; discriminate.
  - discriminate.
  - reflexivity.
  - repeat (eapply serves_cons; [vm_compute; reflexivity|]). apply serves_nil.
  - vm_compute. discriminate.
Defined.

Lemma always_next_runaway :
  runaway always_next (fun next => truthy next = true).
Proof.
  intros params s. do 4 eexists. split; [reflexivity|].
  split; [apply envelope_is_envelope|]. split; [discriminate|reflexivity].
Defined.

Lemma runaway_capped_witness :
  exists responses pages s',
    serves always_next ∅ 1 (remote w0) (Ok <$> responses) s' /\
    envelopes responses pages /\
    length pages = Z.to_nat 5 /\
    (fetchAllPaginated pretty always_next ∅ 5 w0).1 = Ok (all_items pages) /\
    remote (fetchAllPaginated pretty always_next ∅ 5 w0).2 = s' /\
    calls (fetchAllPaginated pretty always_next ∅ 5 w0).2 =
      calls w0 ++ (page_params ∅ <$> seqZ 1 5).
Proof.
  apply (runaway_capped pretty always_next ∅ 5 w0).
  - lia.
  - exact always_next_runaway.
Defined.

(** Counterexample to C6 as stated: every call answers an envelope with an
    item and a [next] that is not [null] (the empty string); with a maximum
    of 5 pages the function is called once, not 5 times. *)
Lemma blank_next_not_runaway :
  runaway blank_next (fun next => next <> JNull) /\
  fetchAllPaginated pretty blank_next ∅ 5 w0 =
    (Ok [id_item 1], World 1 [page_params ∅ 1] []) /\
  length (calls (fetchAllPaginated pretty blank_next ∅ 5 w0).2) <> 5%nat.
Proof.
  split.
  - intros params s. do 4 eexists. split; [reflexivity|].
    split; [apply envelope_is_envelope|]. split; discriminate.
  - split; vm_compute; [reflexivity|discriminate].
Qed.

Lemma always_fails_rejects_with_errors : rejects_with_errors always_fails.
Proof. intros params s e s' [= <- _]. reflexivity. Defined.

Lemma fetchAllPaginated_total_witness :
  (exists items w', fetchAllPaginated pretty always_fails ∅ 100 w0 = (Ok items, w')) /\
  (fetchAllPaginated pretty always_fails ∅ 100 w0).1 = Ok [] /\
  calls (fetchAllPaginated pretty always_fails ∅ 100 w0).2 = calls w0 ++ [page_params ∅ 1].
Proof.
  destruct (fetchAllPaginated_total pretty always_fails ∅ 100 w0
              always_fails_rejects_with_errors) as (Htotal & Hfirst & _).
  split; [exact Htotal|].
  apply (Hfirst (mkError "Network Error") 1); [lia|reflexivity].
Defined.

(** Counterexample to C9 as stated: the body is not an array and has no
    [results] array, yet the result has one item, the stray [results]
    string. *)
Lemma stray_results_contribute :
  spec_classify (JObj {[ "data" := JObj {[ "results" := JStr "abc" ]} ]}) = Unrecognized /\
  fetchAllPaginated pretty stray_results ∅ 100 w0 =
    (Ok [JStr "abc"], World 1 [page_params ∅ 1] []) /\
  (fetchAllPaginated pretty stray_results ∅ 100 w0).1 <> Ok [].
Proof. split; [reflexivity|]. split; vm_compute; [reflexivity|discriminate]. Qed.
End Scenarios.

Section ServiceScenarios.
Import Service Examples.

#[local] Abbreviation served := (mock_host versioned true).
#[local] Abbreviation bare := (mock_host versionless true).
#[local] Abbreviation locked_out := (mock_host versioned false).

(** The update of the specification: an issue at version 5 updated with
    [{status: 2}] sends [{status: 2, version: 5}]. *)
Example update_issue_at_version_5 :
  wire (updateIssue endpoints error_messages served (JNum 7) {[ "status" := JNum 2 ]}
          (s0 5)).2 =
    [(GET "/issues/7", Ok (JObj {[ "data" := versioned 5 ]}));
     (PATCH "/issues/7" (JObj (<["status" := JNum 2]> {[ "version" := JNum 5 ]})),
      Ok (JObj {[ "data" := JObj (<["status" := JNum 2]> {[ "version" := JNum 5 ]}) ]}))].
Proof. vm_compute. reflexivity. Qed.

(** A [version] smuggled in by the caller is replaced by the one read. *)
Example stale_version_replaced :
  wire (updateEpic endpoints served (JNum 7)
          (<["version" := JNum 1]> {[ "subject" := JStr "Q3" ]}) (s0 5)).2 =
    [(GET "/epics/7", Ok (JObj {[ "data" := versioned 5 ]}));
     (PATCH "/epics/7" (JObj (<["subject" := JStr "Q3"]> {[ "version" := JNum 5 ]})),
      Ok (JObj {[ "data" := JObj (<["subject" := JStr "Q3"]> {[ "version" := JNum 5 ]}) ]}))].
Proof. vm_compute. reflexivity. Qed.

Example mime_of_pdf : detectMimeType "report.pdf" = "application/pdf".
Proof. vm_compute. reflexivity. Qed.

Example mime_of_unknown : detectMimeType "report.xyz" = "application/octet-stream".
Proof. vm_compute. reflexivity. Qed.

Lemma guarded_updates_carry_read_version_witness :
  exists build,
    (forall version, build version !! "version" = Some version) /\
    goes_through served
      (updateIssue endpoints error_messages served (JNum 7) {[ "status" := JNum 2 ]})
      (item_url served (JStr "/issues") (JNum 7)) raw_version build (s0 5) 5.
Proof.
  destruct (guarded_updates_carry_read_version endpoints error_messages served
              (JNum 7) (JNum 7) (JNum 7) (JNum 7) (JStr "issue") (JNum 7)
              (JObj {[ "comment" := JStr "Looks good" ]}) {[ "status" := JNum 2 ]})
    as ((build & _ & Hthrough & Hversion) & _).
  exists build. split; [exact Hversion|].
  apply Hthrough. exists 5. split; reflexivity.
Defined.

(** Counterexample to C1 as stated: the issue read reports its version as
    the text "5"; the comment is written with [version: 1], which is not the
    version obtained by the read. *)
Lemma comment_carries_default_not_read_version :
  raw_version (JObj {[ "data" := text_versioned 5 ]}) = Ok (JStr "5") /\
  wire (addComment endpoints (mock_host text_versioned true) (JStr "issue") (JNum 7)
          (JObj {[ "comment" := JStr "Looks good" ]}) (s0 5)).2 =
    [(GET "/issues/7", Ok (JObj {[ "data" := text_versioned 5 ]}));
     (PATCH "/issues/7"
        (JObj (<["comment" := JStr "Looks good"]> {[ "version" := JNum 1 ]})),
      Throw conflict)] /\
  JNum 1 <> JStr "5".
Proof. split; [reflexivity|]. split; [vm_compute; reflexivity|discriminate]. Qed.

Lemma default_version_for_comments_only_witness :
  goes_through bare
    (addComment endpoints bare (JStr "issue") (JNum 7)
       (JObj {[ "comment" := JStr "Looks good" ]}))
    (item_url bare (getItemEndpoint endpoints bare (JStr "issue")) (JNum 7)) item_version
    (fun version =>
       <["comment" := get_opt (JObj {[ "comment" := JStr "Looks good" ]}) "comment"]>
         {[ "version" := version ]})
    (s0 5) 5 /\
  item_version (JObj {[ "data" := versionless 5 ]}) = Ok (JNum 1).
Proof.
  destruct (default_version_for_comments_only endpoints error_messages bare
              (JNum 7) (JNum 7) (JNum 7) (JNum 7) (JStr "issue") (JNum 7)
              (JObj {[ "comment" := JStr "Looks good" ]}) ∅)
    as (Hdefault & Habsent & Hcomment & _).
  split.
  - apply (Hcomment eq_refl). exists 5. split; reflexivity.
  - apply (Hdefault _ JUndefined); [|reflexivity].
    apply (Habsent _ {[ "id" := JNum 7 ]}); reflexivity.
Defined.

(** The comment on an issue that reports no version: the read, then the
    write with the default version. *)
Example comment_with_default_version :
  wire (addComment endpoints bare (JStr "issue") (JNum 7)
          (JObj {[ "comment" := JStr "Looks good" ]}) (s0 5)).2 =
    [(GET "/issues/7", Ok (JObj {[ "data" := versionless 5 ]}));
     (PATCH "/issues/7"
        (JObj (<["comment" := JStr "Looks good"]> {[ "version" := JNum 1 ]})),
      Throw conflict)].
Proof. vm_compute. reflexivity. Qed.

(** Counterexample to C3 as stated: the issue read has no [version];
    [updateIssue] goes on to the write with [version: undefined], not with
    the default 1. *)
Lemma updateIssue_sends_no_default :
  raw_version (JObj {[ "data" := versionless 5 ]}) = Ok JUndefined /\
  (exists o,
    wire (updateIssue endpoints error_messages bare (JNum 7) {[ "status" := JNum 2 ]}
            (s0 5)).2 =
      [(GET "/issues/7", Ok (JObj {[ "data" := versionless 5 ]}));
       (PATCH "/issues/7" (JObj (<["version" := JUndefined]> {[ "status" := JNum 2 ]})), o)]) /\
  (<["version" := JUndefined]> ({[ "status" := JNum 2 ]} : gmap string JsVal)) !! "version"
    <> Some (JNum 1).
Proof.
  split; [reflexivity|]. split.
  - eexists. vm_compute. reflexivity.
  - vm_compute. discriminate.
Qed.

Lemma upload_validation_errors_witness :
  uploadAttachment endpoints served (JStr "issue") (JNum 7) (JStr "") (JStr "a.txt")
    JUndefined JUndefined (s0 5) =
    (Throw (mkError ("Failed to upload attachment to Taiga: "
                     +:+ "Invalid file data: fileData must be a base64 encoded string")),
     World 5 (wire (s0 5)) (console (s0 5))) /\
  uploadAttachment endpoints served (JStr "issue") (JNum 7) (JStr "aGVsbG8=") JNull
    JUndefined JUndefined (s0 5) =
    (Throw (mkError ("Failed to upload attachment to Taiga: "
                     +:+ "Invalid file name: fileName is required")),
     World 5 (wire (s0 5)) (console (s0 5))).
Proof.
  split.
  - apply (upload_validation_errors endpoints served (JStr "issue") (JNum 7) (JStr "")
             (JStr "a.txt") JUndefined JUndefined (s0 5) 5 (JStr "token") 5
             eq_refl eq_refl).
    reflexivity.
  - apply (upload_validation_errors endpoints served (JStr "issue") (JNum 7)
             (JStr "aGVsbG8=") JNull JUndefined JUndefined (s0 5) 5 (JStr "token") 5
             eq_refl eq_refl); reflexivity.
Defined.

(** Counterexample to C4 as stated: the file data is empty, but the
    client cannot be obtained; the upload fails with that error, not with a
    validation error. *)
Lemma upload_fails_on_client_first :
  non_empty_string (JStr "") = false /\
  (uploadAttachment endpoints locked_out (JStr "issue") (JNum 7) (JStr "") (JStr "a.txt")
     JUndefined JUndefined (s0 5)).1 =
    Throw (mkError "Failed to upload attachment to Taiga: Authentication failed") /\
  (uploadAttachment endpoints locked_out (JStr "issue") (JNum 7) (JStr "") (JStr "a.txt")
     JUndefined JUndefined (s0 5)).1 <>
    Throw (mkError ("Failed to upload attachment to Taiga: "
                    +:+ "Invalid file data: fileData must be a base64 encoded string")).
Proof. split; [reflexivity|]. split; vm_compute; [reflexivity|discriminate]. Qed.

Lemma relative_path_resolution_witness :
  resolve_filePath served "report.pdf" =
    (["/srv/app/report.pdf"; "/home/ada/report.pdf"; "/home/ada/Desktop/report.pdf"],
     Some "/home/ada/Desktop/report.pdf").
Proof.
  destruct (relative_path_resolution endpoints served "report.pdf" eq_refl)
    as (_ & _ & _ & _ & Hdesktop).
  apply (Hdesktop eq_refl eq_refl eq_refl).
Defined.
End ServiceScenarios.
(** ** More about the pagination engine *)

Section TraversalFacts.
Import Pagination Traversal.
Context {St : Type}.
Variable NumberToString : Z -> string.
Variable fetchFunction : JsVal -> St -> outcome JsVal * St.
Variable initialParams : gmap string JsVal.
Variable maxPages : Z.

#[local] Abbreviation iteration := (iteration NumberToString fetchFunction initialParams).
#[local] Abbreviation while_loop :=
  (while_loop NumberToString fetchFunction initialParams maxPages).
#[local] Abbreviation fetchAllPaginated :=
  (fetchAllPaginated NumberToString fetchFunction initialParams maxPages).
#[local] Abbreviation serves := (serves fetchFunction initialParams).
#[local] Abbreviation page_params := (page_params initialParams).

Lemma concat_splice a v : concat a v = a ++ concat [] v.
Proof. by destruct v. Qed.

(** One turn of the loop: one call, whose contribution is appended; the
    turn goes on only to the next page. *)
Lemma iteration_trace allItems currentPage w :
  exists o s',
    fetchFunction (page_params currentPage) (remote w) = (o, s') /\
    remote (iteration allItems currentPage w).2 = s' /\
    calls (iteration allItems currentPage w).2 = calls w ++ [page_params currentPage] /\
    forall st, (iteration allItems currentPage w).1 = Ok st ->
      match st with
      | Break allItems' _ => allItems' = allItems ++ contribution o
      | Continue allItems' currentPage' hasMore' =>
          allItems' = allItems ++ contribution o /\
          currentPage' = currentPage + 1 /\ hasMore' = true
      end.
Proof.
  unfold Pagination.iteration, call_fetch, on_error, bind, lift, console_warn, ret.
  destruct (fetchFunction (page_params currentPage) (remote w)) as [[response|e] s'] eqn:Hf.
  - exists (Ok response), s'. split; [done|]. unfold contribution.
    destruct (read_page response) as [[items hasMore]|e] eqn:Hr.
    + destruct hasMore; simpl.
      * destruct (get items "length") as [len|e]; simpl.
        -- destruct (strict_eq_num len 0); simpl; repeat split; try done;
             intros st [= <-]; by rewrite concat_splice.
        -- destruct (get e "message"); simpl; repeat split; try done;
             intros st [= <-]; by rewrite concat_splice.
      * repeat split; try done. intros st [= <-]. by rewrite concat_splice.
    + destruct (get e "message"); simpl; repeat split; try done.
      intros st [= <-]. by rewrite app_nil_r.
  - exists (Throw e), s'. split; [done|].
    destruct (get e "message"); simpl; repeat split; try done.
    intros st [= <-]. by rewrite app_nil_r.
Qed.

(** The whole loop: the calls are for consecutive pages, no more of them
    than the pages left under [maxPages], and the accumulator grows by the
    contributions of the calls, in order. *)
Lemma while_loop_trace fuel allItems currentPage w :
  exists outcomes s',
    serves currentPage (remote w) outcomes s' /\
    remote (while_loop fuel allItems currentPage true w).2 = s' /\
    calls (while_loop fuel allItems currentPage true w).2 =
      calls w ++ (page_params <$> seqZ currentPage (Z.of_nat (length outcomes))) /\
    (length outcomes <= fuel)%nat /\
    Z.of_nat (length outcomes) <= Z.max 0 (maxPages + 1 - currentPage) /\
    forall items lastPage,
      (while_loop fuel allItems currentPage true w).1 = Ok (items, lastPage) ->
      items = allItems ++ mjoin (contribution <$> outcomes).
Proof.
  revert allItems currentPage w.
  induction fuel as [|fuel IH]; intros allItems currentPage w.
  - exists [], (remote w). simpl.
    destruct (currentPage <=? maxPages); simpl;
      (split; [constructor|]); rewrite !app_nil_r;
      repeat split; try done; try lia; by intros items lastPage [= <- _].
  - simpl. destruct (currentPage <=? maxPages) eqn:Hle.
    + apply Z.leb_le in Hle. unfold bind.
      destruct (iteration_trace allItems currentPage w) as (o & s1 & Hf & Hrem & Hcalls & Hst).
      destruct (iteration allItems currentPage w) as [[st|e] w1] eqn:Hit; simpl in *.
      * specialize (Hst st eq_refl).
        destruct st as [allItems' currentPage'|allItems' currentPage' hasMore'].
        -- exists [o], s1. subst allItems'. simpl.
           split; [econstructor; [exact Hf|constructor]|].
           rewrite app_nil_r. repeat split; try done; try lia.
           by intros items lastPage [= <- _].
        -- destruct Hst as (-> & -> & ->).
           destruct (IH (allItems ++ contribution o) (currentPage + 1) w1)
             as (outcomes & s' & Hserves & Hrem' & Hcalls' & Hlen & Hbound & Hitems).
           exists (o :: outcomes), s'.
           split; [econstructor; [exact Hf|by rewrite <- Hrem]|].
           split; [done|]. split.
           { rewrite Hcalls', Hcalls, <- app_assoc. f_equal. simpl length.
             replace (Z.of_nat (S (length outcomes)))
               with (Z.succ (Z.of_nat (length outcomes))) by lia.
             rewrite (seqZ_cons currentPage) by lia. rewrite Z.pred_succ, fmap_cons.
             simpl. by replace (Z.succ currentPage) with (currentPage + 1) by lia. }
           split; [simpl; lia|]. split; [simpl length; lia|].
           intros items lastPage Hres. rewrite (Hitems _ _ Hres).
           simpl. by rewrite <- app_assoc.
      * exists [o], s1. simpl.
        split; [econstructor; [exact Hf|constructor]|].
        repeat split; try done; lia.
    + exists [], (remote w). simpl. split; [constructor|]. rewrite !app_nil_r.
      repeat split; try done; try lia. by intros items lastPage [= <- _].
Qed.

Lemma fetchAllPaginated_world w :
  remote (fetchAllPaginated w).2 =
    remote (while_loop (Z.to_nat maxPages) [] 1 true w).2 /\
  calls (fetchAllPaginated w).2 =
    calls (while_loop (Z.to_nat maxPages) [] 1 true w).2 /\
  forall items, (fetchAllPaginated w).1 = Ok items ->
    exists lastPage,
      (while_loop (Z.to_nat maxPages) [] 1 true w).1 = Ok (items, lastPage).
Proof.
  unfold Pagination.fetchAllPaginated, bind.
  destruct (while_loop (Z.to_nat maxPages) [] 1 true w) as [[[allItems q]|e] w1]; simpl.
  - destruct (q >? maxPages); simpl; repeat split; try done;
      intros items [= <-]; eauto.
  - repeat split; try done.
Qed.

(** X1: whatever the page-fetching function does, the engine calls it for
    pages 1, 2, ..., n in this order and nothing else, with n at most
    [maxPages] (no call at all when [maxPages] is below 1); every parameter
    object carries the page number under [page], over a [page] of the initial
    parameters, and the initial parameters otherwise. *)
Theorem calls_are_numbered_and_bounded w :
  exists n : nat,
    (n <= Z.to_nat maxPages)%nat /\
    calls (fetchAllPaginated w).2 = calls w ++ (page_params <$> seqZ 1 (Z.of_nat n)) /\
    (forall p, get (page_params p) "page" = Ok (JNum p)) /\
    (forall p key, key <> "page" ->
       get (page_params p) key = get (JObj initialParams) key).
Proof.
  destruct (while_loop_trace (Z.to_nat maxPages) [] 1 w)
    as (outcomes & s' & _ & _ & Hcalls & Hlen & _).
  destruct (fetchAllPaginated_world w) as (_ & Hcalls' & _).
  exists (length outcomes). split; [done|]. split; [by rewrite Hcalls'|]. split.
  - intros p. unfold Pagination.page_params, get. by rewrite lookup_insert_eq.
  - intros p key Hkey. unfold Pagination.page_params, get.
    by rewrite lookup_insert_ne.
Qed.

(** X2: when the traversal ends in an array, that array is the
    concatenation, in call order, of what each call contributed: the items
    read from its response, and nothing for a rejected call or an unreadable
    response.  No item is dropped, repeated or moved. *)
Theorem result_is_concatenation w :
  exists outcomes s',
    serves 1 (remote w) outcomes s' /\
    remote (fetchAllPaginated w).2 = s' /\
    calls (fetchAllPaginated w).2 =
      calls w ++ (page_params <$> seqZ 1 (Z.of_nat (length outcomes))) /\
    forall items, (fetchAllPaginated w).1 = Ok items ->
      items = mjoin (contribution <$> outcomes).
Proof.
  destruct (while_loop_trace (Z.to_nat maxPages) [] 1 w)
    as (outcomes & s' & Hserves & Hrem & Hcalls & _ & _ & Hitems).
  destruct (fetchAllPaginated_world w) as (Hrem' & Hcalls' & Hres).
  exists outcomes, s'. split; [done|]. split; [by rewrite Hrem'|].
  split; [by rewrite Hcalls'|].
  intros items Hok. destruct (Hres items Hok) as [lastPage Hloop].
  exact (Hitems _ _ Hloop).
Qed.

(** X3: a response whose body is a bare array, or which is itself an array
    and has no body, is the only page: the array is returned as it is, empty
    or not, after exactly one call and without a warning. *)
Theorem bare_array_is_the_only_page w response items s' :
  1 <= maxPages ->
  fetchFunction (page_params 1) (remote w) = (Ok response, s') ->
  get response "data" = Ok (JArr items) \/ response = JArr items ->
  fetchAllPaginated w =
    (Ok items, World s' (calls w ++ [page_params 1]) (console w)).
Proof.
  intros Hmax Hf Hshape.
  assert (Hread : read_page response = Ok (JArr items, false)).
  { destruct Hshape as [Hd| ->]; [|reflexivity].
    unfold read_page. by rewrite Hd. }
  assert (Hloop : while_loop (Z.to_nat maxPages) [] 1 true w =
            (Ok (items, 1), World s' (calls w ++ [page_params 1]) (console w))).
  { destruct (Z.to_nat maxPages) as [|fuel] eqn:Hfuel; [lia|].
    rewrite (while_loop_turn NumberToString fetchFunction initialParams maxPages) by lia.
    unfold bind, Pagination.iteration, call_fetch. by rewrite Hf, Hread. }
  rewrite (fetchAllPaginated_unfold _ _ _ _ _ _ _ _ Hloop).
  by replace (1 >? maxPages) with false by (symmetry; lia).
Qed.

(** X4: when as many continuing pages are served as [maxPages] allows
    (none when [maxPages] is below 1), the traversal is cut there: the items
    of these pages are returned as they are, after one call per page, and
    exactly one warning that names the limit is written to the console. *)
Theorem truncation_is_warned responses pages w s' :
  envelopes responses pages ->
  Forall continuing pages ->
  serves 1 (remote w) (Ok <$> responses) s' ->
  length pages = Z.to_nat maxPages ->
  fetchAllPaginated w =
    (Ok (all_items pages),
     World s' (calls w ++ (page_params <$> seqZ 1 (Z.of_nat (length pages))))
       (console w ++ ["Reached maximum page limit (" +:+ NumberToString maxPages
                      +:+ "). Results may be incomplete."])).
Proof.
  intros Henv Hcont Hserves Hlen.
  destruct (Z_lt_le_dec maxPages 1) as [Hlow|Hhigh].
  - assert (pages = []) as -> by (apply length_zero_iff_nil; lia).
    inversion Henv; subst. inversion Hserves; subst.
    pose proof (while_loop_stop NumberToString fetchFunction initialParams maxPages
                  (Z.to_nat maxPages) [] 1 w ltac:(lia)) as Hloop.
    rewrite (fetchAllPaginated_unfold _ _ _ _ _ _ _ _ Hloop).
    replace (1 >? maxPages) with true by (symmetry; lia).
    simpl. by rewrite app_nil_r.
  - pose proof (while_loop_prefix NumberToString fetchFunction initialParams maxPages
                  _ _ _ _ Henv Hcont Hserves ltac:(lia)) as Hloop.
    rewrite (while_loop_stop _ _ _ _ _ (all_items pages)) in Hloop by lia.
    rewrite (fetchAllPaginated_unfold _ _ _ _ _ _ _ _ Hloop).
    by replace (1 + Z.of_nat (length pages) >? maxPages) with true by (symmetry; lia).
Qed.

(** X5: a page without items ends the traversal even when it announces a
    next page: after any number of continuing pages, an envelope with an empty
    [results] array is the last page asked for, whatever its [next]. *)
Theorem empty_page_ends_traversal responses pages last w s' :
  envelopes responses (pages ++ [last]) ->
  Forall continuing pages ->
  last.1 = [] ->
  serves 1 (remote w) (Ok <$> responses) s' ->
  Z.of_nat (length (pages ++ [last])) <= maxPages ->
  fetchAllPaginated w =
    (Ok (all_items pages),
     World s'
       (calls w ++ (page_params <$> seqZ 1 (Z.of_nat (length (pages ++ [last])))))
       (console w)).
Proof.
  intros Henv Hcont Hempty Hserves Hmax.
  apply Forall2_app_inv_r in Henv as (front & back & Hfront & Hback & ->).
  destruct back as [|rl back]; [by inversion Hback|].
  apply Forall2_cons_1 in Hback as [Hlast Hnil].
  apply Forall2_nil_inv_r in Hnil as ->.
  rewrite fmap_app in Hserves.
  apply serves_app in Hserves as (s1 & Hpre & Hend).
  rewrite length_fmap, (Forall2_length _ _ _ Hfront) in Hend.
  inversion Hend as [|? ? ? s2 ? ? Hf Hnil']; subst. inversion Hnil'; subst.
  rewrite length_app in Hmax. simpl in Hmax.
  pose proof (while_loop_prefix NumberToString fetchFunction initialParams maxPages
                _ _ _ _ Hfront Hcont Hpre ltac:(lia)) as Hloop.
  destruct (Z.to_nat maxPages - length pages)%nat as [|fuel] eqn:Hfuel; [lia|].
  rewrite while_loop_turn in Hloop by lia.
  unfold bind, Pagination.iteration, call_fetch in Hloop. simpl in Hloop.
  rewrite Hf, (read_page_envelope _ _ _ Hlast), Hempty in Hloop.
  assert (Hturn : forall (more : bool) (a : list JsVal) (q : Z) (w1 : world St),
            (if negb more then (Ok (Break (concat a (JArr [])) q), w1)
             else match get (JArr []) "length" with
                  | Ok len =>
                      if strict_eq_num len 0
                      then (Ok (Break (concat a (JArr [])) q), w1)
                      else (Ok (Continue (concat a (JArr [])) (q + 1) more), w1)
                  | Throw error =>
                      on_error NumberToString (concat a (JArr [])) q error w1
                  end) = (Ok (Break a q), w1)).
  { intros more a q w1. simpl. rewrite app_nil_r. by destruct more. }
  rewrite Hturn in Hloop. unfold ret in Hloop.
  rewrite (fetchAllPaginated_unfold _ _ _ _ _ _ _ _ Hloop).
  replace (1 + Z.of_nat (length pages) >? maxPages) with false by (symmetry; lia).
  by rewrite length_app, Nat2Z.inj_add, seqZ_app, fmap_app, <- app_assoc by lia.
Qed.
End TraversalFacts.
(** ** More about the service *)

Section ServiceFacts.
Import Service Failure.
Context {R : Type}.
Variable API_ENDPOINTS : Endpoints.
Variable ERROR_MESSAGES : ErrorMessages.
Variable host : Host R.

#[local] Abbreviation ToStr := (ToString (NumberToString host)).
#[local] Abbreviation item_url := (item_url host).

Ltac unfold_service :=
  unfold updateIssue, getIssue, updateEpic, getEpic, updateWikiPage, linkStoryToEpic,
    unlinkStoryFromEpic, addComment, getItemVersion, response_status, log_and_throw,
    try_catch, bind, obind, lift, ret, throw, send, createAuthenticatedClient,
    console_error.

Ltac cases :=
  repeat (simpl;
          match goal with
          | |- context [auth_client host ?r] =>
              destruct (auth_client host r) as [[[]|?] ?] eqn:?
          | |- context [transport host ?q ?r] =>
              destruct (transport host q r) as [[?|?] ?] eqn:?
          | |- context [get ?v ?k] => destruct (get v k) eqn:?
          | |- context [if ?b then _ else _] => destruct b eqn:?
          end).

Lemma get_throws_TypeError v key e : get v key = Throw e -> e = TypeError key.
Proof. destruct v; simpl; intros H; by inversion H. Qed.

Ltac masked :=
  intros w e; unfold_service; cases; intros [= <-];
  first [ by left
        | right;
          match goal with H : get _ "message" = Throw _ |- _ =>
            by rewrite (get_throws_TypeError _ _ _ H) end ].

(** X6: whatever makes them fail (the client, the request, an answer
    without a body), [getIssue], [getEpic], [updateIssue], [updateEpic],
    [updateWikiPage], [linkStoryToEpic] and [unlinkStoryFromEpic] throw an
    error with their own fixed message and no [response]: the HTTP status of
    the failed request is not passed on, and a caller's test
    [error.response?.status === 404] is false. *)
Theorem failures_are_masked (issueId epicId wikiPageId userStoryId : JsVal)
    (updateData : gmap string JsVal) w e :
  ((getIssue API_ENDPOINTS ERROR_MESSAGES host issueId w).1 = Throw e ->
   opaque_failure (FAILED_TO_GET_ISSUE ERROR_MESSAGES) e) /\
  ((getEpic API_ENDPOINTS host epicId w).1 = Throw e ->
   opaque_failure "Failed to get epic details from Taiga" e) /\
  ((updateIssue API_ENDPOINTS ERROR_MESSAGES host issueId updateData w).1 = Throw e ->
   opaque_failure "Failed to update issue in Taiga" e) /\
  ((updateEpic API_ENDPOINTS host epicId updateData w).1 = Throw e ->
   opaque_failure "Failed to update epic in Taiga" e) /\
  ((updateWikiPage API_ENDPOINTS ERROR_MESSAGES host wikiPageId updateData w).1 = Throw e ->
   opaque_failure (FAILED_TO_UPDATE_WIKI ERROR_MESSAGES) e) /\
  ((linkStoryToEpic API_ENDPOINTS host userStoryId epicId w).1 = Throw e ->
   opaque_failure "Failed to link user story to epic" e) /\
  ((unlinkStoryFromEpic API_ENDPOINTS host userStoryId w).1 = Throw e ->
   opaque_failure "Failed to unlink user story from epic" e) /\
  (forall msg, opaque_failure msg e ->
     response_status e = Ok JUndefined /\
     forall status, strict_eq_num (get_opt (get_opt e "response") "status") status = false).
Proof.
  repeat split.
  - revert w e. masked.
  - revert w e. masked.
  - revert w e. masked.
  - revert w e. masked.
  - revert w e. masked.
  - revert w e. masked.
  - revert w e. masked.
  - by destruct H as [-> | ->].
  - by destruct H as [-> | ->].
Qed.

Lemma response_status_of e :
  is_nullish e = false ->
  response_status e = Ok (get_opt (get_opt e "response") "status").
Proof.
  intros He. unfold response_status. by rewrite (get_of_non_nullish e "response" He).
Qed.

(** X7: when the read of the item is rejected, [getItemVersion] turns
    status 404 into "<type> #<id> not found", status 403 into "Permission
    denied accessing <type> #<id>" and anything else into "Failed to get
    <type> version: <message>"; [addComment] then fails with that text behind
    "Failed to add comment to Taiga: ", and has sent the read only, no
    write. *)
Theorem failed_read_is_explained itemType itemId commentData e w r1 r2 r3 :
  is_nullish e = false ->
  auth_client host (remote w) = (Ok tt, r1) ->
  auth_client host r1 = (Ok tt, r2) ->
  transport host (GET (item_url (getItemEndpoint API_ENDPOINTS host itemType) itemId)) r2
    = (Throw e, r3) ->
  let status := get_opt (get_opt e "response") "status" in
  let reason :=
    if strict_eq_num status 404 then
      ToStr itemType +:+ " #" +:+ ToStr itemId +:+ " not found"
    else if strict_eq_num status 403 then
      "Permission denied accessing " +:+ ToStr itemType +:+ " #" +:+ ToStr itemId
    else "Failed to get " +:+ ToStr itemType +:+ " version: "
         +:+ ToStr (get_opt e "message") in
  let sent := [(GET (item_url (getItemEndpoint API_ENDPOINTS host itemType) itemId),
                Throw e)] in
  getItemVersion API_ENDPOINTS host itemType itemId (World r1 (wire w) (console w)) =
    (Throw (mkError reason), World r3 (wire w ++ sent) (console w)) /\
  addComment API_ENDPOINTS host itemType itemId commentData w =
    (Throw (mkError ("Failed to add comment to Taiga: " +:+ reason)),
     World r3 (wire w ++ sent) (console w)).
Proof.
  intros He Hauth1 Hauth2 Hget status reason sent.
  assert (Hversion :
    getItemVersion API_ENDPOINTS host itemType itemId (World r1 (wire w) (console w)) =
      (Throw (mkError reason), World r3 (wire w ++ sent) (console w))).
  { unfold getItemVersion, try_catch, bind, send, createAuthenticatedClient, lift, throw.
    cbn [remote wire console]. rewrite Hauth2. cbn [remote wire console].
    rewrite Hget. rewrite (response_status_of e He).
    fold status. unfold reason.
    destruct (strict_eq_num status 404); [done|].
    destruct (strict_eq_num status 403); [done|].
    by rewrite (get_of_non_nullish e "message" He). }
  split; [exact Hversion|].
  unfold addComment, try_catch, bind, createAuthenticatedClient at 1.
  rewrite Hauth1, Hversion. unfold lift, throw.
  rewrite mkError_status, mkError_message. reflexivity.
Qed.

(** X8: when the write of a comment is rejected, [addComment] explains it
    by the status of the response: 400 is a version conflict when the body of
    the response names [version] and a bad request otherwise, 403 a denied
    permission, 404 an item that was not found, and anything else is reported
    with the message of the rejection.  The read and the rejected write are
    all that was sent. *)
Theorem rejected_comment_is_explained
    itemType itemId commentData response version e w r1 r2 r3 r4 :
  let url := item_url (getItemEndpoint API_ENDPOINTS host itemType) itemId in
  let body :=
    JObj (<["comment" := get_opt commentData "comment"]> {[ "version" := version ]}) in
  is_nullish commentData = false ->
  is_nullish e = false ->
  auth_client host (remote w) = (Ok tt, r1) ->
  auth_client host r1 = (Ok tt, r2) ->
  transport host (GET url) r2 = (Ok response, r3) ->
  item_version response = Ok version ->
  transport host (PATCH url body) r3 = (Throw e, r4) ->
  let status := get_opt (get_opt e "response") "status" in
  let explanation :=
    if strict_eq_num status 400 then
      if truthy (get_opt (get_opt (get_opt e "response") "data") "version")
      then "Version parameter is invalid. The item may have been modified by another user."
      else "Bad request. Please check the comment data format."
    else if strict_eq_num status 403 then
      "Permission denied. Check your access rights."
    else if strict_eq_num status 404 then
      ToStr itemType +:+ " #" +:+ ToStr itemId +:+ " not found."
    else ToStr (get_opt e "message") in
  addComment API_ENDPOINTS host itemType itemId commentData w =
    (Throw (mkError ("Failed to add comment to Taiga: " +:+ explanation)),
     World r4 (wire w ++ [(GET url, Ok response); (PATCH url body, Throw e)]) (console w)).
Proof.
  intros url body Hc He Hauth1 Hauth2 Hget Hversion Hpatch status explanation.
  apply item_version_inv in Hversion as (data & raw & Hd & Hv & ->).
  unfold addComment, getItemVersion, try_catch, bind, send, createAuthenticatedClient,
    lift, throw, ret.
  rewrite Hauth1. cbn [remote wire console]. rewrite Hauth2. cbn [remote wire console].
  fold url. rewrite Hget, Hd, Hv.
  rewrite (get_of_non_nullish commentData "comment" Hc).
  destruct (negb (typeof_number raw)); cbn [remote wire console]; fold body;
    rewrite Hpatch, (response_status_of e He); fold status; unfold explanation;
    rewrite <- app_assoc;
    (destruct (strict_eq_num status 400);
     [by destruct (truthy (get_opt (get_opt (get_opt e "response") "data") "version"))|]);
    (destruct (strict_eq_num status 403); [done|]);
    (destruct (strict_eq_num status 404); [done|]);
    by rewrite (get_of_non_nullish e "message" He).
Qed.
End ServiceFacts.
(** ** More about the attachment pipeline *)

Section UploadFacts.
Import Service Failure.
Context {R : Type}.
Variable API_ENDPOINTS : Endpoints.
Variable host : Host R.

#[local] Abbreviation ToStr := (ToString (NumberToString host)).
#[local] Abbreviation uploadAttachment := (uploadAttachment API_ENDPOINTS host).
#[local] Abbreviation project_field := (project_field API_ENDPOINTS host).
#[local] Abbreviation item_url := (item_url host).

(** The lookup of the owning project never fails, and yields at most the
    one field. *)
Lemma project_field_total itemType itemId w :
  exists fields w',
    project_field itemType itemId w = (Ok fields, w') /\
    (fields = [] \/ exists text, fields = [("project", Field (JStr text))]) /\
    (exists sent, wire w' = wire w ++ sent /\
       (sent = [] \/
        exists o, sent = [(GET (item_url (getItemEndpoint API_ENDPOINTS host itemType)
                                  itemId), o)])).
Proof.
  unfold Service.project_field, getItemData, toString_of, try_catch, bind, send,
    createAuthenticatedClient, lift, ret.
  destruct (auth_client host (remote w)) as [[[]|e] r1]; simpl.
  - destruct (transport host _ r1) as [[response|e] r2]; simpl.
    + destruct (get response "data") as [itemData|e]; simpl.
      * destruct (truthy itemData) eqn:Ht; simpl.
        -- destruct (get itemData "project") as [project|e]; simpl.
           ++ destruct (truthy project) eqn:Hp; simpl.
              ** rewrite (truthy_non_nullish _ Hp). simpl.
                 do 2 eexists. split; [reflexivity|]. split; [right; eauto|].
                 eexists. split; [reflexivity|]. right. eauto.
              ** do 2 eexists. split; [reflexivity|]. split; [by left|].
                 eexists. split; [reflexivity|]. right. eauto.
           ++ do 2 eexists. split; [reflexivity|]. split; [by left|].
              eexists. split; [reflexivity|]. right. eauto.
        -- do 2 eexists. split; [reflexivity|]. split; [by left|].
           eexists. split; [reflexivity|]. right. eauto.
      * do 2 eexists. split; [reflexivity|]. split; [by left|].
        eexists. split; [reflexivity|]. right. eauto.
    + do 2 eexists. split; [reflexivity|]. split; [by left|].
      eexists. split; [reflexivity|]. right. eauto.
  - do 2 eexists. split; [reflexivity|]. split; [by left|].
    exists []. split; [by rewrite app_nil_r|by left].
Qed.

(** An upload whose input passes the validations arrives at the request:
    the form holds the object id, the file and, when given, the description,
    followed by what the project lookup found. *)
Lemma upload_reaches_post
    itemType itemId fileName mimeType description text bytes w r1 token r2 :
  auth_client host (remote w) = (Ok tt, r1) ->
  auth_token host r1 = (Ok token, r2) ->
  text <> EmptyString ->
  non_empty_string fileName = true ->
  Buffer_from host (base64Data_of text) = Ok bytes ->
  is_nullish itemId = false ->
  exists fields w3,
    project_field itemType itemId (World r2 (wire w) (console w)) = (Ok fields, w3) /\
    uploadAttachment itemType itemId (JStr text) fileName mimeType description w =
      try_catch
        (let! response :=
           send host
             (POST (ToStr (getAttachmentEndpoint API_ENDPOINTS host itemType))
                (([("object_id", Field (JStr (ToStr itemId)));
                   ("attached_file", FileField bytes fileName)]
                  ++ (if truthy description then [("description", Field description)]
                      else []))
                 ++ fields)) in
         lift (get response "data"))
        (upload_failed host) w3.
Proof.
  intros Hclient Htoken Htext Hname Hbytes Hid.
  destruct (project_field_total itemType itemId (World r2 (wire w) (console w)))
    as (fields & w3 & Hfield & _).
  exists fields, w3. split; [exact Hfield|].
  unfold Service.uploadAttachment, try_catch, bind, createAuthenticatedClient,
    getAuthToken.
  rewrite Hclient. cbn [remote wire console]. rewrite Htoken.
  rewrite !validation_test, Hname.
  destruct text as [|c rest]; [done|]. cbn [non_empty_string negb ToString].
  unfold decode_fileData, try_catch, lift. rewrite Hbytes.
  unfold toString_of. rewrite Hid.
  fold (Service.project_field API_ENDPOINTS host itemType itemId). rewrite Hfield.
  reflexivity.
Qed.

(** The outer [catch] block sends nothing. *)
Lemma upload_failed_wire e (w : world R) :
  wire (upload_failed host e w).2 = wire w /\ remote (upload_failed host e w).2 = remote w.
Proof.
  unfold upload_failed, bind, lift, throw, console_error.
  destruct (get e "message") as [message|]; [|done].
  destruct (includes_of message "Invalid base64") as [[]|]; try done.
  destruct (includes_of message "cb is not a function") as [[]|]; try done.
  destruct (response_status e) as [status|]; [|done].
  destruct (strict_eq_num status 413); [done|].
  destruct (strict_eq_num status 401); [done|].
  by destruct (strict_eq_num status 404).
Qed.

(** C7: for file data made of a data-URI header [data:<mime>;base64,]
    followed by a payload (neither holds a comma, the separator), the text
    handed to the decoder is the payload alone; the file buffer is the one
    the decoder gives for the payload, and it is this buffer that the upload
    request carries as [attached_file]; with a non-empty payload the whole
    upload runs exactly as for the bare payload. *)
Theorem data_uri_header_stripped mime payload :
  Str.free_of "," mime = true ->
  Str.free_of "," payload = true ->
  base64Data_of (data_uri mime payload) = JStr payload /\
  (forall bytes (w : world R),
     Buffer_from_base64 host payload = Ok bytes ->
     decode_fileData host (data_uri mime payload) w = (Ok bytes, w)) /\
  (forall bytes itemType itemId fileName mimeType description w r1 token r2,
     Buffer_from_base64 host payload = Ok bytes ->
     auth_client host (remote w) = (Ok tt, r1) ->
     auth_token host r1 = (Ok token, r2) ->
     non_empty_string fileName = true ->
     is_nullish itemId = false ->
     exists fields w3 o,
       project_field itemType itemId (World r2 (wire w) (console w)) = (Ok fields, w3) /\
       wire (uploadAttachment itemType itemId (JStr (data_uri mime payload)) fileName
               mimeType description w).2 =
         wire w3 ++
         [(POST (ToStr (getAttachmentEndpoint API_ENDPOINTS host itemType))
             (([("object_id", Field (JStr (ToStr itemId)));
                ("attached_file", FileField bytes fileName)]
               ++ (if truthy description then [("description", Field description)] else []))
              ++ fields), o)]) /\
  (payload <> EmptyString ->
   forall itemType itemId fileName mimeType description w,
     uploadAttachment itemType itemId (JStr (data_uri mime payload)) fileName mimeType
       description w =
     uploadAttachment itemType itemId (JStr payload) fileName mimeType description w).
Proof.
  intros Hmime Hpayload.
  pose proof (base64Data_data_uri mime payload Hmime Hpayload) as Huri.
  pose proof (base64Data_plain payload Hpayload) as Hplain.
  split; [done|]. split; [|split].
  - intros bytes w Hbytes. unfold decode_fileData, try_catch, lift.
    rewrite Huri. cbn [Buffer_from]. by rewrite Hbytes.
  - intros bytes itemType itemId fileName mimeType description w r1 token r2
      Hbytes Hclient Htoken Hname Hid.
    assert (Hbuf : Buffer_from host (base64Data_of (data_uri mime payload)) = Ok bytes)
      by (by rewrite Huri).
    assert (Htext : data_uri mime payload <> EmptyString) by done.
    destruct (upload_reaches_post itemType itemId fileName mimeType description
                (data_uri mime payload) bytes w r1 token r2
                Hclient Htoken Htext Hname Hbuf Hid)
      as (fields & w3 & Hfield & ->).
    exists fields, w3.
    unfold try_catch, bind, send, lift.
    destruct (transport host _ (remote w3)) as [[response|e] r3] eqn:Hpost.
    + exists (Ok response). split; [done|].
      destruct (get response "data") as [data|e]; [done|].
      by rewrite (proj1 (upload_failed_wire _ _)).
    + exists (Throw e). split; [done|].
      by rewrite (proj1 (upload_failed_wire _ _)).
  - intros Hne itemType itemId fileName mimeType description w.
    unfold Service.uploadAttachment, decode_fileData.
    cbn [ToString]. rewrite Huri, Hplain, !validation_test.
    destruct payload as [|c rest]; [done|]. reflexivity.
Qed.

(** X9: the lookup of the owning project is best effort.  Once the input
    has passed the validations, the upload request is sent whatever the lookup
    does: a lookup that fails (no client, a rejected read, an item without a
    project) leaves the form as it is, and an item with a project adds the
    field [project] with its text.  The form starts with [object_id] and
    [attached_file], then [description] when one is given. *)
Theorem upload_survives_project_lookup
    itemType itemId fileName mimeType description text bytes w r1 token r2 :
  let lookup := GET (item_url (getItemEndpoint API_ENDPOINTS host itemType) itemId) in
  auth_client host (remote w) = (Ok tt, r1) ->
  auth_token host r1 = (Ok token, r2) ->
  text <> EmptyString ->
  non_empty_string fileName = true ->
  Buffer_from host (base64Data_of text) = Ok bytes ->
  is_nullish itemId = false ->
  (exists fields w3 o,
     project_field itemType itemId (World r2 (wire w) (console w)) = (Ok fields, w3) /\
     wire (uploadAttachment itemType itemId (JStr text) fileName mimeType description w).2 =
       wire w3 ++
       [(POST (ToStr (getAttachmentEndpoint API_ENDPOINTS host itemType))
           (([("object_id", Field (JStr (ToStr itemId)));
              ("attached_file", FileField bytes fileName)]
             ++ (if truthy description then [("description", Field description)] else []))
            ++ fields), o)]) /\
  (forall w2 e r,
     auth_client host (remote w2) = (Throw e, r) ->
     project_field itemType itemId w2 = (Ok [], World r (wire w2) (console w2))) /\
  (forall w2 r e r',
     auth_client host (remote w2) = (Ok tt, r) ->
     transport host lookup r = (Throw e, r') ->
     project_field itemType itemId w2 =
       (Ok [], World r' (wire w2 ++ [(lookup, Throw e)]) (console w2))) /\
  (forall w2 r response r' itemData project,
     auth_client host (remote w2) = (Ok tt, r) ->
     transport host lookup r = (Ok response, r') ->
     get response "data" = Ok itemData ->
     get itemData "project" = Ok project ->
     project_field itemType itemId w2 =
       (Ok (if truthy itemData && truthy project
            then [("project", Field (JStr (ToStr project)))] else []),
        World r' (wire w2 ++ [(lookup, Ok response)]) (console w2))).
Proof.
  intros lookup Hclient Htoken Htext Hname Hbytes Hid.
  split; [|split; [|split]].
  - destruct (upload_reaches_post itemType itemId fileName mimeType description text bytes
                w r1 token r2 Hclient Htoken Htext Hname Hbytes Hid)
      as (fields & w3 & Hfield & ->).
    exists fields, w3.
    unfold try_catch, bind, send, lift.
    destruct (transport host _ (remote w3)) as [[response|e] r3] eqn:Hpost.
    + exists (Ok response). split; [done|].
      destruct (get response "data") as [data|e]; [done|].
      by rewrite (proj1 (upload_failed_wire _ _)).
    + exists (Throw e). split; [done|].
      by rewrite (proj1 (upload_failed_wire _ _)).
  - intros w2 e r Hauth.
    unfold Service.project_field, getItemData, try_catch, bind, createAuthenticatedClient.
    by rewrite Hauth.
  - intros w2 r e r' Hauth Hget.
    unfold Service.project_field, getItemData, try_catch, bind, send,
      createAuthenticatedClient.
    rewrite Hauth. cbn [remote wire console]. fold lookup. by rewrite Hget.
  - intros w2 r response r' itemData project Hauth Hget Hdata Hproject.
    unfold Service.project_field, getItemData, toString_of, try_catch, bind, send,
      createAuthenticatedClient, lift, ret.
    rewrite Hauth. cbn [remote wire console]. fold lookup. rewrite Hget, Hdata.
    destruct (truthy itemData); [|done]. rewrite Hproject.
    destruct (truthy project) eqn:Hp; [|done].
    by rewrite (truthy_non_nullish _ Hp).
Qed.

(** X10: when the upload request itself is rejected, the error is told by
    its status, unless its message speaks of base64 or of a callback: 413 is
    a file too large, 401 a failed authentication, 404 a missing endpoint, and
    any other rejection is reported with its message.  The rejected request
    is the last thing sent. *)
Theorem rejected_upload_is_explained
    itemType itemId fileName mimeType description text bytes message status data
    w r1 token r2 fields w3 r3 :
  let upload :=
    POST (ToStr (getAttachmentEndpoint API_ENDPOINTS host itemType))
      (([("object_id", Field (JStr (ToStr itemId)));
         ("attached_file", FileField bytes fileName)]
        ++ (if truthy description then [("description", Field description)] else []))
       ++ fields) in
  auth_client host (remote w) = (Ok tt, r1) ->
  auth_token host r1 = (Ok token, r2) ->
  text <> EmptyString ->
  non_empty_string fileName = true ->
  Buffer_from host (base64Data_of text) = Ok bytes ->
  is_nullish itemId = false ->
  project_field itemType itemId (World r2 (wire w) (console w)) = (Ok fields, w3) ->
  transport host upload (remote w3) = (Throw (http_error message status data), r3) ->
  Str.includes "Invalid base64" message = false ->
  Str.includes "cb is not a function" message = false ->
  uploadAttachment itemType itemId (JStr text) fileName mimeType description w =
    (Throw (mkError
              (if status =? 413 then "File too large for upload"
               else if status =? 401 then "Authentication failed - please check credentials"
               else if status =? 404 then "Upload endpoint not found - check item ID and type"
               else "Failed to upload attachment to Taiga: " +:+ message)),
     World r3 (wire w3 ++ [(upload, Throw (http_error message status data))])
       (console w3)).
Proof.
  intros upload Hclient Htoken Htext Hname Hbytes Hid Hfield Hpost Hb64 Hcb.
  destruct (upload_reaches_post itemType itemId fileName mimeType description text bytes
              w r1 token r2 Hclient Htoken Htext Hname Hbytes Hid)
    as (fields' & w3' & Hfield' & ->).
  rewrite Hfield in Hfield'. injection Hfield' as <- <-.
  unfold try_catch, bind, send. fold upload. rewrite Hpost.
  unfold upload_failed, bind, lift, throw.
  assert (Hm : get (http_error message status data) "message" = Ok (JStr message))
    by reflexivity.
  assert (Hs : response_status (http_error message status data) = Ok (JNum status))
    by reflexivity.
  rewrite Hm. cbn [includes_of]. rewrite Hb64, Hcb, Hs. cbn [strict_eq_num ToString].
  destruct (status =? 413); [done|]. destruct (status =? 401); [done|].
  by destruct (status =? 404).
Qed.
End UploadFacts.
(** ** More about uploads from a path *)

Section PathFacts.
Import Service Failure.
Context {R : Type}.
Variable API_ENDPOINTS : Endpoints.
Variable host : Host R.

#[local] Abbreviation ToStr := (ToString (NumberToString host)).
#[local] Abbreviation uploadAttachment := (uploadAttachment API_ENDPOINTS host).
#[local] Abbreviation uploadAttachmentFromPath :=
  (uploadAttachmentFromPath API_ENDPOINTS host).
#[local] Abbreviation project_field := (project_field API_ENDPOINTS host).

Lemma probe_none paths :
  Forall (fun p => existsSync host p = false) paths -> (probe host paths).2 = None.
Proof.
  induction 1 as [|p paths Hp _ IH]; simpl; [done|].
  rewrite Hp. by destruct (probe host paths).
Qed.

Lemma resolve_none filePath :
  Forall (fun p => existsSync host p = false) (searchedPaths host filePath) ->
  (resolve_filePath host filePath).2 = None.
Proof.
  unfold searchedPaths, resolve_filePath.
  destruct (path_isAbsolute host filePath).
  - intros H. apply Forall_cons in H as [-> _]. done.
  - apply probe_none.
Qed.

(** The path-based upload hands a file that was found and read over to
    [uploadAttachment], under the base name of the resolved path. *)
Lemma from_path_delegates itemType itemId filePath description absolutePath bytes w :
  filePath <> EmptyString ->
  (resolve_filePath host filePath).2 = Some absolutePath ->
  readFileSync host absolutePath = Ok bytes ->
  uploadAttachmentFromPath itemType itemId (JStr filePath) description w =
    try_catch
      (uploadAttachment itemType itemId (JStr (Buffer_to_base64 host bytes))
         (JStr (path_basename host absolutePath))
         (JStr (detectMimeType (path_basename host absolutePath))) description)
      (from_path_failed host) w.
Proof.
  intros Hne Hfound Hread.
  unfold Service.uploadAttachmentFromPath. rewrite validation_test.
  destruct filePath as [|c rest]; [done|].
  cbn [non_empty_string negb ToString]. rewrite Hfound.
  unfold upload_resolved, try_catch, bind, lift. by rewrite Hread.
Qed.

(** X11: a path that leads to no file, or to a file that cannot be read,
    fails before anything else happens: no client is asked for and nothing is
    sent.  The error of a missing file lists every place that was searched,
    one per line: the path itself when it is absolute, the four candidates
    otherwise. *)
Theorem missing_file_is_reported itemType itemId filePath description w :
  filePath <> EmptyString ->
  (Forall (fun p => existsSync host p = false) (searchedPaths host filePath) ->
   uploadAttachmentFromPath itemType itemId (JStr filePath) description w =
     (Throw (mkError ("Failed to upload attachment from path: "
                      +:+ "File not found. Searched paths:" +:+ String "010" EmptyString
                      +:+ join (String "010" EmptyString) (searchedPaths host filePath))),
      w)) /\
  (forall absolutePath e,
     (resolve_filePath host filePath).2 = Some absolutePath ->
     readFileSync host absolutePath = Throw e ->
     is_nullish e = false ->
     uploadAttachmentFromPath itemType itemId (JStr filePath) description w =
       (Throw (mkError ("Failed to upload attachment from path: "
                        +:+ ToStr (get_opt e "message"))), w)).
Proof.
  intros Hne. split.
  - intros Hmissing.
    unfold Service.uploadAttachmentFromPath. rewrite validation_test.
    destruct filePath as [|c rest]; [done|].
    cbn [non_empty_string negb ToString]. rewrite (resolve_none _ Hmissing).
    reflexivity.
  - intros absolutePath e Hfound Hread He.
    unfold Service.uploadAttachmentFromPath. rewrite validation_test.
    destruct filePath as [|c rest]; [done|].
    cbn [non_empty_string negb ToString]. rewrite Hfound.
    unfold upload_resolved, try_catch, bind, lift, from_path_failed, throw.
    rewrite Hread. unfold get_opt. by destruct e.
Qed.

(** X12: the bytes read from the file are the bytes that are posted.
    When the platform's base64 decoding undoes its encoding on the content of
    the file, the upload request carries that content as [attached_file],
    named by the base name of the resolved path, and an accepted upload
    returns the body of the answer. *)
Theorem file_bytes_are_posted
    itemType itemId filePath description absolutePath bytes w r1 token r2 :
  let fileData := Buffer_to_base64 host bytes in
  let fileName := path_basename host absolutePath in
  filePath <> EmptyString ->
  (resolve_filePath host filePath).2 = Some absolutePath ->
  readFileSync host absolutePath = Ok bytes ->
  fileData <> EmptyString ->
  Str.free_of "," fileData = true ->
  Buffer_from_base64 host fileData = Ok bytes ->
  fileName <> EmptyString ->
  auth_client host (remote w) = (Ok tt, r1) ->
  auth_token host r1 = (Ok token, r2) ->
  is_nullish itemId = false ->
  exists fields w3 o,
    project_field itemType itemId (World r2 (wire w) (console w)) = (Ok fields, w3) /\
    wire (uploadAttachmentFromPath itemType itemId (JStr filePath) description w).2 =
      wire w3 ++
      [(POST (ToStr (getAttachmentEndpoint API_ENDPOINTS host itemType))
          (([("object_id", Field (JStr (ToStr itemId)));
             ("attached_file", FileField bytes (JStr fileName))]
            ++ (if truthy description then [("description", Field description)] else []))
           ++ fields), o)] /\
    (forall response,
       o = Ok response -> is_nullish response = false ->
       (uploadAttachmentFromPath itemType itemId (JStr filePath) description w).1 =
         Ok (get_opt response "data")).
Proof.
  intros fileData fileName Hne Hfound Hread Hdata Hfree Hdecode Hname Hclient Htoken Hid.
  rewrite (from_path_delegates _ _ _ _ _ _ _ Hne Hfound Hread).
  fold fileData fileName.
  assert (Hbuf : Buffer_from host (base64Data_of fileData) = Ok bytes).
  { unfold base64Data_of. rewrite includes_char, Hfree. exact Hdecode. }
  assert (Hfile : non_empty_string (JStr fileName) = true)
    by (destruct fileName; done).
  destruct (upload_reaches_post API_ENDPOINTS host itemType itemId (JStr fileName)
              (JStr (detectMimeType fileName)) description fileData bytes
              w r1 token r2 Hclient Htoken Hdata Hfile Hbuf Hid)
    as (fields & w3 & Hfield & Hupload).
  exists fields, w3.
  unfold try_catch. rewrite Hupload.
  unfold try_catch, bind, send, lift.
  destruct (transport host _ (remote w3)) as [[response|e] r3] eqn:Hpost.
  - exists (Ok response). split; [done|].
    destruct (get response "data") as [data|e] eqn:Hd.
    + split; [done|]. intros ? [= <-] Hr. cbn [fst].
      rewrite (get_of_non_nullish _ "data" Hr) in Hd. by injection Hd as <-.
    + pose proof (upload_failed_wire host e
                    (World r3 (wire w3 ++ [(POST (ToStr (getAttachmentEndpoint
                       API_ENDPOINTS host itemType))
                       (([("object_id", Field (JStr (ToStr itemId)));
                          ("attached_file", FileField bytes (JStr fileName))]
                         ++ (if truthy description
                             then [("description", Field description)] else []))
                        ++ fields), Ok response)]) (console w3))) as [Hw _].
      destruct (upload_failed host e _) as [[v|e'] w4] eqn:Hfail.
      * split; [exact Hw|]. intros ? [= <-] Hr.
        by rewrite (get_of_non_nullish _ "data" Hr) in Hd.
      * cbn [snd] in Hw. unfold from_path_failed, bind, lift, throw.
        split.
        -- by destruct (get e' "message").
        -- intros ? [= <-] Hr. by rewrite (get_of_non_nullish _ "data" Hr) in Hd.
  - exists (Throw e). 
    pose proof (upload_failed_wire host e
                  (World r3 (wire w3 ++ [(POST (ToStr (getAttachmentEndpoint
                     API_ENDPOINTS host itemType))
                     (([("object_id", Field (JStr (ToStr itemId)));
                        ("attached_file", FileField bytes (JStr fileName))]
                       ++ (if truthy description
                           then [("description", Field description)] else []))
                      ++ fields), Throw e)]) (console w3))) as [Hw _].
    destruct (upload_failed host e _) as [[v|e'] w4] eqn:Hfail.
    + split; [done|]. split; [exact Hw|]. done.
    + cbn [snd] in Hw. unfold from_path_failed, bind, lift, throw.
      split; [done|]. split; [by destruct (get e' "message")|done].
Qed.

(** X13: a file whose content encodes to the empty string (an empty file)
    cannot be uploaded from a path: once the client and the token have been
    obtained the upload is refused as invalid file data, wrapped once by each
    of the two methods, and nothing is sent. *)
Theorem empty_file_is_refused
    itemType itemId filePath description absolutePath bytes w r1 token r2 :
  filePath <> EmptyString ->
  (resolve_filePath host filePath).2 = Some absolutePath ->
  readFileSync host absolutePath = Ok bytes ->
  Buffer_to_base64 host bytes = EmptyString ->
  auth_client host (remote w) = (Ok tt, r1) ->
  auth_token host r1 = (Ok token, r2) ->
  uploadAttachmentFromPath itemType itemId (JStr filePath) description w =
    (Throw (mkError ("Failed to upload attachment from path: "
                     +:+ "Failed to upload attachment to Taiga: "
                     +:+ "Invalid file data: fileData must be a base64 encoded string")),
     World r2 (wire w) (console w)).
Proof.
  intros Hne Hfound Hread Hempty Hclient Htoken.
  rewrite (from_path_delegates _ _ _ _ _ _ _ Hne Hfound Hread), Hempty.
  unfold Service.uploadAttachment, try_catch, bind, createAuthenticatedClient,
    getAuthToken.
  rewrite Hclient. cbn [remote]. rewrite Htoken. rewrite !validation_test.
  cbn [non_empty_string negb orb throw].
  by rewrite upload_failed_plain.
Qed.
End PathFacts.
(** ** File names and item types *)

Lemma split_nonempty sep (s : string) : Str.split sep s <> [].
Proof.
  destruct s as [|c s]; simpl; [done|].
  destruct (Ascii.eqb c sep); [done|]. by destruct (Str.split sep s).
Qed.

Lemma split_app sep (a b : string) :
  Str.split sep (a +:+ String sep b) = Str.split sep a ++ Str.split sep b.
Proof.
  induction a as [|c a IH].
  - change (EmptyString +:+ String sep b) with (String sep b). simpl.
    by rewrite Ascii.eqb_refl.
  - rewrite string_app_cons. simpl. rewrite IH.
    destruct (Ascii.eqb c sep); [done|].
    pose proof (split_nonempty sep a). by destruct (Str.split sep a).
Qed.

Lemma last_app_nonempty {A} (l1 l2 : list A) : l2 <> [] -> last (l1 ++ l2) = last l2.
Proof.
  intros H. destruct l2 as [|x l2 _] using rev_ind; [done|].
  by rewrite app_assoc, !last_snoc.
Qed.

Lemma toLowerCase_app (a b : string) :
  Str.toLowerCase (a +:+ b) = Str.toLowerCase a +:+ Str.toLowerCase b.
Proof.
  induction a as [|c a IH]; [done|]. rewrite string_app_cons. simpl. by rewrite IH.
Qed.

Lemma lower_idempotent c : Str.lower (Str.lower c) = Str.lower c.
Proof. by destruct c as [[] [] [] [] [] [] [] []]. Qed.

Lemma toLowerCase_idempotent (s : string) :
  Str.toLowerCase (Str.toLowerCase s) = Str.toLowerCase s.
Proof.
  induction s as [|c s IH]; [done|]. simpl. by rewrite lower_idempotent, IH.
Qed.

Section Types.
Import Service Requests.
Context {R : Type}.
Variable API_ENDPOINTS : Endpoints.
Variable host : Host R.

#[local] Abbreviation ToStr := (ToString (NumberToString host)).
#[local] Abbreviation item_url := (item_url host).

(** X14: the MIME type of a file name is decided by what follows its last
    dot alone, whatever the case of the letters: the text before a dot never
    matters, and a name gets the type of its lower-case spelling. *)
Theorem mime_type_by_last_extension (stem rest name : string) :
  detectMimeType (stem +:+ "." +:+ rest) = detectMimeType rest /\
  detectMimeType (Str.toLowerCase name) = detectMimeType name.
Proof.
  split.
  - unfold detectMimeType.
    rewrite toLowerCase_app.
    change (Str.toLowerCase ("." +:+ rest)) with (String "." (Str.toLowerCase rest)).
    by rewrite split_app, (last_app_nonempty _ _ (split_nonempty _ _)).
  - unfold detectMimeType. by rewrite toLowerCase_idempotent.
Qed.

Lemma endpoint_fallback (a b c : JsVal) (key : string) :
  key <> "user_story" -> key <> "task" ->
  or_else (default JUndefined
             ((<["issue" := a]> (<["user_story" := b]> {[ "task" := c ]})
               : gmap string JsVal) !! key)) a = a.
Proof.
  intros Hs Ht. unfold or_else.
  destruct (decide (key = "issue")) as [->|Hi].
  - rewrite lookup_insert_eq. simpl. by destruct (truthy a).
  - by rewrite lookup_insert_ne, lookup_insert_ne, lookup_singleton_ne.
Qed.

(** X15: an item type other than [user_story] and [task] is taken for an
    issue: the item and attachment endpoints are those of issues, and a
    comment on such an item reads and writes the issue of that number and
    nothing else.  (Item types that are names inherited from
    [Object.prototype] are left aside.) *)
Theorem unknown_item_type_means_issue itemType itemId commentData w :
  ToStr itemType ∉ inherited_names ->
  ToStr itemType <> "user_story" ->
  ToStr itemType <> "task" ->
  getItemEndpoint API_ENDPOINTS host itemType = JStr (ISSUES API_ENDPOINTS) /\
  getAttachmentEndpoint API_ENDPOINTS host itemType
    = JStr (ISSUE_ATTACHMENTS API_ENDPOINTS) /\
  exists exchanged,
    wire (addComment API_ENDPOINTS host itemType itemId commentData w).2
      = wire w ++ exchanged /\
    Forall (fun x => url_of x.1 = item_url (JStr (ISSUES API_ENDPOINTS)) itemId) exchanged.
Proof.
  intros _ Hs Ht.
  assert (He : getItemEndpoint API_ENDPOINTS host itemType = JStr (ISSUES API_ENDPOINTS))
    by (by apply endpoint_fallback).
  split; [exact He|]. split; [by apply endpoint_fallback|].
  destruct (addComment_exchange API_ENDPOINTS host itemType itemId commentData w)
    as (exchanged & Hwire & Hshape).
  exists exchanged. split; [exact Hwire|].
  rewrite He in Hshape.
  inversion Hshape; subst; repeat constructor.
Qed.
End Types.
(** ** Facts about the listing methods *)

Section ListingFacts.
Import Service Listing.
Context {R : Type}.
Variable API_ENDPOINTS : Endpoints.
Variable CONSTANTS : Constants.
Variable host : Host R.
Variable client_get : query -> R -> outcome JsVal * R.

#[local] Abbreviation ToStr := (ToString (NumberToString host)).
#[local] Abbreviation fetchPage := (fetchPage client_get).
#[local] Abbreviation paginate := (paginate host client_get).
#[local] Abbreviation listing := (listing host client_get).

Lemma spread_page_params fixed p :
  spread fixed (Pagination.page_params ∅ p) = <["page" := JNum p]> fixed.
Proof.
  unfold spread, Pagination.page_params.
  by rewrite <- insert_union_l, (left_id_L ∅ (∪)).
Qed.

(** The closure sends one query per call, the query of the page asked for. *)
Lemma fetchPage_serves url fixed p s outcomes s' :
  Pagination.serves (fetchPage url fixed) ∅ p s outcomes s' ->
  s'.2.*1 = s.2.*1 ++ (page_query url fixed <$> seqZ p (Z.of_nat (length outcomes))).
Proof.
  induction 1 as [p s|p s o s1 outcomes s' Hf _ IH].
  - simpl. by rewrite app_nil_r.
  - rewrite IH. unfold Listing.fetchPage in Hf. rewrite spread_page_params in Hf.
    destruct (client_get _ s.1) as [o' r']. injection Hf as <- <-.
    cbn [snd]. rewrite fmap_app, <- app_assoc. f_equal.
    simpl length. replace (Z.of_nat (S (length outcomes)))
      with (Z.succ (Z.of_nat (length outcomes))) by lia.
    rewrite (seqZ_cons p) by lia. rewrite Z.pred_succ, fmap_cons.
    by replace (Z.succ p) with (p + 1) by lia.
Qed.

Lemma paginate_trace url fixed w :
  exists n : nat,
    (n <= 100)%nat /\
    (sent (paginate url fixed w).2).*1 =
      (sent w).*1 ++ (page_query url fixed <$> seqZ 1 (Z.of_nat n)) /\
    errors (paginate url fixed w).2 = errors w.
Proof.
  unfold Listing.paginate.
  set (pw := Pagination.World (remote w, sent w) [] (warnings w)).
  destruct (while_loop_trace (NumberToString host) (fetchPage url fixed) ∅ 100
              (Z.to_nat 100) [] 1 pw)
    as (outcomes & s' & Hserves & Hrem & _ & Hlen & _).
  destruct (fetchAllPaginated_world (NumberToString host) (fetchPage url fixed) ∅ 100 pw)
    as (Hrem' & _ & _).
  rewrite <- Hrem' in Hrem.
  destruct (Pagination.fetchAllPaginated _ _ _ _ pw) as [o pw'].
  cbn [fst snd sent errors] in *. subst s'.
  exists (length outcomes). split; [exact Hlen|]. split; [|done].
  exact (fetchPage_serves _ _ _ _ _ _ Hserves).
Qed.

Lemma paginate_total url fixed w :
  (forall q r e r', client_get q r = (Throw e, r') -> is_nullish e = false) ->
  exists items, (paginate url fixed w).1 = Ok items.
Proof.
  intros Hrej. unfold Listing.paginate.
  set (pw := Pagination.World (remote w, sent w) [] (warnings w)).
  assert (Hrej' : Pagination.rejects_with_errors (fetchPage url fixed)).
  { intros params s e s' Hf. unfold Listing.fetchPage in Hf.
    destruct (client_get _ s.1) as [o r] eqn:Hget. injection Hf as -> _.
    by eapply Hrej. }
  destruct (while_loop_total (NumberToString host) (fetchPage url fixed) ∅ 100
              (Z.to_nat 100) [] 1 true pw Hrej') as ([allItems currentPage] & pw' & Hloop).
  rewrite (fetchAllPaginated_unfold _ _ _ _ _ _ _ _ Hloop). eauto.
Qed.

Lemma listing_asks_for_pages url fixed label msg :
  asks_for_pages (listing url fixed label msg) url fixed.
Proof.
  intros w. unfold Listing.listing, try_catch, bind, Listing.createAuthenticatedClient.
  destruct (auth_client host (remote w)) as [[[]|e] r].
  - set (w1 := World r (sent w) (warnings w) (errors w)).
    destruct (paginate_trace url fixed w1) as (n & Hn & Hsent & _).
    exists n. split; [done|].
    destruct (paginate url fixed w1) as [[all|e] w2]; cbn [snd] in *.
    + exact Hsent.
    + unfold log_and_throw, bind, lift, console_error, throw.
      by destruct (get e "message").
  - exists 0%nat. split; [lia|]. rewrite app_nil_r.
    unfold log_and_throw, bind, lift, console_error, throw.
    by destruct (get e "message").
Qed.

Lemma listing_fails_only_without_client url fixed label msg :
  (forall q r e r', client_get q r = (Throw e, r') -> is_nullish e = false) ->
  fails_only_without_client host (listing url fixed label msg) label msg.
Proof.
  intros Hrej w. split.
  - intros r Hauth.
    unfold Listing.listing, try_catch, bind, Listing.createAuthenticatedClient.
    rewrite Hauth.
    set (w1 := World r (sent w) (warnings w) (errors w)).
    destruct (paginate_total url fixed w1 Hrej) as [items Hitems].
    destruct (paginate_trace url fixed w1) as (_ & _ & _ & Herr).
    destruct (paginate url fixed w1) as [[all|e] w2]; [|done].
    exists all. by split.
  - intros e r Hauth He.
    unfold Listing.listing, try_catch, bind, Listing.createAuthenticatedClient.
    rewrite Hauth. unfold log_and_throw, bind, lift, console_error, throw, get_opt.
    by destruct e.
Qed.

(** X16: each project listing asks the endpoint of its kind for pages 1,
    2, ..., n with n at most 100, every query carrying the project (and the
    milestone, for the issues of a milestone) next to the page number, and
    sends nothing else. *)
Theorem listings_ask_for_pages projectId milestoneId :
  asks_for_pages (listUserStories API_ENDPOINTS CONSTANTS host client_get projectId)
    (USER_STORIES API_ENDPOINTS) {[ "project" := projectId ]} /\
  asks_for_pages (listIssues API_ENDPOINTS CONSTANTS host client_get projectId)
    (ISSUES API_ENDPOINTS) {[ "project" := projectId ]} /\
  asks_for_pages (listMilestones CONSTANTS host client_get projectId)
    (MILESTONES CONSTANTS) {[ "project" := projectId ]} /\
  asks_for_pages (getIssuesByMilestone API_ENDPOINTS host client_get projectId milestoneId)
    (ISSUES API_ENDPOINTS) (<["project" := projectId]> {[ "milestone" := milestoneId ]}) /\
  asks_for_pages (listEpics API_ENDPOINTS host client_get projectId)
    (EPICS API_ENDPOINTS) {[ "project" := projectId ]} /\
  asks_for_pages (listWikiPages API_ENDPOINTS CONSTANTS host client_get projectId)
    (WIKI API_ENDPOINTS) {[ "project" := projectId ]} /\
  (forall url fixed p,
     page_query url fixed p = Get url (Some (<["page" := JNum p]> fixed)) /\
     (forall key, key <> "page" ->
        (<["page" := JNum p]> fixed : gmap string JsVal) !! key = fixed !! key)).
Proof.
  repeat split; try apply listing_asks_for_pages.
  intros key Hkey. by rewrite lookup_insert_ne.
Qed.

(** X17: a project listing reports a failure only when no client could be
    obtained.  With a client, and a transport whose rejections carry an error
    value, it always returns an array (what was read before a page failed, at
    worst the empty array) and writes no error; its own error message is
    thrown for a missing client alone, before anything is sent. *)
Theorem listings_fail_only_without_client projectId milestoneId :
  (forall q r e r', client_get q r = (Throw e, r') -> is_nullish e = false) ->
  fails_only_without_client host
    (listUserStories API_ENDPOINTS CONSTANTS host client_get projectId)
    ("Failed to list user stories for project " +:+ ToStr projectId +:+ ":")
    (FAILED_TO_LIST_USER_STORIES CONSTANTS) /\
  fails_only_without_client host
    (listIssues API_ENDPOINTS CONSTANTS host client_get projectId)
    ("Failed to list issues for project " +:+ ToStr projectId +:+ ":")
    (FAILED_TO_LIST_ISSUES CONSTANTS) /\
  fails_only_without_client host
    (listMilestones CONSTANTS host client_get projectId)
    ("Failed to list milestones for project " +:+ ToStr projectId +:+ ":")
    (FAILED_TO_LIST_MILESTONES CONSTANTS) /\
  fails_only_without_client host
    (getIssuesByMilestone API_ENDPOINTS host client_get projectId milestoneId)
    ("Failed to get issues for milestone " +:+ ToStr milestoneId +:+ ":")
    "Failed to get issues by milestone from Taiga" /\
  fails_only_without_client host
    (listEpics API_ENDPOINTS host client_get projectId)
    "Failed to list epics:" "Failed to list epics from Taiga" /\
  fails_only_without_client host
    (listWikiPages API_ENDPOINTS CONSTANTS host client_get projectId)
    "Failed to list wiki pages:" (FAILED_TO_LIST_WIKI CONSTANTS).
Proof.
  intros Hrej. repeat split; by apply listing_fails_only_without_client.
Qed.

(** X18: a failed first page is not an error of a listing: when the query
    of page 1 is rejected, the listing returns the empty array, having sent
    that one query and warned on the console that pagination stopped at
    page 1. *)
Theorem rejected_first_page_lists_nothing url fixed label msg e w r1 r2 :
  is_nullish e = false ->
  auth_client host (remote w) = (Ok tt, r1) ->
  client_get (page_query url fixed 1) r1 = (Throw e, r2) ->
  listing url fixed label msg w =
    (Ok (JArr []),
     World r2 (sent w ++ [(page_query url fixed 1, Throw e)])
       (warnings w ++ ["Pagination stopped at page " +:+ NumberToString host 1 +:+ ": "
                       +:+ ToStr (get_opt e "message")])
       (errors w)).
Proof.
  intros He Hauth Hget.
  unfold Listing.listing, try_catch, bind, Listing.createAuthenticatedClient.
  rewrite Hauth. unfold Listing.paginate. cbn [remote sent warnings errors].
  set (pw := Pagination.World (r1, sent w) [] (warnings w)).
  assert (Hloop :
    Pagination.while_loop (NumberToString host) (fetchPage url fixed) ∅ 100
      (Z.to_nat 100) [] 1 true pw =
    (Ok ([], 1),
     Pagination.World (r2, sent w ++ [(page_query url fixed 1, Throw e)])
       [Pagination.page_params ∅ 1]
       (warnings w ++ ["Pagination stopped at page " +:+ NumberToString host 1 +:+ ": "
                       +:+ ToStr (get_opt e "message")]))).
  { change (Z.to_nat 100) with (S 99).
    rewrite (while_loop_turn (NumberToString host) (fetchPage url fixed) ∅ 100) by lia.
    unfold bind, Pagination.iteration, Pagination.call_fetch, Listing.fetchPage.
    rewrite spread_page_params. unfold pw.
    cbn [Pagination.remote Pagination.calls Pagination.console fst snd].
    unfold page_query in Hget. rewrite Hget.
    unfold Pagination.on_error, bind, lift, Pagination.console_warn, ret.
    rewrite (get_of_non_nullish e "message" He). reflexivity. }
  rewrite (fetchAllPaginated_unfold _ _ _ _ _ _ _ _ Hloop).
  reflexivity.
Qed.

(** X19: [listProjects] lists the projects of the current user: it first
    asks who the user is, then asks for pages of projects whose [member] is
    the [id] of the answer; when the user cannot be read, no project is asked
    for and the failure is reported as a failure to list projects. *)
Theorem listProjects_of_current_user w r1 r2 o r3 :
  auth_client host (remote w) = (Ok tt, r1) ->
  auth_client host r1 = (Ok tt, r2) ->
  client_get (Get (USERS_ME CONSTANTS) None) r2 = (o, r3) ->
  let who := Get (USERS_ME CONSTANTS) None in
  (forall response currentUser,
     o = Ok response -> get response "data" = Ok currentUser ->
     is_nullish currentUser = false ->
     exists n : nat,
       (n <= 100)%nat /\
       (sent (listProjects CONSTANTS host client_get w).2).*1 =
         (sent w).*1 ++ who ::
           (page_query (PROJECTS CONSTANTS) {[ "member" := get_opt currentUser "id" ]}
              <$> seqZ 1 (Z.of_nat n))) /\
  (forall e, o = Throw e -> is_nullish e = false ->
     listProjects CONSTANTS host client_get w =
       (Throw (mkError (FAILED_TO_LIST_PROJECTS CONSTANTS)),
        World r3 (sent w ++ [(who, Throw e)]) (warnings w)
          (errors w ++ [[JStr "Failed to get current user:"; get_opt e "message"];
                        [JStr "Failed to list projects:";
                         JStr "Failed to get user information from Taiga"]]))).
Proof.
  intros Hauth1 Hauth2 Hget who. split.
  - intros response currentUser -> Hdata Huser.
    unfold listProjects, getCurrentUser, try_catch, bind, Listing.send, lift,
      Listing.createAuthenticatedClient.
    rewrite Hauth1. cbn [remote sent warnings errors].
    rewrite Hauth2. cbn [remote sent warnings errors].
    rewrite Hget, Hdata, (get_of_non_nullish currentUser "id" Huser).
    set (w1 := World r3 _ (warnings w) (errors w)).
    destruct (paginate_trace (PROJECTS CONSTANTS)
                {[ "member" := get_opt currentUser "id" ]} w1) as (n & Hn & Hsent & _).
    exists n. split; [done|].
    assert (Hw1 : (sent w1).*1 = (sent w).*1 ++ [who])
      by (unfold w1; cbn [sent]; by rewrite fmap_app).
    rewrite Hw1, <- app_assoc in Hsent.
    destruct (paginate _ _ w1) as [[all|e] w2]; cbn [snd] in *.
    + exact Hsent.
    + unfold log_and_throw, bind, lift, console_error, throw.
      by destruct (get e "message").
  - intros e -> He.
    unfold listProjects, getCurrentUser, try_catch, bind, Listing.send, lift,
      Listing.createAuthenticatedClient.
    rewrite Hauth1. cbn [remote sent warnings errors].
    rewrite Hauth2. cbn [remote sent warnings errors].
    rewrite Hget. unfold log_and_throw, bind, lift, console_error, throw.
    rewrite (get_of_non_nullish e "message" He). cbn [remote sent warnings errors].
    rewrite mkError_message. cbn [remote sent warnings errors].
    by rewrite <- app_assoc.
Qed.
End ListingFacts.
(** ** The further facts on the worked examples *)

Section TraversalCases.
Import Pagination Examples Cases.

Lemma bare_array_is_the_only_page_witness :
  fetchAllPaginated pretty bare_array ∅ 100 w0 =
    (Ok [id_item 1; id_item 2], World 1 (calls w0 ++ [page_params ∅ 1]) (console w0)).
Proof.
  apply (bare_array_is_the_only_page pretty bare_array ∅ 100 w0
           (JObj {[ "data" := JArr [id_item 1; id_item 2] ]}) [id_item 1; id_item 2] 1).
  - lia.
  - reflexivity.
  - left. reflexivity.
Defined.

Lemma truncation_is_warned_witness :
  fetchAllPaginated pretty always_next ∅ 2 w0 =
    (Ok (all_items first_two_of_many),
     World 2 (calls w0 ++ (page_params ∅ <$> seqZ 1 (Z.of_nat (length first_two_of_many))))
       (console w0 ++ ["Reached maximum page limit (" +:+ pretty 2
                       +:+ "). Results may be incomplete."])).
Proof.
  apply (truncation_is_warned pretty always_next ∅ 2 (responses_of first_two_of_many)
           first_two_of_many w0 2).
  - apply responses_of_envelopes.
  - repeat constructor; discriminate.
  - repeat (eapply serves_cons; [vm_compute; reflexivity|]). apply serves_nil.
  - reflexivity.
Defined.

Lemma empty_page_ends_traversal_witness :
  fetchAllPaginated pretty empty_second_page ∅ 100 w0 =
    (Ok (all_items page_then_nothing),
     World 2
       (calls w0 ++
        (page_params ∅ <$>
         seqZ 1 (Z.of_nat (length (page_then_nothing ++ [([], JStr "page3")])))))
       (console w0)).
Proof.
  apply (empty_page_ends_traversal pretty empty_second_page ∅ 100
           (responses_of (page_then_nothing ++ [([], JStr "page3")]))
           page_then_nothing ([], JStr "page3") w0 2).
  - apply responses_of_envelopes.
  - repeat constructor; discriminate.
  - reflexivity.
  - repeat (eapply serves_cons; [vm_compute; reflexivity|]). apply serves_nil.
  - vm_compute. discriminate.
Defined.

(** The runaway endpoint cut at two pages: two items, two calls, one
    warning. *)
Example runaway_cut_at_two :
  fetchAllPaginated pretty always_next ∅ 2 w0 =
    (Ok [id_item 1; id_item 2], World 2 [page_params ∅ 1; page_params ∅ 2]
       ["Reached maximum page limit (2). Results may be incomplete."]).
Proof. vm_compute. reflexivity. Qed.
End TraversalCases.

Section ServiceCases.
Import Service Failure Requests Examples Cases.

#[local] Abbreviation served := (mock_host versioned true).
#[local] Abbreviation locked_out := (mock_host versioned false).
#[local] Abbreviation praise := (JObj {[ "comment" := JStr "Looks good" ]}).

Lemma failures_are_masked_witness :
  (getIssue endpoints error_messages unknown_item (JNum 7) (s0 5)).1 =
    Throw (mkError "Failed to get issue details from Taiga") /\
  response_status (mkError "Failed to get issue details from Taiga") = Ok JUndefined.
Proof.
  destruct (failures_are_masked endpoints error_messages unknown_item
              (JNum 7) (JNum 7) (JNum 7) (JNum 7) ∅ (s0 5)
              (mkError "Failed to get issue details from Taiga"))
    as (Hissue & _ & _ & _ & _ & _ & _ & Hstatus).
  split; [reflexivity|].
  exact (proj1 (Hstatus _ (Hissue eq_refl))).
Defined.

Lemma failed_read_is_explained_witness :
  addComment endpoints unknown_item (JStr "issue") (JNum 7) praise (s0 5) =
    (Throw (mkError "Failed to add comment to Taiga: issue #7 not found"),
     World 5 [(GET "/issues/7", Throw (refusal 404))] []).
Proof.
  destruct (failed_read_is_explained endpoints unknown_item (JStr "issue") (JNum 7) praise
              (refusal 404) (s0 5) 5 5 5 eq_refl eq_refl eq_refl eq_refl) as [_ Hcomment].
  exact Hcomment.
Defined.

Lemma rejected_comment_is_explained_witness :
  addComment endpoints read_only (JStr "issue") (JNum 7) praise (s0 5) =
    (Throw (mkError
              "Failed to add comment to Taiga: Permission denied. Check your access rights."),
     World 5
       [(GET "/issues/7", Ok (JObj {[ "data" := versioned 5 ]}));
        (PATCH "/issues/7"
           (JObj (<["comment" := JStr "Looks good"]> {[ "version" := JNum 5 ]})),
         Throw (refusal 403))] []).
Proof.
  exact (rejected_comment_is_explained endpoints read_only (JStr "issue") (JNum 7) praise
           (JObj {[ "data" := versioned 5 ]}) (JNum 5) (refusal 403) (s0 5) 5 5 5 5
           eq_refl eq_refl eq_refl eq_refl eq_refl eq_refl eq_refl).
Defined.

Lemma upload_survives_project_lookup_witness :
  project_field endpoints (mock_host in_project true) (JStr "issue") (JNum 7) (s0 5) =
    (Ok [("project", Field (JStr "3"))],
     World 5 [(GET "/issues/7", Ok (JObj {[ "data" := in_project 5 ]}))] []) /\
  project_field endpoints locked_out (JStr "issue") (JNum 7) (s0 5) = (Ok [], s0 5).
Proof.
  destruct (upload_survives_project_lookup endpoints (mock_host in_project true)
              (JStr "issue") (JNum 7) (JStr "a.txt") JUndefined JUndefined "aGVsbG8="
              (String.list_byte_of_string "aGVsbG8=") (s0 5) 5 (JStr "token") 5
              eq_refl eq_refl ltac:(discriminate) eq_refl eq_refl eq_refl)
    as (_ & _ & _ & Hfound).
  split.
  - exact (Hfound (s0 5) 5 (JObj {[ "data" := in_project 5 ]}) 5 (in_project 5) (JNum 3)
             eq_refl eq_refl eq_refl eq_refl).
  - reflexivity.
Defined.

(** An upload to an item of project 3: the lookup, then the form with the
    project. *)
Example upload_with_project :
  wire (uploadAttachment endpoints (mock_host in_project true) (JStr "issue") (JNum 7)
          (JStr "aGVsbG8=") (JStr "a.txt") JUndefined (JStr "notes") (s0 5)).2 =
    [(GET "/issues/7", Ok (JObj {[ "data" := in_project 5 ]}));
     (POST "/issues/attachments"
        [("object_id", Field (JStr "7"));
         ("attached_file", FileField (String.list_byte_of_string "aGVsbG8=") (JStr "a.txt"));
         ("description", Field (JStr "notes"));
         ("project", Field (JStr "3"))],
      Ok (JObj {[ "data" := JObj {[ "id" := JNum 1 ]} ]}))].
Proof. vm_compute. reflexivity. Qed.

Lemma rejected_upload_is_explained_witness :
  uploadAttachment endpoints small_quota (JStr "issue") (JNum 7) (JStr "aGVsbG8=")
    (JStr "a.txt") JUndefined JUndefined (s0 5) =
    (Throw (mkError "File too large for upload"),
     World 5
       [(GET "/issues/7", Ok (JObj {[ "data" := versioned 5 ]}));
        (POST "/issues/attachments"
           [("object_id", Field (JStr "7"));
            ("attached_file", FileField (String.list_byte_of_string "aGVsbG8=") (JStr "a.txt"))],
         Throw (refusal 413))] []).
Proof.
  exact (rejected_upload_is_explained endpoints small_quota (JStr "issue") (JNum 7)
           (JStr "a.txt") JUndefined JUndefined "aGVsbG8="
           (String.list_byte_of_string "aGVsbG8=")
           ("Request failed with status code " +:+ pretty 413) 413 JNull
           (s0 5) 5 (JStr "token") 5 []
           (World 5 [(GET "/issues/7", Ok (JObj {[ "data" := versioned 5 ]}))] []) 5
           eq_refl eq_refl ltac:(discriminate) eq_refl eq_refl eq_refl eq_refl eq_refl
           eq_refl eq_refl).
Defined.

Lemma data_uri_header_stripped_witness :
  base64Data_of (data_uri "image/png" "aGVsbG8=") = JStr "aGVsbG8=" /\
  decode_fileData served (data_uri "image/png" "aGVsbG8=") (s0 5) =
    (Ok (String.list_byte_of_string "aGVsbG8="), s0 5) /\
  exists fields w3 o,
    project_field endpoints served (JStr "issue") (JNum 7) (s0 5) = (Ok fields, w3) /\
    wire (uploadAttachment endpoints served (JStr "issue") (JNum 7)
            (JStr (data_uri "image/png" "aGVsbG8=")) (JStr "a.png") JUndefined JUndefined
            (s0 5)).2 =
      wire w3 ++
      [(POST "/issues/attachments"
          (([("object_id", Field (JStr "7"));
             ("attached_file",
              FileField (String.list_byte_of_string "aGVsbG8=") (JStr "a.png"))]
            ++ []) ++ fields), o)].
Proof.
  destruct (data_uri_header_stripped endpoints served "image/png" "aGVsbG8="
              eq_refl eq_refl) as (Hdata & Hdecode & Hpost & _).
  split; [exact Hdata|]. split; [apply Hdecode; reflexivity|].
  apply (Hpost (String.list_byte_of_string "aGVsbG8=") (JStr "issue") (JNum 7)
           (JStr "a.png") JUndefined JUndefined (s0 5) 5 (JStr "token") 5);
    reflexivity.
Defined.

(** A picture sent as a data URI: what is posted is the payload. *)
Example data_uri_uploaded :
  wire (uploadAttachment endpoints served (JStr "issue") (JNum 7)
          (JStr (data_uri "image/png" "aGVsbG8=")) (JStr "a.png") JUndefined JUndefined
          (s0 5)).2 =
    [(GET "/issues/7", Ok (JObj {[ "data" := versioned 5 ]}));
     (POST "/issues/attachments"
        [("object_id", Field (JStr "7"));
         ("attached_file", FileField (String.list_byte_of_string "aGVsbG8=") (JStr "a.png"))],
      Ok (JObj {[ "data" := JObj {[ "id" := JNum 1 ]} ]}))].
Proof. vm_compute. reflexivity. Qed.

Lemma missing_file_is_reported_witness :
  uploadAttachmentFromPath endpoints served (JStr "issue") (JNum 7) (JStr "notes.txt")
    JUndefined (s0 5) =
    (Throw (mkError ("Failed to upload attachment from path: "
                     +:+ "File not found. Searched paths:" +:+ String "010" EmptyString
                     +:+ join (String "010" EmptyString)
                           ["/srv/app/notes.txt"; "/home/ada/notes.txt";
                            "/home/ada/Desktop/notes.txt";
                            "/home/ada/Downloads/notes.txt"])),
     s0 5).
Proof.
  apply (proj1 (missing_file_is_reported endpoints served (JStr "issue") (JNum 7)
                  "notes.txt" JUndefined (s0 5) ltac:(discriminate))).
  repeat constructor.
Defined.

Lemma file_bytes_are_posted_witness :
  exists fields w3 o,
    project_field endpoints served (JStr "issue") (JNum 7) (s0 5) = (Ok fields, w3) /\
    wire (uploadAttachmentFromPath endpoints served (JStr "issue") (JNum 7)
            (JStr "report.pdf") JUndefined (s0 5)).2 =
      wire w3 ++
      [(POST "/issues/attachments"
          (([("object_id", Field (JStr "7"));
             ("attached_file",
              FileField (String.list_byte_of_string "JVBERi0x") (JStr "report.pdf"))]
            ++ []) ++ fields), o)] /\
    (forall response,
       o = Ok response -> is_nullish response = false ->
       (uploadAttachmentFromPath endpoints served (JStr "issue") (JNum 7)
          (JStr "report.pdf") JUndefined (s0 5)).1 = Ok (get_opt response "data")).
Proof.
  apply (file_bytes_are_posted endpoints served (JStr "issue") (JNum 7) "report.pdf"
           JUndefined desktop_file (String.list_byte_of_string "JVBERi0x") (s0 5)
           5 (JStr "token") 5).
  - discriminate.
  - reflexivity.
  - reflexivity.
  - discriminate.
  - reflexivity.
  - reflexivity.
  - discriminate.
  - reflexivity.
  - reflexivity.
  - reflexivity.
Defined.

(** The file found on the Desktop goes out under its base name. *)
Example desktop_file_uploaded :
  uploadAttachmentFromPath endpoints served (JStr "issue") (JNum 7) (JStr "report.pdf")
    JUndefined (s0 5) =
    (Ok (JObj {[ "id" := JNum 1 ]}),
     World 5
       [(GET "/issues/7", Ok (JObj {[ "data" := versioned 5 ]}));
        (POST "/issues/attachments"
           [("object_id", Field (JStr "7"));
            ("attached_file",
             FileField (String.list_byte_of_string "JVBERi0x") (JStr "report.pdf"))],
         Ok (JObj {[ "data" := JObj {[ "id" := JNum 1 ]} ]}))] []).
Proof. vm_compute. reflexivity. Qed.

Lemma empty_file_is_refused_witness :
  uploadAttachmentFromPath endpoints empty_file (JStr "issue") (JNum 7) (JStr "report.pdf")
    JUndefined (s0 5) =
    (Throw (mkError ("Failed to upload attachment from path: "
                     +:+ "Failed to upload attachment to Taiga: "
                     +:+ "Invalid file data: fileData must be a base64 encoded string")),
     World 5 (wire (s0 5)) (console (s0 5))).
Proof.
  apply (empty_file_is_refused endpoints empty_file (JStr "issue") (JNum 7) "report.pdf"
           JUndefined desktop_file [] (s0 5) 5 (JStr "token") 5).
  - discriminate.
  - reflexivity.
  - reflexivity.
  - reflexivity.
  - reflexivity.
  - reflexivity.
Defined.

Example mime_of_archive : detectMimeType "backup.tar.ZIP" = "application/zip".
Proof. vm_compute. reflexivity. Qed.

Lemma unknown_item_type_means_issue_witness :
  getItemEndpoint endpoints served (JStr "epic") = JStr "/issues" /\
  getAttachmentEndpoint endpoints served (JStr "epic") = JStr "/issues/attachments" /\
  exists exchanged,
    wire (addComment endpoints served (JStr "epic") (JNum 7) praise (s0 5)).2
      = wire (s0 5) ++ exchanged /\
    Forall (fun x => url_of x.1 = "/issues/7") exchanged.
Proof.
  apply (unknown_item_type_means_issue endpoints served (JStr "epic") (JNum 7) praise (s0 5)).
  - apply (bool_decide_unpack _). vm_compute. exact I.
  - discriminate.
  - discriminate.
Defined.

(** A comment meant for epic 7 is written to issue 7. *)
Example comment_on_epic_goes_to_issue :
  (wire (addComment endpoints served (JStr "epic") (JNum 7) praise (s0 5)).2).*1 =
    [GET "/issues/7";
     PATCH "/issues/7" (JObj (<["comment" := JStr "Looks good"]> {[ "version" := JNum 5 ]}))].
Proof. vm_compute. reflexivity. Qed.
End ServiceCases.

Section ListingCases.
Import Service Listing Examples Cases.

#[local] Abbreviation served := (mock_host versioned true).
#[local] Abbreviation locked_out := (mock_host versioned false).

Lemma two_page_client_rejects_with_errors q r e r' :
  two_page_client q r = (Throw e, r') -> is_nullish e = false.
Proof.
  destruct q as [url [params|]]; simpl; [|done].
  destruct (strict_eq_num _ 1); [done|]. destruct (strict_eq_num _ 2); [done|].
  by intros [= <- _].
Defined.

(** The issues of project 3, read in two pages. *)
Example issues_in_two_pages :
  listIssues endpoints constants served two_page_client (JNum 3) l0 =
    (Ok (JArr [id_item 1; id_item 2]),
     World 2
       [(Get "/issues" (Some (<["page" := JNum 1]> {[ "project" := JNum 3 ]})),
         Ok (Pagination.envelope [id_item 1] (JStr "page2")));
        (Get "/issues" (Some (<["page" := JNum 2]> {[ "project" := JNum 3 ]})),
         Ok (Pagination.envelope [id_item 2] JNull))] [] []).
Proof. vm_compute. reflexivity. Qed.

Lemma listings_fail_only_without_client_witness :
  fails_only_without_client locked_out
    (listIssues endpoints constants locked_out two_page_client (JNum 3))
    ("Failed to list issues for project " +:+ pretty 3 +:+ ":")
    "Failed to list issues from Taiga".
Proof.
  destruct (listings_fail_only_without_client endpoints constants locked_out two_page_client
              (JNum 3) (JNum 9) two_page_client_rejects_with_errors)
    as (_ & Hissues & _).
  exact Hissues.
Defined.

(** Without a client the listing fails, and says so on the console. *)
Example issues_without_client :
  listIssues endpoints constants locked_out two_page_client (JNum 3) l0 =
    (Throw (mkError "Failed to list issues from Taiga"),
     World 0 [] []
       [[JStr "Failed to list issues for project 3:"; JStr "Authentication failed"]]).
Proof. vm_compute. reflexivity. Qed.

Lemma rejected_first_page_lists_nothing_witness :
  listIssues endpoints constants served offline (JNum 3) l0 =
    (Ok (JArr []),
     World 0
       [(Get "/issues" (Some (<["page" := JNum 1]> {[ "project" := JNum 3 ]})),
         Throw (mkError "Network Error"))]
       ["Pagination stopped at page 1: Network Error"] []).
Proof.
  exact (rejected_first_page_lists_nothing served offline "/issues"
           {[ "project" := JNum 3 ]} ("Failed to list issues for project " +:+ pretty 3 +:+ ":")
           "Failed to list issues from Taiga" (mkError "Network Error") l0 0 0
           eq_refl eq_refl eq_refl).
Defined.

Lemma listProjects_of_current_user_witness :
  exists n : nat,
    (n <= 100)%nat /\
    (sent (listProjects constants served two_page_client l0).2).*1 =
      (sent l0).*1 ++ Get "/users/me" None ::
        (page_query "/projects" {[ "member" := JNum 42 ]} <$> seqZ 1 (Z.of_nat n)).
Proof.
  destruct (listProjects_of_current_user constants served two_page_client l0 0 0
              (Ok (JObj {[ "data" := JObj {[ "id" := JNum 42 ]} ]})) 0
              eq_refl eq_refl eq_refl) as [Hpages _].
  exact (Hpages _ (JObj {[ "id" := JNum 42 ]}) eq_refl eq_refl eq_refl).
Defined.

(** The projects of user 42. *)
Example projects_of_user_42 :
  (sent (listProjects constants served two_page_client l0).2).*1 =
    [Get "/users/me" None;
     Get "/projects" (Some (<["page" := JNum 1]> {[ "member" := JNum 42 ]}));
     Get "/projects" (Some (<["page" := JNum 2]> {[ "member" := JNum 42 ]}))].
Proof. vm_compute. reflexivity. Qed.
End ListingCases.
